(** * distro-detect: the distribution classification engine

    A shallow embedding of package [linux] of dekobon/distro-detect (the
    classifier and the tests of distrochecks.go) and the properties of its
    classification.

    Modelling conventions.
    - A Go [string] is a byte sequence; it is modelled as a Rocq [string]
      (one [ascii] per byte).  The regular expressions of the package only
      use ASCII literals, ASCII classes and complements of ASCII classes, so
      matching byte by byte coincides with Go's matching rune by rune.
      [strings.TrimSpace] and [strings.ToLower] read the bytes as UTF-8, as
      Go does.
    - [ReleaseDetails] (a Go [map[string]string]) is a [gmap string string];
      indexing a Go map at a missing key yields the empty string.
    - The file system and the two loggers are the state of the world; code
      that reads files or logs runs in a state monad [M], which also carries
      Go's run-time panics. *)

From Stdlib Require Import Ascii String List NArith ZArith Lia Bool.
From stdpp Require Import base option list strings gmap.

Local Open Scope string_scope.

(** ** Bytes and strings *)

Definition byte_of (n : nat) : ascii := ascii_of_nat n.

Definition TAB : ascii := "009"%char.
Definition LF : ascii := "010"%char.
Definition VT : ascii := "011"%char.
Definition FF : ascii := "012"%char.
Definition CR : ascii := "013"%char.
Definition SP : ascii := " "%char.
Definition DQUOTE : ascii := "034"%char.

(** [str c] is the one-byte string [string(c)]. *)
Definition str (c : ascii) : string := String c EmptyString.

Definition inRange (lo hi : nat) (c : ascii) : bool :=
  (lo <=? nat_of_ascii c)%nat && (nat_of_ascii c <=? hi)%nat.

(** [unicode.IsDigit] on a rune below [MaxLatin1]. *)
Definition IsDigit (c : ascii) : bool := inRange 48 57 c.

(** The table [asciiSpace] of package strings. *)
Definition asciiSpace (c : ascii) : bool :=
  Ascii.eqb c TAB || Ascii.eqb c LF || Ascii.eqb c VT || Ascii.eqb c FF
  || Ascii.eqb c CR || Ascii.eqb c SP.

(** [strings.HasPrefix]. *)
Definition HasPrefix (s p : string) : bool := String.prefix p s.

Fixpoint rev_onto (s acc : string) : string :=
  match s with
  | EmptyString => acc
  | String c s' => rev_onto s' (String c acc)
  end.

Definition srev (s : string) : string := rev_onto s EmptyString.

(** The UTF-8 encodings of the runes with Unicode property White_Space
    that lie above ASCII: U+0085, U+00A0 (two bytes), U+1680, U+2000 to
    U+200A, U+2028, U+2029, U+202F, U+205F, U+3000 (three bytes). *)
Definition space2 (b1 b2 : ascii) : bool :=
  Ascii.eqb b1 (byte_of 194)
  && (Ascii.eqb b2 (byte_of 133) || Ascii.eqb b2 (byte_of 160)).

Definition space3 (b1 b2 b3 : ascii) : bool :=
  (Ascii.eqb b1 (byte_of 225) && Ascii.eqb b2 (byte_of 154)
   && Ascii.eqb b3 (byte_of 128))
  || (Ascii.eqb b1 (byte_of 226) && Ascii.eqb b2 (byte_of 128)
      && (inRange 128 138 b3 || Ascii.eqb b3 (byte_of 168)
          || Ascii.eqb b3 (byte_of 169) || Ascii.eqb b3 (byte_of 175)))
  || (Ascii.eqb b1 (byte_of 226) && Ascii.eqb b2 (byte_of 129)
      && Ascii.eqb b3 (byte_of 159))
  || (Ascii.eqb b1 (byte_of 227) && Ascii.eqb b2 (byte_of 128)
      && Ascii.eqb b3 (byte_of 128)).

(** [strings.TrimLeftFunc(s, unicode.IsSpace)]: runes are decoded from the
    front; a byte sequence that is not the encoding of a space rune stops
    the trimming (an invalid sequence decodes to U+FFFD, not a space). *)
Fixpoint trimLeftSpace (s : string) : string :=
  match s with
  | EmptyString => EmptyString
  | String b1 s1 =>
      if asciiSpace b1 then trimLeftSpace s1
      else match s1 with
           | String b2 s2 =>
               if space2 b1 b2 then trimLeftSpace s2
               else match s2 with
                    | String b3 s3 =>
                        if space3 b1 b2 b3 then trimLeftSpace s3 else s
                    | EmptyString => s
                    end
           | EmptyString => s
           end
  end.

(** [strings.TrimRightFunc(s, unicode.IsSpace)], on the reversed string:
    [utf8.DecodeLastRuneInString] walks back to the nearest byte that starts
    a rune and accepts the decoded rune only if it ends the string. *)
Fixpoint trimLeftSpaceRev (s : string) : string :=
  match s with
  | EmptyString => EmptyString
  | String b1 s1 =>
      if asciiSpace b1 then trimLeftSpaceRev s1
      else match s1 with
           | String b2 s2 =>
               if space2 b2 b1 then trimLeftSpaceRev s2
               else match s2 with
                    | String b3 s3 =>
                        if space3 b3 b2 b1 then trimLeftSpaceRev s3 else s
                    | EmptyString => s
                    end
           | EmptyString => s
           end
  end.

Definition trimRightSpace (s : string) : string :=
  srev (trimLeftSpaceRev (srev s)).

(** [strings.TrimSpace]. *)
Definition TrimSpace (s : string) : string := trimRightSpace (trimLeftSpace s).

(** [strings.Trim(s, cutset)] for a cutset of one byte. *)
Fixpoint trimLeftByte (c : ascii) (s : string) : string :=
  match s with
  | EmptyString => EmptyString
  | String b s' => if Ascii.eqb b c then trimLeftByte c s' else s
  end.

Definition Trim (s : string) (c : ascii) : string :=
  srev (trimLeftByte c (srev (trimLeftByte c s))).

(** [strings.SplitN(s, sep, 2)] for a separator of one byte: the text before
    the first separator, and the text after it when there is one.  The
    result always has a first segment. *)
Fixpoint cutByte (c : ascii) (s : string) : string * option string :=
  match s with
  | EmptyString => (EmptyString, None)
  | String b s' =>
      if Ascii.eqb b c then (EmptyString, Some s')
      else let '(h, t) := cutByte c s' in (String b h, t)
  end.

Definition SplitN2 (s : string) (sep : ascii) : string * option string :=
  cutByte sep s.

(** Lower case of a byte of ASCII. *)
Definition lowerByte (c : ascii) : ascii :=
  if inRange 65 90 c then ascii_of_nat (nat_of_ascii c + 32) else c.

(** *** UTF-8 and case: packages unicode/utf8 and unicode *)

(** A rune, as a number. *)
Definition rune : Type := N.

Definition RuneError : rune := 0xFFFD%N.
Definition MaxRune : rune := 0x10FFFF%N.
Definition RuneSelf : N := 0x80%N.

Definition byteN (b : ascii) : N := N_of_ascii b.
Definition byteOf (n : N) : ascii := ascii_of_N n.

(** The table [first] of package utf8 with its [acceptRanges]: for a first
    byte, the length of the sequence and the bounds of the second byte;
    [None] for a byte that starts no sequence. *)
Definition utf8_first (b : ascii) : option (nat * N * N) :=
  let n := byteN b in
  if (n <? 0xC2)%N then None
  else if (n <=? 0xDF)%N then Some (2%nat, 0x80, 0xBF)%N
  else if (n =? 0xE0)%N then Some (3%nat, 0xA0, 0xBF)%N
  else if (n =? 0xED)%N then Some (3%nat, 0x80, 0x9F)%N
  else if (n <=? 0xEF)%N then Some (3%nat, 0x80, 0xBF)%N
  else if (n =? 0xF0)%N then Some (4%nat, 0x90, 0xBF)%N
  else if (n <=? 0xF3)%N then Some (4%nat, 0x80, 0xBF)%N
  else if (n =? 0xF4)%N then Some (4%nat, 0x80, 0x8F)%N
  else None.

Definition between (lo hi : N) (b : ascii) : bool :=
  ((lo <=? byteN b) && (byteN b <=? hi))%N.

(** The low bits of a byte: [b & mask]. *)
Definition bits (mask : N) (b : ascii) : N := N.land (byteN b) mask.

(** [utf8.DecodeRuneInString] on a text that is not empty: the rune and the
    text after it.  A byte that does not start a well-formed sequence
    gives [RuneError] and a width of one byte. *)
Definition DecodeRuneInString (s0 : ascii) (s : string) : rune * string :=
  if (byteN s0 <? RuneSelf)%N then (byteN s0, s)
  else
    match utf8_first s0 with
    | None => (RuneError, s)
    | Some (sz, lo, hi) =>
        match sz, s with
        | 2%nat, String s1 t =>
            if between lo hi s1 then
              (N.lor (N.shiftl (bits 0x1F s0) 6) (bits 0x3F s1), t)%N
            else (RuneError, s)
        | 3%nat, String s1 (String s2 t) =>
            if between lo hi s1 && between 0x80%N 0xBF%N s2 then
              (N.lor (N.shiftl (bits 0x0F s0) 12)
                 (N.lor (N.shiftl (bits 0x3F s1) 6) (bits 0x3F s2)), t)%N
            else (RuneError, s)
        | 4%nat, String s1 (String s2 (String s3 t)) =>
            if between lo hi s1 && between 0x80%N 0xBF%N s2
               && between 0x80%N 0xBF%N s3 then
              (N.lor (N.shiftl (bits 0x07 s0) 18)
                 (N.lor (N.shiftl (bits 0x3F s1) 12)
                    (N.lor (N.shiftl (bits 0x3F s2) 6) (bits 0x3F s3))), t)%N
            else (RuneError, s)
        | _, _ => (RuneError, s)
        end
    end.

(** A continuation byte with the six bits of [r] from bit [shift]. *)
Definition contByte (r : rune) (shift : N) : ascii :=
  byteOf (N.lor 0x80 (N.land (N.shiftr r shift) 0x3F))%N.

(** [utf8.AppendRune]: a surrogate or a rune above [MaxRune] is written as
    [RuneError]. *)
Definition EncodeRune (r : rune) : string :=
  if (r <=? 0x7F)%N then String (byteOf r) EmptyString
  else if (r <=? 0x7FF)%N then
    String (byteOf (N.lor 0xC0 (N.shiftr r 6))%N)
      (String (contByte r 0%N) EmptyString)
  else if (MaxRune <? r)%N || ((0xD800 <=? r) && (r <=? 0xDFFF))%N then
    String (byteOf 0xEF%N)
      (String (byteOf 0xBF%N) (String (byteOf 0xBD%N) EmptyString))
  else if (r <=? 0xFFFF)%N then
    String (byteOf (N.lor 0xE0 (N.shiftr r 12))%N)
      (String (contByte r 6%N) (String (contByte r 0%N) EmptyString))
  else
    String (byteOf (N.lor 0xF0 (N.shiftr r 18))%N)
      (String (contByte r 12%N)
         (String (contByte r 6%N) (String (contByte r 0%N) EmptyString))).

(** An entry of [unicode.CaseRanges], read for [LowerCase]: the runes from
    [Lo] to [Hi] move by a delta, or alternate between upper and lower
    case. *)
Inductive LowerDelta : Type :=
| Delta (d : Z)
| UpperLower.

(** The entries of [unicode.CaseRanges] that move a rune above ASCII to
    lower case: the simple lower-case mappings of the Unicode Character
    Database, version 14.0 (versions 15.0 and 15.1 add no pair of cases). *)
Definition CaseRanges : list (N * N * LowerDelta) :=
  [ (0x00C0, 0x00D6, Delta (32)); (0x00D8, 0x00DE, Delta (32));
    (0x0100, 0x012F, UpperLower); (0x0130, 0x0130, Delta (-199));
    (0x0132, 0x0137, UpperLower); (0x0139, 0x0148, UpperLower);
    (0x014A, 0x0177, UpperLower); (0x0178, 0x0178, Delta (-121));
    (0x0179, 0x017E, UpperLower); (0x0181, 0x0181, Delta (210));
    (0x0182, 0x0185, UpperLower); (0x0186, 0x0186, Delta (206));
    (0x0187, 0x0187, Delta (1)); (0x0189, 0x018A, Delta (205));
    (0x018B, 0x018B, Delta (1)); (0x018E, 0x018E, Delta (79));
    (0x018F, 0x018F, Delta (202)); (0x0190, 0x0190, Delta (203));
    (0x0191, 0x0191, Delta (1)); (0x0193, 0x0193, Delta (205));
    (0x0194, 0x0194, Delta (207)); (0x0196, 0x0196, Delta (211));
    (0x0197, 0x0197, Delta (209)); (0x0198, 0x0198, Delta (1));
    (0x019C, 0x019C, Delta (211)); (0x019D, 0x019D, Delta (213));
    (0x019F, 0x019F, Delta (214)); (0x01A0, 0x01A5, UpperLower);
    (0x01A6, 0x01A6, Delta (218)); (0x01A7, 0x01A7, Delta (1));
    (0x01A9, 0x01A9, Delta (218)); (0x01AC, 0x01AC, Delta (1));
    (0x01AE, 0x01AE, Delta (218)); (0x01AF, 0x01AF, Delta (1));
    (0x01B1, 0x01B2, Delta (217)); (0x01B3, 0x01B6, UpperLower);
    (0x01B7, 0x01B7, Delta (219)); (0x01B8, 0x01B8, Delta (1));
    (0x01BC, 0x01BC, Delta (1)); (0x01C4, 0x01C4, Delta (2));
    (0x01C5, 0x01C5, Delta (1)); (0x01C7, 0x01C7, Delta (2));
    (0x01C8, 0x01C8, Delta (1)); (0x01CA, 0x01CA, Delta (2));
    (0x01CB, 0x01DC, UpperLower); (0x01DE, 0x01EF, UpperLower);
    (0x01F1, 0x01F1, Delta (2)); (0x01F2, 0x01F5, UpperLower);
    (0x01F6, 0x01F6, Delta (-97)); (0x01F7, 0x01F7, Delta (-56));
    (0x01F8, 0x021F, UpperLower); (0x0220, 0x0220, Delta (-130));
    (0x0222, 0x0233, UpperLower); (0x023A, 0x023A, Delta (10795));
    (0x023B, 0x023B, Delta (1)); (0x023D, 0x023D, Delta (-163));
    (0x023E, 0x023E, Delta (10792)); (0x0241, 0x0241, Delta (1));
    (0x0243, 0x0243, Delta (-195)); (0x0244, 0x0244, Delta (69));
    (0x0245, 0x0245, Delta (71)); (0x0246, 0x024F, UpperLower);
    (0x0370, 0x0373, UpperLower); (0x0376, 0x0376, Delta (1));
    (0x037F, 0x037F, Delta (116)); (0x0386, 0x0386, Delta (38));
    (0x0388, 0x038A, Delta (37)); (0x038C, 0x038C, Delta (64));
    (0x038E, 0x038F, Delta (63)); (0x0391, 0x03A1, Delta (32));
    (0x03A3, 0x03AB, Delta (32)); (0x03CF, 0x03CF, Delta (8));
    (0x03D8, 0x03EF, UpperLower); (0x03F4, 0x03F4, Delta (-60));
    (0x03F7, 0x03F7, Delta (1)); (0x03F9, 0x03F9, Delta (-7));
    (0x03FA, 0x03FA, Delta (1)); (0x03FD, 0x03FF, Delta (-130));
    (0x0400, 0x040F, Delta (80)); (0x0410, 0x042F, Delta (32));
    (0x0460, 0x0481, UpperLower); (0x048A, 0x04BF, UpperLower);
    (0x04C0, 0x04C0, Delta (15)); (0x04C1, 0x04CE, UpperLower);
    (0x04D0, 0x052F, UpperLower); (0x0531, 0x0556, Delta (48));
    (0x10A0, 0x10C5, Delta (7264)); (0x10C7, 0x10C7, Delta (7264));
    (0x10CD, 0x10CD, Delta (7264)); (0x13A0, 0x13EF, Delta (38864));
    (0x13F0, 0x13F5, Delta (8)); (0x1C90, 0x1CBA, Delta (-3008));
    (0x1CBD, 0x1CBF, Delta (-3008)); (0x1E00, 0x1E95, UpperLower);
    (0x1E9E, 0x1E9E, Delta (-7615)); (0x1EA0, 0x1EFF, UpperLower);
    (0x1F08, 0x1F0F, Delta (-8)); (0x1F18, 0x1F1D, Delta (-8));
    (0x1F28, 0x1F2F, Delta (-8)); (0x1F38, 0x1F3F, Delta (-8));
    (0x1F48, 0x1F4D, Delta (-8)); (0x1F59, 0x1F59, Delta (-8));
    (0x1F5B, 0x1F5B, Delta (-8)); (0x1F5D, 0x1F5D, Delta (-8));
    (0x1F5F, 0x1F5F, Delta (-8)); (0x1F68, 0x1F6F, Delta (-8));
    (0x1F88, 0x1F8F, Delta (-8)); (0x1F98, 0x1F9F, Delta (-8));
    (0x1FA8, 0x1FAF, Delta (-8)); (0x1FB8, 0x1FB9, Delta (-8));
    (0x1FBA, 0x1FBB, Delta (-74)); (0x1FBC, 0x1FBC, Delta (-9));
    (0x1FC8, 0x1FCB, Delta (-86)); (0x1FCC, 0x1FCC, Delta (-9));
    (0x1FD8, 0x1FD9, Delta (-8)); (0x1FDA, 0x1FDB, Delta (-100));
    (0x1FE8, 0x1FE9, Delta (-8)); (0x1FEA, 0x1FEB, Delta (-112));
    (0x1FEC, 0x1FEC, Delta (-7)); (0x1FF8, 0x1FF9, Delta (-128));
    (0x1FFA, 0x1FFB, Delta (-126)); (0x1FFC, 0x1FFC, Delta (-9));
    (0x2126, 0x2126, Delta (-7517)); (0x212A, 0x212A, Delta (-8383));
    (0x212B, 0x212B, Delta (-8262)); (0x2132, 0x2132, Delta (28));
    (0x2160, 0x216F, Delta (16)); (0x2183, 0x2183, Delta (1));
    (0x24B6, 0x24CF, Delta (26)); (0x2C00, 0x2C2F, Delta (48));
    (0x2C60, 0x2C60, Delta (1)); (0x2C62, 0x2C62, Delta (-10743));
    (0x2C63, 0x2C63, Delta (-3814)); (0x2C64, 0x2C64, Delta (-10727));
    (0x2C67, 0x2C6C, UpperLower); (0x2C6D, 0x2C6D, Delta (-10780));
    (0x2C6E, 0x2C6E, Delta (-10749)); (0x2C6F, 0x2C6F, Delta (-10783));
    (0x2C70, 0x2C70, Delta (-10782)); (0x2C72, 0x2C72, Delta (1));
    (0x2C75, 0x2C75, Delta (1)); (0x2C7E, 0x2C7F, Delta (-10815));
    (0x2C80, 0x2CE3, UpperLower); (0x2CEB, 0x2CEE, UpperLower);
    (0x2CF2, 0x2CF2, Delta (1)); (0xA640, 0xA66D, UpperLower);
    (0xA680, 0xA69B, UpperLower); (0xA722, 0xA72F, UpperLower);
    (0xA732, 0xA76F, UpperLower); (0xA779, 0xA77C, UpperLower);
    (0xA77D, 0xA77D, Delta (-35332)); (0xA77E, 0xA787, UpperLower);
    (0xA78B, 0xA78B, Delta (1)); (0xA78D, 0xA78D, Delta (-42280));
    (0xA790, 0xA793, UpperLower); (0xA796, 0xA7A9, UpperLower);
    (0xA7AA, 0xA7AA, Delta (-42308)); (0xA7AB, 0xA7AB, Delta (-42319));
    (0xA7AC, 0xA7AC, Delta (-42315)); (0xA7AD, 0xA7AD, Delta (-42305));
    (0xA7AE, 0xA7AE, Delta (-42308)); (0xA7B0, 0xA7B0, Delta (-42258));
    (0xA7B1, 0xA7B1, Delta (-42282)); (0xA7B2, 0xA7B2, Delta (-42261));
    (0xA7B3, 0xA7B3, Delta (928)); (0xA7B4, 0xA7C3, UpperLower);
    (0xA7C4, 0xA7C4, Delta (-48)); (0xA7C5, 0xA7C5, Delta (-42307));
    (0xA7C6, 0xA7C6, Delta (-35384)); (0xA7C7, 0xA7CA, UpperLower);
    (0xA7D0, 0xA7D0, Delta (1)); (0xA7D6, 0xA7D9, UpperLower);
    (0xA7F5, 0xA7F5, Delta (1)); (0xFF21, 0xFF3A, Delta (32));
    (0x10400, 0x10427, Delta (40)); (0x104B0, 0x104D3, Delta (40));
    (0x10570, 0x1057A, Delta (39)); (0x1057C, 0x1058A, Delta (39));
    (0x1058C, 0x10592, Delta (39)); (0x10594, 0x10595, Delta (39));
    (0x10C80, 0x10CB2, Delta (64)); (0x118A0, 0x118BF, Delta (32));
    (0x16E40, 0x16E5F, Delta (32)); (0x1E900, 0x1E921, Delta (34)) ]%N.

(** The search of [unicode.to] for [LowerCase]. *)
Fixpoint to_lower (r : rune) (caseRange : list (N * N * LowerDelta)) : rune :=
  match caseRange with
  | [] => r
  | (lo, hi, delta) :: rest =>
      if ((lo <=? r) && (r <=? hi))%N then
        match delta with
        | UpperLower => (lo + N.lor (N.clearbit (r - lo) 0) 1)%N
        | Delta d => Z.to_N (Z.of_N r + d)
        end
      else to_lower r rest
  end.

(** [unicode.ToLower]. *)
Definition unicode_ToLower (r : rune) : rune :=
  if (r <=? 0x7F)%N then
    if ((0x41 <=? r) && (r <=? 0x5A))%N then (r + 32)%N else r
  else to_lower r CaseRanges.

(** [strings.Map]: the runes of the text, each mapped and written again; a
    byte that is no part of a well-formed sequence is read as
    [RuneError].  [fuel] bounds the runes by the bytes. *)
Fixpoint mapRunes (mapping : rune -> rune) (fuel : nat) (s : string) : string :=
  match fuel, s with
  | S fuel', String s0 t =>
      let '(c, rest) := DecodeRuneInString s0 t in
      EncodeRune (mapping c) ++ mapRunes mapping fuel' rest
  | _, _ => EmptyString
  end.

Definition Map (mapping : rune -> rune) (s : string) : string :=
  mapRunes mapping (String.length s) s.

Fixpoint isASCII (s : string) : bool :=
  match s with
  | EmptyString => true
  | String c s' => (byteN c <? RuneSelf)%N && isASCII s'
  end.

Fixpoint hasUpper (s : string) : bool :=
  match s with
  | EmptyString => false
  | String c s' => inRange 65 90 c || hasUpper s'
  end.

Fixpoint lowerBytes (s : string) : string :=
  match s with
  | EmptyString => EmptyString
  | String c s' => String (lowerByte c) (lowerBytes s')
  end.

(** [strings.ToLower]: a text of ASCII bytes is returned as it is when it
    has no upper-case letter and lowered byte by byte otherwise; any other
    text goes through [Map]. *)
Definition ToLower (s : string) : string :=
  if isASCII s then
    if hasUpper s then lowerBytes s else s
  else Map unicode_ToLower s.

Definition strlen (s : string) : N := N.of_nat (String.length s).

(** ** Regular expressions

    The fragment of Go's regexp syntax the package uses, with the
    leftmost-first semantics of package regexp: the match returned is the
    one a backtracking search finds first; star, plus and the question mark
    are greedy. *)

Inductive Regex : Type :=
| REmpty
| RSet (p : ascii -> bool)
| RCat (r1 r2 : Regex)
| RAlt (r1 r2 : Regex)
| RStar (r : Regex)
| RGroup (i : nat) (r : Regex).

Definition RPlus (r : Regex) : Regex := RCat r (RStar r).
Definition ROpt (r : Regex) : Regex := RAlt r REmpty.
Definition RByte (c : ascii) : Regex := RSet (Ascii.eqb c).

Fixpoint RLit (s : string) : Regex :=
  match s with
  | EmptyString => REmpty
  | String c s' => RCat (RByte c) (RLit s')
  end.

Fixpoint RSeq (rs : list Regex) : Regex :=
  match rs with
  | [] => REmpty
  | [r] => r
  | r :: rs' => RCat r (RSeq rs')
  end.

(** Perl classes as RE2 defines them: [\s] is [\t\n\f\r ] (no vertical
    tab), [.] is every character but the newline. *)
Definition cls_s (c : ascii) : bool :=
  Ascii.eqb c TAB || Ascii.eqb c LF || Ascii.eqb c FF || Ascii.eqb c CR
  || Ascii.eqb c SP.
Definition cls_S (c : ascii) : bool := negb (cls_s c).
Definition cls_dot (c : ascii) : bool := negb (Ascii.eqb c LF).
(** [[\S ]] *)
Definition cls_S_or_blank (c : ascii) : bool := cls_S c || Ascii.eqb c SP.
(** [[0-9.]] *)
Definition cls_digit_dot (c : ascii) : bool :=
  inRange 48 57 c || Ascii.eqb c "."%char.

(** Submatches: the text of each capture group, the empty string for a
    group that took no part in the match. *)
Definition Caps := list string.

(** The continuation receives the text consumed, the rest of the input and
    the captures so far. *)
Definition Cont (R : Type) := string -> string -> Caps -> option R.

(** The iterations of a star whose body is matched by [step]: one more
    iteration is tried before leaving the loop, an iteration that consumes
    nothing is refused, and [fuel] bounds the iterations by the length of
    the input. *)
Fixpoint starLoop {R : Type} (step : string -> Caps -> Cont R -> option R)
    (k : Cont R) (fuel : nat) (acc s : string) (caps : Caps) : option R :=
  match fuel with
  | O => k acc s caps
  | S fuel' =>
      match step s caps (fun w s' c' =>
              match w with
              | EmptyString => None
              | _ => starLoop step k fuel' (acc ++ w) s' c'
              end) with
      | Some x => Some x
      | None => k acc s caps
      end
  end.

Fixpoint rmatch {R : Type} (r : Regex) (s : string) (caps : Caps)
    (k : Cont R) {struct r} : option R :=
  match r with
  | REmpty => k EmptyString s caps
  | RSet p =>
      match s with
      | String c s' => if p c then k (str c) s' caps else None
      | EmptyString => None
      end
  | RCat r1 r2 =>
      rmatch r1 s caps (fun w1 s1 c1 =>
        rmatch r2 s1 c1 (fun w2 s2 c2 => k (w1 ++ w2) s2 c2))
  | RAlt r1 r2 =>
      match rmatch r1 s caps k with
      | Some x => Some x
      | None => rmatch r2 s caps k
      end
  | RStar r1 =>
      starLoop (rmatch r1) k (String.length s) EmptyString s caps
  | RGroup i r1 =>
      rmatch r1 s caps (fun w s' c' => k w s' (<[i := w]> c'))
  end.

(** A compiled expression: whether it starts with [^], its body, and the
    number of capture groups. *)
Record Regexp : Type := mkRegexp {
  anchored : bool;
  body : Regex;
  groups : nat
}.

Definition matchHere (re : Regexp) (s : string) : option (list string) :=
  rmatch (body re) s (replicate (S (groups re)) EmptyString)
    (fun w _ caps => Some (<[0 := w]> caps)).

Fixpoint matchFrom (re : Regexp) (s : string) : option (list string) :=
  match matchHere re s with
  | Some m => Some m
  | None =>
      match s with
      | EmptyString => None
      | String _ s' => matchFrom re s'
      end
  end.

(** [Regexp.FindStringSubmatch]: [None] is Go's nil slice. *)
Definition FindStringSubmatch (re : Regexp) (s : string) : option (list string) :=
  if anchored re then matchHere re s else matchFrom re s.

(** ** The expressions of the package *)

(** [equalsSplitter]: [^\s*(\S+)\s*=\s*([\S ]+)\s*] *)
Definition equalsSplitter : Regexp :=
  mkRegexp true
    (RSeq [RStar (RSet cls_s); RGroup 1 (RPlus (RSet cls_S)); RStar (RSet cls_s);
           RByte "="%char; RStar (RSet cls_s);
           RGroup 2 (RPlus (RSet cls_S_or_blank)); RStar (RSet cls_s)])
    2.

(** [releaseSplitter]: [^(.+) (release|version)? (\S+)\s*(\S+)?] *)
Definition releaseSplitter : Regexp :=
  mkRegexp true
    (RSeq [RGroup 1 (RPlus (RSet cls_dot)); RByte SP;
           ROpt (RGroup 2 (RAlt (RLit "release") (RLit "version")));
           RByte SP; RGroup 3 (RPlus (RSet cls_S)); RStar (RSet cls_s);
           ROpt (RGroup 4 (RPlus (RSet cls_S)))])
    4.

(** The expression of [IsCrux]: [\s*echo "CRUX version ([0-9.]+)"\s*] *)
Definition cruxVersion : Regexp :=
  mkRegexp false
    (RSeq [RStar (RSet cls_s); RLit "echo "; RByte DQUOTE; RLit "CRUX version ";
           RGroup 1 (RPlus (RSet cls_digit_dot)); RByte DQUOTE;
           RStar (RSet cls_s)])
    1.

(** The expression of [IsMXLinux]: [(\S+)-([0-9.]+)] *)
Definition mxVersion : Regexp :=
  mkRegexp false
    (RSeq [RGroup 1 (RPlus (RSet cls_S)); RByte "-"%char;
           RGroup 2 (RPlus (RSet cls_digit_dot))])
    2.

(** The expression of [IsSourceMage]: [.*\((.+)\).*] *)
Definition sourceMageVersion : Regexp :=
  mkRegexp false
    (RSeq [RStar (RSet cls_dot); RByte "("%char; RGroup 1 (RPlus (RSet cls_dot));
           RByte ")"%char; RStar (RSet cls_dot)])
    1.

(** ** The world: files and loggers *)

(** What a path resolves to.  [Regular data fault] is a regular file that can
    be opened; reading it delivers [data] and then, when [fault] is set, an
    I/O error instead of the end of file. *)
Inductive FileNode : Type :=
| Directory
| OpenFails
| Regular (data : string) (fault : bool).

Inductive Severity : Type := SevError | SevWarn.

(** A line handed to a logger: the logger and the format string. *)
Record LogLine : Type := mkLogLine { severity : Severity; format : string }.

(** A path that is not in [files] does not exist ([os.Stat] fails).  Paths
    are taken after the redirection by [FileSystemRoot]. *)
Record World : Type := mkWorld {
  files : gmap string FileNode;
  logged : list LogLine
}.

Inductive PanicKind : Type :=
| IndexOutOfRange (index len : nat).

(** A Go expression that may panic. *)
Inductive Checked (A : Type) : Type :=
| Fault (p : PanicKind)
| Value (a : A).
Arguments Fault {A} p.
Arguments Value {A} a.

(** The outcome of running effectful code from a world. *)
Inductive Outcome (A : Type) : Type :=
| Panicked (p : PanicKind)
| Returned (a : A) (w : World).
Arguments Panicked {A} p.
Arguments Returned {A} a w.

Definition M (A : Type) : Type := World -> Outcome A.

Definition ret {A} (a : A) : M A := fun w => Returned a w.

Definition bind {A B} (m : M A) (f : A -> M B) : M B :=
  fun w => match m w with
           | Panicked p => Panicked p
           | Returned a w' => f a w'
           end.

Definition lift {A} (c : Checked A) : M A :=
  fun w => match c with
           | Fault p => Panicked p
           | Value a => Returned a w
           end.

Declare Scope go_scope.
Delimit Scope go_scope with go.
Notation "x <- m ; k" := (bind m (fun x : _ => k))
  (at level 20, m at level 100, k at level 200, only parsing) : go_scope.
Notation "' pat <- m ; k" := (bind m (fun pat : _ => k))
  (at level 20, pat pattern, m at level 100, k at level 200, only parsing) : go_scope.
Local Open Scope go_scope.

Definition stat (path : string) : M (option FileNode) :=
  fun w => Returned (files w !! path) w.

Definition logLine (sev : Severity) (fmt : string) : M unit :=
  fun w => Returned tt (mkWorld (files w) (logged w ++ [mkLogLine sev fmt])).

(** [LogErrorf] and [LogWarnf], called with arguments and without. *)
Definition LogErrorf (fmt : string) (hasArgs : bool) : M unit :=
  logLine (if hasArgs then SevError else SevWarn) fmt.

Definition LogWarnf (fmt : string) (hasArgs : bool) : M unit :=
  logLine SevWarn fmt.

(** An open [io.ReadCloser]: the bytes still to be delivered and whether an
    error follows them. *)
Record Reader : Type := mkReader { pending : string; failing : bool }.

(** [readBinaryFileFunc]: the first candidate that exists and is not a
    directory is opened.  [inr] is the error result, with the path that
    could not be opened, empty when no candidate was found. *)
Fixpoint readBinaryFileFunc (filePaths : list string)
    : M (Reader * string + string) :=
  match filePaths with
  | [] => ret (inr EmptyString)
  | filePath :: rest =>
      node <- stat filePath;
      match node with
      | None | Some Directory => readBinaryFileFunc rest
      | Some OpenFails =>
          '_ <- LogErrorf "unable to open file (%s): %v" true;
          ret (inr filePath)
      | Some (Regular data fault) => ret (inl (mkReader data fault, filePath))
      end
  end.

(** [readFileFunc]: [ioutil.ReadAll] of the file found. *)
Definition readFileFunc (filePaths : list string) : M (bool * string) :=
  r <- readBinaryFileFunc filePaths;
  match r with
  | inr _ => ret (false, EmptyString)
  | inl (reader, _) =>
      if failing reader then
        '_ <- LogErrorf "unable to read file (%s): %v" true;
        ret (false, EmptyString)
      else ret (true, pending reader)
  end.

(** ** Release records *)

Abbreviation ReleaseDetails := (gmap string string).

(** Indexing a Go map: the zero value at a missing key. *)
Definition at_key (m : ReleaseDetails) (k : string) : string :=
  default EmptyString (m !! k).

Record LinuxDistro : Type := mkLinuxDistro {
  Name : string;
  ID : string;
  Version : string;
  LsbRelease : ReleaseDetails;
  OsRelease : ReleaseDetails
}.

(** The zero value [LinuxDistro{}]; a nil map reads as the empty map. *)
Definition zeroDistro : LinuxDistro :=
  mkLinuxDistro EmptyString EmptyString EmptyString ∅ ∅.

(** ** Parsers *)

Inductive SplitError : Type :=
| BlankLine
| CommentedLine
| NoSplittableCharacter
| UnexpectedMatches (n : nat).

Definition splitEqualsKeyVal (line : string) : string * string + SplitError :=
  match line with
  | EmptyString => inr BlankLine
  | String c _ =>
      if Ascii.eqb c "#"%char then inr CommentedLine
      else
        match FindStringSubmatch equalsSplitter line with
        | None => inr NoSplittableCharacter
        | Some [m0; m1; m2] =>
            let withoutTrailingWhitespace := TrimSpace m2 in
            let withoutEnclosingQuotes := Trim withoutTrailingWhitespace DQUOTE in
            inl (m1, withoutEnclosingQuotes)
        | Some [] => inr NoSplittableCharacter
        | Some m => inr (UnexpectedMatches (length m))
        end
  end.

(** The tokens of a [bufio.Scanner] with the default [ScanLines]: the text
    between newlines, and a last line without newline when it is not empty.
    [cur] holds the current line, reversed. *)
Fixpoint rawLines (s : string) (cur : string) : list string :=
  match s with
  | EmptyString =>
      match cur with
      | EmptyString => []
      | _ => [srev cur]
      end
  | String c s' =>
      if Ascii.eqb c LF then srev cur :: rawLines s' EmptyString
      else rawLines s' (String c cur)
  end.

(** [dropCR]: one trailing carriage return is removed. *)
Definition dropCR (l : string) : string :=
  match srev l with
  | String c r => if Ascii.eqb c CR then srev r else l
  | EmptyString => l
  end.

(** [bufio.MaxScanTokenSize]: a line that does not fit the buffer stops the
    scan with [bufio.ErrTooLong]. *)
Definition MaxScanTokenSize : N := 65536.

Definition tooLong (l : string) : bool := (MaxScanTokenSize <=? strlen l)%N.

(** The loop of [parseOSRelease] over the scanner's lines; the flag is
    [scanner.Err() != nil]. *)
Fixpoint parseLines (ls : list string) (properties : ReleaseDetails)
    : ReleaseDetails * bool :=
  match ls with
  | [] => (properties, false)
  | l :: rest =>
      if tooLong l then (properties, true)
      else
        match splitEqualsKeyVal (dropCR l) with
        | inr _ => parseLines rest properties
        | inl (key, val) => parseLines rest (<[key := val]> properties)
        end
  end.

(** [parseOSRelease] on a [strings.Reader]. *)
Definition parseOSRelease (contents : string) : ReleaseDetails * bool :=
  parseLines (rawLines contents EmptyString) ∅.

(** Indexing a slice: out of range panics. *)
Definition index (m : list string) (i : nat) : Checked string :=
  match m !! i with
  | Some x => Value x
  | None => Fault (IndexOutOfRange i (length m))
  end.

Definition parseRedhatReleaseContents (contents expectedDistro : string)
    : Checked (bool * string) :=
  let matches := default [] (FindStringSubmatch releaseSplitter contents) in
  match index matches 0 with
  | Fault p => Fault p
  | Value m0 =>
      if negb (HasPrefix m0 expectedDistro) then Value (false, EmptyString)
      else if (3 <? length matches)%nat then
        match index matches 3 with
        | Fault p => Fault p
        | Value m3 => Value (true, TrimSpace m3)
        end
      else Value (true, "unknown")
  end.

(** ** Detectors (distrochecks.go) *)

Definition DistroTest : Type :=
  ReleaseDetails -> ReleaseDetails -> M (bool * LinuxDistro).

Definition noMatch : M (bool * LinuxDistro) := ret (false, zeroDistro).

Definition nonEmpty (s : string) : bool := negb (s =? EmptyString)%string.

Definition IsAlpine : DistroTest := fun lsbProperties osReleaseProperties =>
  if (at_key osReleaseProperties "ID" =? "alpine")%string then
    ret (true, {| Name := "Alpine Linux"; ID := "alpine";
                  Version := at_key osReleaseProperties "VERSION_ID";
                  LsbRelease := lsbProperties; OsRelease := osReleaseProperties |})
  else
    '(exists_, content) <- readFileFunc ["/etc/alpine-release"];
    if exists_ then
      let version := TrimSpace content in
      ret (true, {| Name := "Alpine Linux"; ID := "alpine"; Version := version;
                    LsbRelease := lsbProperties; OsRelease := osReleaseProperties |})
    else noMatch.

Definition IsAlt : DistroTest := fun lsbProperties osReleaseProperties =>
  if (at_key osReleaseProperties "ID" =? "altlinux")%string then
    ret (true, {| Name := "ALT Starterkit"; ID := "altlinux";
                  Version := at_key osReleaseProperties "VERSION_ID";
                  LsbRelease := lsbProperties; OsRelease := osReleaseProperties |})
  else noMatch.

Definition IsAmazonLinux : DistroTest := fun lsbProperties osReleaseProperties =>
  if negb (at_key osReleaseProperties "ID" =? "amzn")%string then noMatch
  else
    ret (true, {| Name := "Amazon Linux"; ID := "amzn";
                  Version := at_key osReleaseProperties "VERSION_ID";
                  LsbRelease := lsbProperties; OsRelease := osReleaseProperties |}).

Definition IsAndroid : DistroTest := fun lsbProperties osReleaseProperties =>
  '(exists_, contents) <- readFileFunc ["/system/build.prop"];
  if exists_ then
    let '(releaseInfo, err) := parseOSRelease contents in
    let version :=
      if negb err then
        if nonEmpty (at_key releaseInfo "ro.com.google.gmsversion") then
          at_key releaseInfo "ro.com.google.gmsversion"
        else if nonEmpty (at_key releaseInfo "ro.build.version.release") then
          at_key releaseInfo "ro.build.version.release"
        else "unknown"
      else "unknown" in
    ret (true, {| Name := "Android"; ID := "android"; Version := version;
                  LsbRelease := lsbProperties; OsRelease := osReleaseProperties |})
  else noMatch.

Definition IsArchLinux : DistroTest := fun lsbProperties osReleaseProperties =>
  if negb (at_key osReleaseProperties "ID" =? "arch")%string then noMatch
  else
    ret (true, {| Name := "Arch Linux"; ID := "arch"; Version := "rolling";
                  LsbRelease := lsbProperties; OsRelease := osReleaseProperties |}).

(** *** The scan of /bin/true by [IsBusyBox] *)

Definition searchBytes : string := "BusyBox v".
Definition searchBytesSize : nat := String.length searchBytes.
(** [len(buf)] *)
Definition bufSize : nat := searchBytesSize + 5.

(** The variables of the scan ([position] is only ever written). *)
Record Scan : Type := mkScan {
  matchedPos : nat;
  foundBusyBox : bool;
  foundVersion : bool;
  version : string
}.

Definition scanStart : Scan := mkScan 0 false false EmptyString.

(** The successive results of [reader.Read(buf)] on a regular file: full
    buffers, then what is left.  [cur] is the chunk being filled, reversed,
    and [room] the space left in it. *)
Fixpoint chunksFrom (size : nat) (s cur : string) (room : nat) : list string :=
  match s with
  | EmptyString =>
      match cur with
      | EmptyString => []
      | _ => [srev cur]
      end
  | String c s' =>
      match room with
      | S (S r) => chunksFrom size s' (String c cur) (S r)
      | _ => srev (String c cur) :: chunksFrom size s' EmptyString size
      end
  end.

Definition readChunks (size : nat) (data : string) : list string :=
  chunksFrom size data EmptyString size.

(** All bytes of a chunk but the last: the indices [i < n-1]. *)
Fixpoint butLast (s : string) : string :=
  match s with
  | EmptyString => EmptyString
  | String c EmptyString => EmptyString
  | String c s' => String c (butLast s')
  end.

(** The inner loop, over [buf[0 .. n-2]]. *)
Fixpoint scanBytes (bytes : string) (st : Scan) : Scan :=
  match bytes with
  | EmptyString => st
  | String b rest =>
      if negb (matchedPos st <? searchBytesSize)%nat then st
      else if foundBusyBox st then
        if IsDigit b || Ascii.eqb b "."%char then
          scanBytes rest (mkScan (matchedPos st) true (foundVersion st)
                                 (version st ++ str b))
        else if (String.length (version st) <? 6)%nat then
          scanBytes rest (mkScan 0 false (foundVersion st) (version st))
        else
          mkScan (matchedPos st) true true (version st)
      else
        match String.get (matchedPos st) searchBytes with
        | Some c =>
            if Ascii.eqb b c then
              if (matchedPos st + 1 =? searchBytesSize)%nat then
                scanBytes rest (mkScan (matchedPos st) true (foundVersion st)
                                       (version st))
              else
                scanBytes rest (mkScan (matchedPos st + 1) false
                                       (foundVersion st) (version st))
            else st
        | None => st
        end
  end.

(** The outer loop; [None] is the return on a read error. *)
Fixpoint scanChunks (chunks : list string) (fault : bool) (st : Scan)
    : option Scan :=
  match chunks with
  | [] => if fault then None else Some st
  | chunk :: rest =>
      let st' := scanBytes (butLast chunk) st in
      if foundBusyBox st' && foundVersion st' then Some st'
      else scanChunks rest fault st'
  end.

Definition IsBusyBox : DistroTest := fun lsbProperties osReleaseProperties =>
  '(exists_, _) <- readFileFunc ["/etc/os-release"; "/etc/lsb-release"];
  if exists_ then noMatch
  else
    opened <- readBinaryFileFunc ["/bin/true"];
    match opened with
    | inr _ => noMatch
    | inl (reader, filePath) =>
        match scanChunks (readChunks bufSize (pending reader)) (failing reader)
                scanStart with
        | None =>
            '_ <- LogErrorf "unable to read in buffer for file(%s): %v" true;
            noMatch
        | Some st =>
            if negb (foundBusyBox st) then noMatch
            else
              ret (true, {| Name := "BusyBox"; ID := "busybox";
                            Version := "v" ++ version st;
                            LsbRelease := lsbProperties;
                            OsRelease := osReleaseProperties |})
        end
    end.

Definition IsOracleLinux : DistroTest := fun lsbProperties osReleaseProperties =>
  if (at_key osReleaseProperties "ID" =? "ol")%string
     && nonEmpty (at_key osReleaseProperties "VERSION_ID") then
    ret (true, {| Name := "Oracle Linux"; ID := "ol";
                  Version := at_key osReleaseProperties "VERSION_ID";
                  LsbRelease := lsbProperties; OsRelease := osReleaseProperties |})
  else
    '(exists_, contents) <- readFileFunc ["/etc/oracle-release"];
    if exists_ then
      '(matched, version) <- lift (parseRedhatReleaseContents contents "Oracle Linux");
      if matched then
        ret (true, {| Name := "Oracle Linux"; ID := "ol"; Version := version;
                      LsbRelease := lsbProperties;
                      OsRelease := osReleaseProperties |})
      else noMatch
    else noMatch.

Definition IsCentOS : DistroTest := fun lsbProperties osReleaseProperties =>
  '(imOracle, distro) <- IsOracleLinux lsbProperties osReleaseProperties;
  if imOracle then ret (imOracle, distro)
  else
    '(exists_, contents) <- readFileFunc ["/etc/centos-release"; "/etc/redhat-release"];
    if exists_ then
      '(matched, version) <- lift (parseRedhatReleaseContents contents "CentOS");
      if matched then
        ret (true, {| Name := "CentOS Linux"; ID := "centos"; Version := version;
                      LsbRelease := lsbProperties;
                      OsRelease := osReleaseProperties |})
      else noMatch
    else noMatch.

Definition IsClearLinux : DistroTest := fun lsbProperties osReleaseProperties =>
  if (at_key osReleaseProperties "ID" =? "clear-linux-os")%string then
    ret (true, {| Name := "Clear Linux OS"; ID := "clear-linux-os";
                  Version := at_key osReleaseProperties "VERSION_ID";
                  LsbRelease := lsbProperties; OsRelease := osReleaseProperties |})
  else noMatch.

(** The loop of [IsCrux] and [IsSourceMage] over the lines of a script: the
    first capture group of the first line that matches, [version] when the
    scanner ends first. *)
Fixpoint firstVersionLine (rex : Regexp) (ls : list string) (version : string)
    : string :=
  match ls with
  | [] => version
  | l :: rest =>
      if tooLong l then version
      else
        let line := dropCR l in
        if (line =? EmptyString)%string || HasPrefix line "#" then
          firstVersionLine rex rest version
        else
          match FindStringSubmatch rex line with
          | Some [_; m1] => m1
          | _ => firstVersionLine rex rest version
          end
  end.

Definition IsCrux : DistroTest := fun lsbProperties osReleaseProperties =>
  '(exists_, contents) <- readFileFunc ["/usr/bin/crux"];
  if exists_ then
    let version :=
      firstVersionLine cruxVersion (rawLines contents EmptyString) "unknown" in
    ret (true, {| Name := "CRUX"; ID := "crux"; Version := version;
                  LsbRelease := lsbProperties; OsRelease := osReleaseProperties |})
  else noMatch.

Definition IsMXLinux : DistroTest := fun lsbProperties osReleaseProperties =>
  if (at_key lsbProperties "DISTRIB_ID" =? "MX")%string then
    ret (true, {| Name := "MX Linux"; ID := "mx";
                  Version := at_key lsbProperties "DISTRIB_RELEASE";
                  LsbRelease := lsbProperties; OsRelease := osReleaseProperties |})
  else
    '(exists_, content) <- readFileFunc ["/etc/mx-version"];
    if exists_ then
      match FindStringSubmatch mxVersion content with
      | Some [_; m1; m2] =>
          if (m1 =? "MX")%string then
            ret (true, {| Name := "MX Linux"; ID := "mx"; Version := m2;
                          LsbRelease := lsbProperties;
                          OsRelease := osReleaseProperties |})
          else noMatch
      | _ => noMatch
      end
    else noMatch.

Definition IsDebian : DistroTest := fun lsbProperties osReleaseProperties =>
  '(iamMx, distro) <- IsMXLinux lsbProperties osReleaseProperties;
  if iamMx then ret (iamMx, distro)
  else
    '(debianVersionExists, versionContents) <- readFileFunc ["/etc/debian_version"];
    if negb debianVersionExists then noMatch
    else
      let version := TrimSpace versionContents in
      '(issueExists, issueContents) <- readFileFunc ["/etc/issue"];
      if issueExists && negb (HasPrefix issueContents "Debian") then noMatch
      else if negb (at_key osReleaseProperties "ID" =? "debian")%string
              && nonEmpty (at_key osReleaseProperties "ID") then noMatch
      else
        ret (true, {| Name := "Debian GNU/Linux"; ID := "debian";
                      Version := version; LsbRelease := lsbProperties;
                      OsRelease := osReleaseProperties |}).

Definition IsFedora : DistroTest := fun lsbProperties osReleaseProperties =>
  if (at_key osReleaseProperties "ID" =? "fedora")%string then
    ret (true, {| Name := "Fedora"; ID := "fedora";
                  Version := at_key osReleaseProperties "VERSION_ID";
                  LsbRelease := lsbProperties; OsRelease := osReleaseProperties |})
  else
    '(imOracle, distro) <- IsOracleLinux lsbProperties osReleaseProperties;
    if imOracle then ret (imOracle, distro)
    else
      '(exists_, contents) <- readFileFunc ["/etc/redhat-release"];
      if exists_ then
        '(matched, version) <- lift (parseRedhatReleaseContents contents "Fedora");
        if matched then
          ret (true, {| Name := "Fedora"; ID := "fedora"; Version := version;
                        LsbRelease := lsbProperties;
                        OsRelease := osReleaseProperties |})
        else noMatch
      else noMatch.

Definition IsKali : DistroTest := fun lsbProperties osReleaseProperties =>
  if (at_key osReleaseProperties "ID" =? "kali")%string then
    ret (true, {| Name := "Kali GNU/Linux"; ID := "kali";
                  Version := at_key osReleaseProperties "VERSION_ID";
                  LsbRelease := lsbProperties; OsRelease := osReleaseProperties |})
  else noMatch.

Definition IsGentoo : DistroTest := fun lsbProperties osReleaseProperties =>
  if (at_key osReleaseProperties "ID" =? "gentoo")%string then
    '(exists_, contents) <- readFileFunc ["/etc/gentoo-release"];
    version <-
      (if exists_ then
         '(match_, baseSystemVersion) <-
           lift (parseRedhatReleaseContents contents "Gentoo");
         if match_ then ret baseSystemVersion else ret "unknown"
       else ret "unknown");
    ret (true, {| Name := "Gentoo"; ID := "gentoo"; Version := version;
                  LsbRelease := lsbProperties; OsRelease := osReleaseProperties |})
  else noMatch.

(** The version that [IsOpenSuSE], [IsSLES] and [IsNovellOES] read from the
    body of a legacy release file. *)
Definition legacyVersion (contents : string) : string :=
  let '(releaseDetails, err) := parseOSRelease contents in
  if negb err then at_key releaseDetails "VERSION" else "unknown".

Definition IsOpenSuSE : DistroTest := fun lsbProperties osReleaseProperties =>
  if (at_key osReleaseProperties "ID" =? "opensuse")%string then
    ret (true, {| Name := "openSUSE"; ID := "opensuse";
                  Version := at_key osReleaseProperties "VERSION_ID";
                  LsbRelease := lsbProperties; OsRelease := osReleaseProperties |})
  else
    '(exists_, contents) <- readFileFunc ["/etc/SuSE-release"];
    if exists_ && HasPrefix contents "openSUSE" then
      let version := legacyVersion contents in
      ret (true, {| Name := "openSUSE"; ID := "opensuse"; Version := version;
                    LsbRelease := lsbProperties;
                    OsRelease := osReleaseProperties |})
    else noMatch.

Definition IsPhoton : DistroTest := fun lsbProperties osReleaseProperties =>
  if (at_key osReleaseProperties "ID" =? "photon")%string
     && nonEmpty (at_key osReleaseProperties "VERSION_ID") then
    ret (true, {| Name := "VMware Photon"; ID := "photon";
                  Version := at_key osReleaseProperties "VERSION_ID";
                  LsbRelease := lsbProperties; OsRelease := osReleaseProperties |})
  else
    '(exists_, contents) <- readFileFunc ["/etc/photon-release"];
    if exists_ then
      '(matched, version) <-
        lift (parseRedhatReleaseContents contents "VMware Photon Linux");
      if matched then
        ret (true, {| Name := "VMware Photon"; ID := "photon"; Version := version;
                      LsbRelease := lsbProperties;
                      OsRelease := osReleaseProperties |})
      else noMatch
    else noMatch.

Definition IsPuppy : DistroTest := fun lsbProperties osReleaseProperties =>
  if negb (at_key lsbProperties "DISTRIB_ID" =? "Puppy")%string then noMatch
  else
    ret (true, {| Name := "Puppy Linux"; ID := "puppy";
                  Version := at_key osReleaseProperties "VERSION_ID";
                  LsbRelease := lsbProperties; OsRelease := osReleaseProperties |}).

Definition IsMageia : DistroTest := fun lsbProperties osReleaseProperties =>
  if (at_key osReleaseProperties "ID" =? "mageia")%string then
    ret (true, {| Name := "Mageia"; ID := "mageia";
                  Version := at_key osReleaseProperties "VERSION";
                  LsbRelease := lsbProperties; OsRelease := osReleaseProperties |})
  else noMatch.

Definition IsMint : DistroTest := fun lsbProperties osReleaseProperties =>
  if negb (at_key lsbProperties "DISTRIB_ID" =? "LinuxMint")%string then noMatch
  else
    ret (true, {| Name := "Linux Mint"; ID := "linuxmint";
                  Version := at_key lsbProperties "DISTRIB_RELEASE";
                  LsbRelease := lsbProperties; OsRelease := osReleaseProperties |}).

Definition IsNovellOES : DistroTest := fun lsbProperties osReleaseProperties =>
  '(exists_, contents) <- readFileFunc ["/etc/novell-release"];
  if exists_ && HasPrefix contents "Novell Open Enterprise Server" then
    let version := legacyVersion contents in
    ret (true, {| Name := "Novell Open Enterprise Server"; ID := "oes";
                  Version := version; LsbRelease := lsbProperties;
                  OsRelease := osReleaseProperties |})
  else noMatch.

Definition IsNixOS : DistroTest := fun lsbProperties osReleaseProperties =>
  if (at_key osReleaseProperties "ID" =? "nixos")%string then
    ret (true, {| Name := "NixOS"; ID := "nixos";
                  Version := at_key osReleaseProperties "VERSION_ID";
                  LsbRelease := lsbProperties; OsRelease := osReleaseProperties |})
  else noMatch.

Definition IsRancherOS : DistroTest := fun lsbProperties osReleaseProperties =>
  if (at_key osReleaseProperties "ID" =? "rancheros")%string then
    ret (true, {| Name := "RancherOS"; ID := "rancheros";
                  Version := at_key osReleaseProperties "VERSION_ID";
                  LsbRelease := lsbProperties; OsRelease := osReleaseProperties |})
  else noMatch.

Definition IsRHEL : DistroTest := fun lsbProperties osReleaseProperties =>
  if (at_key osReleaseProperties "ID" =? "rhel")%string
     && nonEmpty (at_key osReleaseProperties "VERSION_ID") then
    ret (true, {| Name := "Red Hat Enterprise Linux"; ID := "rhel";
                  Version := at_key osReleaseProperties "VERSION_ID";
                  LsbRelease := lsbProperties; OsRelease := osReleaseProperties |})
  else
    '(imOracle, distro) <- IsOracleLinux lsbProperties osReleaseProperties;
    if imOracle then ret (imOracle, distro)
    else
      '(exists_, contents) <-
        readFileFunc ["/etc/redhat-release"; "/etc/redhat-version"];
      if exists_ then
        '(matched, version) <-
          lift (parseRedhatReleaseContents contents "Red Hat Enterprise Linux");
        if matched then
          ret (true, {| Name := "Red Hat Enterprise Linux"; ID := "rhel";
                        Version := version; LsbRelease := lsbProperties;
                        OsRelease := osReleaseProperties |})
        else noMatch
      else noMatch.

Definition IsSLES : DistroTest := fun lsbProperties osReleaseProperties =>
  if (at_key osReleaseProperties "ID" =? "sles")%string then
    ret (true, {| Name := "SUSE Linux"; ID := "sles";
                  Version := at_key osReleaseProperties "VERSION_ID";
                  LsbRelease := lsbProperties; OsRelease := osReleaseProperties |})
  else
    '(exists_, contents) <- readFileFunc ["/etc/SuSE-release"; "/etc/sles-release"];
    if exists_ && HasPrefix contents "SUSE Linux" then
      let version := legacyVersion contents in
      ret (true, {| Name := "SUSE Linux"; ID := "sles"; Version := version;
                    LsbRelease := lsbProperties;
                    OsRelease := osReleaseProperties |})
    else noMatch.

Definition IsScientificLinux : DistroTest := fun lsbProperties osReleaseProperties =>
  '(imOracle, distro) <- IsOracleLinux lsbProperties osReleaseProperties;
  if imOracle then ret (imOracle, distro)
  else
    '(exists_, contents) <- readFileFunc ["/etc/sl-release"; "/etc/redhat-release"];
    if exists_ then
      '(matched, version) <-
        lift (parseRedhatReleaseContents contents "Scientific Linux");
      if matched then
        ret (true, {| Name := "Scientific Linux"; ID := "scientific";
                      Version := version; LsbRelease := lsbProperties;
                      OsRelease := osReleaseProperties |})
      else noMatch
    else noMatch.

Definition IsSlackware : DistroTest := fun lsbProperties osReleaseProperties =>
  if (at_key osReleaseProperties "ID" =? "slackware")%string
     && nonEmpty (at_key osReleaseProperties "VERSION_ID") then
    ret (true, {| Name := "Slackware"; ID := "slackware";
                  Version := at_key osReleaseProperties "VERSION_ID";
                  LsbRelease := lsbProperties; OsRelease := osReleaseProperties |})
  else
    '(exists_, contents) <- readFileFunc ["/etc/slackware-version"];
    if exists_ then
      if negb (HasPrefix contents "Slackware") then noMatch
      else
        let version :=
          match SplitN2 (TrimSpace contents) SP with
          | (_, Some second) => second
          | (_, None) => "unknown"
          end in
        ret (true, {| Name := "Slackware"; ID := "slackware"; Version := version;
                      LsbRelease := lsbProperties;
                      OsRelease := osReleaseProperties |})
    else noMatch.

Definition IsSourceMage : DistroTest := fun lsbProperties osReleaseProperties =>
  '(exists_, contents) <- readFileFunc ["/etc/sourcemage-release"];
  if exists_ then
    let version :=
      firstVersionLine sourceMageVersion (rawLines contents EmptyString)
        "unknown" in
    ret (true, {| Name := "Source Mage GNU/Linux"; ID := "sourcemage";
                  Version := version; LsbRelease := lsbProperties;
                  OsRelease := osReleaseProperties |})
  else noMatch.

Definition IsUbuntu : DistroTest := fun lsbProperties osReleaseProperties =>
  if negb (at_key lsbProperties "DISTRIB_ID" =? "Ubuntu")%string then noMatch
  else
    ret (true, {| Name := "Ubuntu"; ID := "ubuntu";
                  Version := at_key lsbProperties "DISTRIB_RELEASE";
                  LsbRelease := lsbProperties; OsRelease := osReleaseProperties |}).

Definition IsYellowDog : DistroTest := fun lsbProperties osReleaseProperties =>
  '(exists_, contents) <- readFileFunc ["/etc/yellowdog-release"];
  if exists_ then
    '(matched, version) <-
      lift (parseRedhatReleaseContents contents "Yellow Dog Linux");
    if matched then
      ret (true, {| Name := "Yellow Dog Linux"; ID := "yellow-dog";
                    Version := version; LsbRelease := lsbProperties;
                    OsRelease := osReleaseProperties |})
    else noMatch
  else noMatch.

(** ** The classifier *)

Definition DistroTests : list DistroTest :=
  [ IsCentOS; IsRHEL; IsUbuntu; IsDebian; IsAmazonLinux; IsFedora; IsOpenSuSE;
    IsSLES; IsOracleLinux; IsPhoton; IsAlpine; IsArchLinux; IsGentoo; IsKali;
    IsScientificLinux; IsSlackware; IsMageia; IsClearLinux; IsMint; IsMXLinux;
    IsNovellOES; IsPuppy; IsRancherOS; IsAlt; IsCrux; IsSourceMage; IsAndroid;
    IsYellowDog; IsBusyBox ].

Definition BestGuess (lsbProperties osReleaseProperties : ReleaseDetails)
    : M LinuxDistro :=
  '_ <- LogWarnf
          "distro is not part of the existing data set - attempting best guess"
          false;
  let id :=
    if nonEmpty (at_key osReleaseProperties "ID") then
      at_key osReleaseProperties "ID"
    else if nonEmpty (at_key lsbProperties "DISTRIB_ID") then
      ToLower (at_key lsbProperties "DISTRIB_ID")
    else "unknown" in
  let name :=
    if nonEmpty (at_key osReleaseProperties "NAME") then
      at_key osReleaseProperties "NAME"
    else if nonEmpty (at_key osReleaseProperties "PRETTY_NAME") then
      let segments := SplitN2 (at_key osReleaseProperties "PRETTY_NAME") SP in
      fst segments
    else if nonEmpty (at_key lsbProperties "DISTRIB_ID") then
      at_key lsbProperties "DISTRIB_ID"
    else if nonEmpty (at_key osReleaseProperties "ID") then
      at_key osReleaseProperties "ID"
    else "Unknown" in
  let version :=
    if nonEmpty (at_key osReleaseProperties "VERSION_ID") then
      at_key osReleaseProperties "VERSION_ID"
    else if nonEmpty (at_key lsbProperties "DISTRIB_RELEASE") then
      at_key lsbProperties "DISTRIB_RELEASE"
    else if nonEmpty (at_key osReleaseProperties "VERSION") then
      let segments := SplitN2 (at_key osReleaseProperties "VERSION") SP in
      fst segments
    else "unknown" in
  ret {| Name := name; ID := id; Version := version;
         LsbRelease := lsbProperties; OsRelease := osReleaseProperties |}.

(** The loop of [discoverDistroFromProperties] over a list of tests, from
    position [i].  Besides [wasDetected] and [detectedDistro] it returns the
    positions of the tests it called, in the order of the calls. *)
Fixpoint runTests (tests : list DistroTest) (i : nat)
    (lsbProperties osReleaseProperties : ReleaseDetails)
    : M (list nat * (bool * LinuxDistro)) :=
  match tests with
  | [] => ret ([], (false, zeroDistro))
  | distroTest :: rest =>
      '(wasDetected, detectedDistro) <- distroTest lsbProperties osReleaseProperties;
      if wasDetected then ret ([i], (wasDetected, detectedDistro))
      else
        '(called, r) <- runTests rest (S i) lsbProperties osReleaseProperties;
        ret (i :: called, r)
  end.

(** [discoverDistroFromProperties] with the list of tests as a parameter
    (the package keeps it in the variable [DistroTests], which its tests
    shuffle). *)
Definition discoverWith (tests : list DistroTest)
    (lsbProperties osReleaseProperties : ReleaseDetails)
    : M (list nat * LinuxDistro) :=
  '(called, (wasDetected, detectedDistro)) <-
    runTests tests 0 lsbProperties osReleaseProperties;
  if negb wasDetected then
    detectedDistro <- BestGuess lsbProperties osReleaseProperties;
    ret (called, detectedDistro)
  else ret (called, detectedDistro).

Definition discoverDistroTraced := discoverWith DistroTests.

Definition discoverDistroFromProperties
    (lsbProperties osReleaseProperties : ReleaseDetails) : M LinuxDistro :=
  '(_, detectedDistro) <- discoverDistroTraced lsbProperties osReleaseProperties;
  ret detectedDistro.

(** [readReleaseFile]: the properties of a release file, with the flag of
    its error result.  A reader that fails delivers its bytes to the scanner
    first, whose last token is what precedes the failure. *)
Definition readReleaseFile (filePath : string) : M (ReleaseDetails * bool) :=
  opened <- readBinaryFileFunc [filePath];
  match opened with
  | inr pathRead =>
      '_ <- (if nonEmpty pathRead then
               logLine SevWarn "unable to read release file at the path: %s"
             else ret tt);
      ret (∅, true)
  | inl (reader, _) =>
      let '(properties, parseErr) := parseOSRelease (pending reader) in
      ret (properties, parseErr || failing reader)
  end.

Definition DiscoverDistro : M LinuxDistro :=
  '(lsbProperties, _) <- readReleaseFile "/etc/lsb-release";
  '(osReleaseProperties, _) <- readReleaseFile "/etc/os-release";
  discoverDistroFromProperties lsbProperties osReleaseProperties.

(** ** Compatibility queries *)

Definition redhatCompatibleIds : list string :=
  ["centos"; "fedora"; "ol"; "rhel"; "scientific"].
Definition rhelCompatibleIds : list string :=
  ["centos"; "ol"; "rhel"; "scientific"].

(** [strings.Split] with a separator of one byte: the texts between the
    separators, one more than there are separators.  [cur] holds the
    current piece, reversed. *)
Fixpoint splitOn (sep : ascii) (s cur : string) : list string :=
  match s with
  | EmptyString => [srev cur]
  | String c s' =>
      if Ascii.eqb c sep then srev cur :: splitOn sep s' EmptyString
      else splitOn sep s' (String c cur)
  end.

Definition Split (s : string) (sep : ascii) : list string :=
  splitOn sep s EmptyString.

Definition IsRedhatCompatible (l : LinuxDistro) : bool :=
  if existsb (fun id => (ID l =? id)%string) redhatCompatibleIds then true
  else if (0 <? String.length (at_key (OsRelease l) "ID_LIKE"))%nat
          && existsb (fun id => (id =? "rhel")%string || (id =? "fedora")%string)
                     (Split (at_key (OsRelease l) "ID_LIKE") SP)
  then true
  else false.

Definition IsRHELCompatible (l : LinuxDistro) : bool :=
  if existsb (fun id => (ID l =? id)%string) rhelCompatibleIds then true
  else if (0 <? String.length (at_key (OsRelease l) "ID_LIKE"))%nat
          && existsb (fun id => (id =? "rhel")%string)
                     (Split (at_key (OsRelease l) "ID_LIKE") SP)
  then true
  else false.

Definition UsesRPM (l : LinuxDistro) : bool :=
  if IsRedhatCompatible l then true
  else if (ID l =? "opensuse")%string || (ID l =? "sles")%string then true
  else false.

(** * The vocabulary of the properties *)

(** ** Outcomes and effects *)

(** The value an outcome returns, if it returns. *)
Definition returned {A} (o : Outcome A) : option A :=
  match o with
  | Returned a _ => Some a
  | Panicked _ => None
  end.

(** Two outcomes agree when they return the same value or raise the same
    panic; the worlds they end in may differ in what was logged. *)
Definition agree {A} (o1 o2 : Outcome A) : Prop :=
  match o1, o2 with
  | Returned a1 _, Returned a2 _ => a1 = a2
  | Panicked p1, Panicked p2 => p1 = p2
  | _, _ => False
  end.

Definition keeps_files {A} (w : World) (o : Outcome A) : Prop :=
  match o with
  | Returned _ w' => files w' = files w
  | Panicked _ => True
  end.

(** [reads_only m]: what [m] returns depends on the files alone, and [m]
    leaves the files as they are. *)
Definition reads_only {A} (m : M A) : Prop :=
  forall w1 w2, files w1 = files w2 ->
    agree (m w1) (m w2) /\ keeps_files w1 (m w1).

(** A path resolves when it names a regular file that can be read to its
    end. *)
Definition resolves (w : World) (path : string) : Prop :=
  exists data, files w !! path = Some (Regular data false).

(** ** Tests and their records *)

(** A test refuses when it returns without a match, and accepts with the
    record it returns with a match. *)
Definition refuses (lsb os : ReleaseDetails) (t : DistroTest) (w : World) : Prop :=
  fst <$> returned (t lsb os w) = Some false.

Definition accepts (lsb os : ReleaseDetails) (t : DistroTest) (w : World)
    (d : LinuxDistro) : Prop :=
  returned (t lsb os w) = Some (true, d).

(** A test that reports a match returns a record with a name and an
    identifier, holding the two maps it was given. *)
Definition fills (t : DistroTest) : Prop :=
  forall lsb os w d w',
    t lsb os w = Returned (true, d) w' ->
    Name d <> EmptyString /\ ID d <> EmptyString
    /\ LsbRelease d = lsb /\ OsRelease d = os.

(** The tests whose fast path compares [ID] alone, with the literal. *)
Definition singleFieldTests : list (string * DistroTest) :=
  [ ("alpine", IsAlpine); ("altlinux", IsAlt); ("amzn", IsAmazonLinux);
    ("arch", IsArchLinux); ("clear-linux-os", IsClearLinux);
    ("fedora", IsFedora); ("kali", IsKali); ("opensuse", IsOpenSuSE);
    ("mageia", IsMageia); ("nixos", IsNixOS); ("rancheros", IsRancherOS);
    ("sles", IsSLES) ].

(** The tests that read the shared Red Hat release text. *)
Definition redHatFamilyTests : list DistroTest :=
  [IsCentOS; IsRHEL; IsFedora; IsScientificLinux].

(** The record of an Oracle Linux match. *)
Definition isOracleRecord (d : LinuxDistro) : Prop :=
  ID d = "ol" /\ Name d = "Oracle Linux".

(** The os-release map names Fedora or RHEL by itself. *)
Definition osNamesRedHat (os : ReleaseDetails) : Prop :=
  at_key os "ID" = "fedora"
  \/ (at_key os "ID" = "rhel" /\ at_key os "VERSION_ID" <> EmptyString).

(** ** Texts *)

(** Every byte of [s] satisfies [p]. *)
Fixpoint allBytes (p : ascii -> bool) (s : string) : bool :=
  match s with
  | EmptyString => true
  | String c s' => p c && allBytes p s'
  end.

(** [t] is empty or starts with a byte outside [p]. *)
Definition stopsAt (p : ascii -> bool) (t : string) : Prop :=
  match t with
  | EmptyString => True
  | String c _ => p c = false
  end.

(** The bytes of a key: no whitespace and no equals sign. *)
Definition notEq (c : ascii) (b : ascii) : bool := negb (Ascii.eqb c b).
Definition keyByte (c : ascii) : bool := cls_S c && notEq "="%char c.

(** The text after the equals sign of a key holds a place where the key
    could end as well: non-whitespace bytes, whitespace, one more equals
    sign, whitespace and the first byte of a value. *)
Definition laterSeparator (rest : string) : Prop :=
  exists x w1 w2 c v,
    rest = x ++ w1 ++ "=" ++ w2 ++ String c v
    /\ allBytes cls_S x = true /\ allBytes cls_s w1 = true
    /\ allBytes cls_s w2 = true /\ cls_S_or_blank c = true.

(** The same, as a test that can be run: whether a value starts after
    whitespace, whether a separator and a value start after whitespace, and
    whether they do after some non-whitespace bytes. *)
Fixpoint valueStarts (t : string) : bool :=
  match t with
  | EmptyString => false
  | String c t' => cls_S_or_blank c || (cls_s c && valueStarts t')
  end.

Fixpoint separatorStarts (t : string) : bool :=
  match t with
  | EmptyString => false
  | String c t' =>
      (Ascii.eqb c "="%char && valueStarts t') || (cls_s c && separatorStarts t')
  end.

Fixpoint laterSeparatorb (rest : string) : bool :=
  separatorStarts rest
  || match rest with
     | EmptyString => false
     | String c rest' => cls_S c && laterSeparatorb rest'
     end.

(** The first and the last byte of a text. *)
Definition firstByte (s : string) : option ascii := String.get 0 s.
Definition lastByte (s : string) : option ascii := String.get 0 (srev s).

(** [strings.Contains]. *)
Fixpoint Contains (s sub : string) : bool :=
  String.prefix sub s
  || match s with
     | EmptyString => false
     | String _ s' => Contains s' sub
     end.

(** The first non-empty candidate, [default] when there is none. *)
Fixpoint firstNonEmpty (candidates : list string) (default : string) : string :=
  match candidates with
  | [] => default
  | c :: rest => if nonEmpty c then c else firstNonEmpty rest default
  end.

(** What [BestGuess] takes from PRETTY_NAME: the text before its first
    space character. *)
Definition beforeFirstSpace (s : string) : string := fst (SplitN2 s SP).

Definition fallbackName (lsb os : ReleaseDetails) : string :=
  firstNonEmpty
    [at_key os "NAME"; beforeFirstSpace (at_key os "PRETTY_NAME");
     at_key lsb "DISTRIB_ID"; at_key os "ID"]
    "Unknown".

(** ** The specification's words, where the code departs from them *)

(** The first whitespace-delimited token of a text: what is left of it
    after the leading whitespace, up to the next whitespace. *)
Fixpoint upToSpace (s : string) : string :=
  match s with
  | EmptyString => EmptyString
  | String c s' => if asciiSpace c then EmptyString else String c (upToSpace s')
  end.

Definition spec_firstToken (s : string) : string := upToSpace (trimLeftSpace s).

(** The name of the fallback as the specification words it. *)
Definition spec_fallbackName (lsb os : ReleaseDetails) : string :=
  firstNonEmpty
    [at_key os "NAME"; spec_firstToken (at_key os "PRETTY_NAME");
     at_key lsb "DISTRIB_ID"; at_key os "ID"]
    "Unknown".

(** One matching pair of surrounding double quotes is removed, and nothing
    else. *)
Definition spec_unquoteOnce (s : string) : string :=
  match s with
  | String c rest =>
      if Ascii.eqb c DQUOTE then
        match srev rest with
        | String c' inner => if Ascii.eqb c' DQUOTE then srev inner else s
        | EmptyString => s
        end
      else s
  | EmptyString => s
  end.

(** The value of a line as the specification words it: trailing whitespace
    trimmed, then one pair of quotes removed. *)
Definition spec_value (v : string) : string :=
  spec_unquoteOnce (trimRightSpace v).

(** ** Reasoning on the matcher *)

(** A greedy star over a class, as a recursion on the input: the longest
    run is tried first, then shorter ones. *)
Fixpoint greedy {R : Type} (p : ascii -> bool) (k : Cont R) (acc s : string)
    (caps : Caps) : option R :=
  match s with
  | EmptyString => k acc EmptyString caps
  | String c s' =>
      if p c then
        match greedy p k (acc ++ str c) s' caps with
        | Some x => Some x
        | None => k acc s caps
        end
      else k acc s caps
  end.

(** [o] is a result that satisfies [P]. *)
Definition yields {R} (o : option R) (P : R -> Prop) : Prop :=
  exists x, o = Some x /\ P x.

(** ** Machines and maps used as examples *)

Definition emptyWorld : World := mkWorld ∅ [].

(** An Ubuntu machine described by its LSB map alone. *)
Definition lsbUbuntu : ReleaseDetails :=
  {[ "DISTRIB_ID" := "Ubuntu"; "DISTRIB_RELEASE" := "5.10";
     "DISTRIB_CODENAME" := "breezy" ]}.

(** os-release maps with an ID and no VERSION_ID. *)
Definition osOracleNoVersion : ReleaseDetails := {[ "ID" := "ol" ]}.
Definition osAlpineNoVersion : ReleaseDetails := {[ "ID" := "alpine" ]}.
Definition osAmazonNoVersion : ReleaseDetails := {[ "ID" := "amzn" ]}.

(** os-release maps that no test recognises. *)
Definition osExotic : ReleaseDetails := {[ "ID" := "exotic-os" ]}.
Definition osPrettyLeadingSpace : ReleaseDetails := {[ "PRETTY_NAME" := " x" ]}.
Definition osPrettyTab : ReleaseDetails :=
  {[ "PRETTY_NAME" := "Foo" ++ str TAB ++ "Bar" ]}.

(** A machine with both release files, as Oracle Linux installs them. *)
Definition oracleWorld : World :=
  mkWorld {[ "/etc/redhat-release" :=
               Regular "Red Hat Enterprise Linux Server release 7.6 (Maipo)" false;
             "/etc/oracle-release" :=
               Regular "Oracle Linux Server release 7.6" false ]} [].

(** A machine whose /etc/oracle-release is an empty file, and one whose
    /etc/redhat-release holds a single word. *)
Definition emptyOracleRelease : World :=
  mkWorld {[ "/etc/oracle-release" := Regular EmptyString false ]} [].

Definition oneWordRedhatRelease : World :=
  mkWorld {[ "/etc/redhat-release" := Regular "CentOS" false ]} [].

(** A machine whose /etc/os-release is the one line PRETTY_NAME=" x", the
    value in quotes. *)
Definition prettyNameOnly : World :=
  mkWorld {[ "/etc/os-release" :=
               Regular ("PRETTY_NAME=" ++ String DQUOTE (" x" ++ str DQUOTE))
                       false ]} [].

(** A machine with /bin/true and no other file. *)
Definition binTrue (data : string) : World :=
  mkWorld {[ "/bin/true" := Regular data false ]} [].

(** /bin/true holding the banner at its start, ended by a newline; and a
    file in which the signature never occurs. *)
Definition bannerAtStart : string := "BusyBox v1.32.0" ++ str LF.
Definition noSignature : string := "BusyBo!-------x v1.32.0" ++ str LF.

(** A value in two pairs of quotes, and a value with an opening quote only. *)
Definition doublyQuoted : string :=
  String DQUOTE (String DQUOTE ("v" ++ String DQUOTE (str DQUOTE))).
Definition unmatchedQuote : string := String DQUOTE "v".

(** ** Further vocabulary *)

(** What a successful match hands to its continuation: a split of the
    input and captures of the same number. *)
Definition passes {R} (k : Cont R) (s : string) (caps : Caps) (x : R) : Prop :=
  exists w s' caps', s = w ++ s' /\ length caps' = length caps
                     /\ k w s' caps' = Some x.

(** [t] is empty or ends with a newline: what follows it starts a line. *)
Definition endsLine (t : string) : Prop :=
  t = EmptyString \/ lastByte t = Some LF.

(** A candidate that [readBinaryFileFunc] passes over: it does not exist or
    is a directory. *)
Definition skipped (w : World) (p : string) : Prop :=
  files w !! p = None \/ files w !! p = Some Directory.

(** A candidate that stops the search without contents: it cannot be
    opened, or its read fails. *)
Definition unreadable (w : World) (p : string) : Prop :=
  files w !! p = Some OpenFails \/ exists data, files w !! p = Some (Regular data true).

(** A test that reports a match returns a record with one of the given
    identifier and name pairs and the two maps it was given; a test that
    reports no match returns the zero record. *)
Definition answers (t : DistroTest) (ids : list (string * string)) : Prop :=
  forall lsb os w b d w',
    t lsb os w = Returned (b, d) w' ->
    if b then (ID d, Name d) ∈ ids /\ LsbRelease d = lsb /\ OsRelease d = os
    else d = zeroDistro.

(** The identifier and name of the records of [IsOracleLinux] and
    [IsMXLinux]. *)
Definition oracleId : string * string := ("ol", "Oracle Linux").
Definition mxId : string * string := ("mx", "MX Linux").

(** The tests with the identifiers and names of the records they return. *)
Definition identities : list (DistroTest * list (string * string)) :=
  [ (IsCentOS, [("centos", "CentOS Linux"); oracleId]);
    (IsRHEL, [("rhel", "Red Hat Enterprise Linux"); oracleId]);
    (IsUbuntu, [("ubuntu", "Ubuntu")]);
    (IsDebian, [("debian", "Debian GNU/Linux"); mxId]);
    (IsAmazonLinux, [("amzn", "Amazon Linux")]);
    (IsFedora, [("fedora", "Fedora"); oracleId]);
    (IsOpenSuSE, [("opensuse", "openSUSE")]);
    (IsSLES, [("sles", "SUSE Linux")]);
    (IsOracleLinux, [oracleId]);
    (IsPhoton, [("photon", "VMware Photon")]);
    (IsAlpine, [("alpine", "Alpine Linux")]);
    (IsArchLinux, [("arch", "Arch Linux")]);
    (IsGentoo, [("gentoo", "Gentoo")]);
    (IsKali, [("kali", "Kali GNU/Linux")]);
    (IsScientificLinux, [("scientific", "Scientific Linux"); oracleId]);
    (IsSlackware, [("slackware", "Slackware")]);
    (IsMageia, [("mageia", "Mageia")]);
    (IsClearLinux, [("clear-linux-os", "Clear Linux OS")]);
    (IsMint, [("linuxmint", "Linux Mint")]);
    (IsMXLinux, [mxId]);
    (IsNovellOES, [("oes", "Novell Open Enterprise Server")]);
    (IsPuppy, [("puppy", "Puppy Linux")]);
    (IsRancherOS, [("rancheros", "RancherOS")]);
    (IsAlt, [("altlinux", "ALT Starterkit")]);
    (IsCrux, [("crux", "CRUX")]);
    (IsSourceMage, [("sourcemage", "Source Mage GNU/Linux")]);
    (IsAndroid, [("android", "Android")]);
    (IsYellowDog, [("yellow-dog", "Yellow Dog Linux")]);
    (IsBusyBox, [("busybox", "BusyBox")]);
    (IsNixOS, [("nixos", "NixOS")]) ].

(** The files in the format of /etc/redhat-release that the tests read. *)
Definition releaseFiles : list string :=
  [ "/etc/oracle-release"; "/etc/centos-release"; "/etc/redhat-release";
    "/etc/redhat-version"; "/etc/sl-release"; "/etc/photon-release";
    "/etc/gentoo-release"; "/etc/yellowdog-release" ].

(** Every release file that resolves holds text that the release
    expression matches. *)
Definition releaseFilesMatch (F : gmap string FileNode) : Prop :=
  forall p data, p ∈ releaseFiles -> F !! p = Some (Regular data false) ->
    FindStringSubmatch releaseSplitter data <> None.

(** [m] returns, and leaves the files as they are, from every world whose
    files are [F]. *)
Definition returns_in (F : gmap string FileNode) {A} (m : M A) : Prop :=
  forall w, files w = F -> exists a w', m w = Returned a w' /\ files w' = F.

(** [t] is one of the words of [s]: it holds no separator, and in [s] it is
    preceded by a separator or by nothing, and followed likewise. *)
Definition token (sep : ascii) (t s : string) : Prop :=
  allBytes (notEq sep) t = true
  /\ exists pre post, s = pre ++ t ++ post
     /\ (pre = EmptyString \/ lastByte pre = Some sep)
     /\ (post = EmptyString \/ firstByte post = Some sep).

(** The tests of the RHEL family and of the distributions that use RPM. *)
Definition rhelFamilyTests : list DistroTest :=
  [IsCentOS; IsRHEL; IsOracleLinux; IsScientificLinux].

Definition rpmFamilyTests : list DistroTest :=
  rhelFamilyTests ++ [IsFedora; IsOpenSuSE; IsSLES].

(** The properties that a machine's release file gives: those of the lines
    read, none when the file cannot be opened. *)
Definition releaseProperties (w : World) (filePath : string) : ReleaseDetails :=
  match files w !! filePath with
  | Some (Regular data _) => fst (parseOSRelease data)
  | _ => ∅
  end.

(** * Properties *)

(** ** Effects: the code only reads the files *)

Lemma reads_only_ret {A} (a : A) : reads_only (ret a).
Proof. intros w1 w2 _. split; reflexivity. Qed.

Lemma reads_only_lift {A} (c : Checked A) : reads_only (lift c).
Proof. intros w1 w2 _. destruct c; split; reflexivity. Qed.

Lemma reads_only_bind {A B} (m : M A) (f : A -> M B) :
  reads_only m -> (forall a, reads_only (f a)) -> reads_only (bind m f).
Proof.
  intros Hm Hf w1 w2 Hw. unfold bind.
  destruct (Hm w1 w2 Hw) as [Hag Hk1].
  destruct (Hm w2 w1 (eq_sym Hw)) as [_ Hk2].
  destruct (m w1) as [p1|a1 w1'], (m w2) as [p2|a2 w2']; simpl in *; try done.
  subst a2.
  assert (Hw' : files w1' = files w2') by congruence.
  destruct (Hf a1 w1' w2' Hw') as [Hag' Hk'].
  split; [exact Hag'|].
  destruct (f a1 w1'); simpl in *; congruence.
Qed.

Lemma reads_only_stat path : reads_only (stat path).
Proof. intros w1 w2 Hw. unfold stat; simpl. by rewrite Hw. Qed.

Lemma reads_only_logLine sev fmt : reads_only (logLine sev fmt).
Proof. intros w1 w2 _. split; reflexivity. Qed.

Lemma reads_only_LogErrorf fmt b : reads_only (LogErrorf fmt b).
Proof. apply reads_only_logLine. Qed.

Lemma reads_only_LogWarnf fmt b : reads_only (LogWarnf fmt b).
Proof. apply reads_only_logLine. Qed.

Ltac reads_only_step :=
  first
    [ apply reads_only_ret
    | apply reads_only_lift
    | apply reads_only_stat
    | apply reads_only_LogErrorf
    | apply reads_only_LogWarnf
    | assumption
    | apply reads_only_bind; [|intros]
    | match goal with
      | |- reads_only (if ?b then _ else _) => destruct b
      | |- reads_only (match ?x with _ => _ end) => destruct x
      | |- reads_only (let '(_, _) := ?x in _) => destruct x
      end ].

Ltac reads_only_auto := unfold noMatch; repeat reads_only_step.

Lemma reads_only_readBinaryFileFunc filePaths :
  reads_only (readBinaryFileFunc filePaths).
Proof. induction filePaths as [|p ps IH]; simpl; reads_only_auto. Qed.

Lemma reads_only_readFileFunc filePaths : reads_only (readFileFunc filePaths).
Proof.
  unfold readFileFunc.
  apply reads_only_bind; [apply reads_only_readBinaryFileFunc|intros].
  reads_only_auto.
Qed.

Ltac reads_only_test :=
  intros; unfold noMatch;
  repeat first
    [ apply reads_only_readFileFunc
    | apply reads_only_readBinaryFileFunc
    | reads_only_step ].

Lemma reads_only_IsOracleLinux lsb os : reads_only (IsOracleLinux lsb os).
Proof. unfold IsOracleLinux. reads_only_test. Qed.

Lemma reads_only_IsMXLinux lsb os : reads_only (IsMXLinux lsb os).
Proof. unfold IsMXLinux. reads_only_test. Qed.

Lemma reads_only_DistroTests :
  Forall (fun t : DistroTest => forall lsb os, reads_only (t lsb os)) DistroTests.
Proof.
  unfold DistroTests.
  repeat (apply List.Forall_cons; [|]); try apply List.Forall_nil;
    intros lsb os;
    pose proof (reads_only_IsOracleLinux lsb os);
    pose proof (reads_only_IsMXLinux lsb os).
  all: unfold IsCentOS, IsRHEL, IsUbuntu, IsDebian, IsAmazonLinux, IsFedora,
         IsOpenSuSE, IsSLES, IsPhoton, IsAlpine, IsArchLinux, IsGentoo, IsKali,
         IsScientificLinux, IsSlackware, IsMageia, IsClearLinux, IsMint,
         IsNovellOES, IsPuppy, IsRancherOS, IsAlt, IsCrux, IsSourceMage,
         IsAndroid, IsYellowDog, IsBusyBox.
  all: reads_only_test.
Qed.

Lemma reads_only_BestGuess lsb os : reads_only (BestGuess lsb os).
Proof. unfold BestGuess. reads_only_test. Qed.

Lemma reads_only_runTests tests :
  Forall (fun t : DistroTest => forall lsb os, reads_only (t lsb os)) tests ->
  forall i lsb os, reads_only (runTests tests i lsb os).
Proof.
  induction 1 as [|t ts Ht Hts IH]; intros i lsb os; simpl.
  - apply reads_only_ret.
  - apply reads_only_bind; [apply Ht|]. intros [b d].
    destruct b; [apply reads_only_ret|].
    apply reads_only_bind; [apply IH|]. intros [called r]. apply reads_only_ret.
Qed.

Lemma reads_only_discoverWith tests lsb os :
  Forall (fun t : DistroTest => forall lsb os, reads_only (t lsb os)) tests ->
  reads_only (discoverWith tests lsb os).
Proof.
  intros Hts. unfold discoverWith.
  apply reads_only_bind; [by apply reads_only_runTests|].
  intros [called [b d]]. destruct b; simpl.
  - apply reads_only_ret.
  - apply reads_only_bind; [apply reads_only_BestGuess|].
    intros; apply reads_only_ret.
Qed.

Lemma reads_only_discoverDistroFromProperties lsb os :
  reads_only (discoverDistroFromProperties lsb os).
Proof.
  unfold discoverDistroFromProperties, discoverDistroTraced.
  apply reads_only_bind.
  - apply reads_only_discoverWith, reads_only_DistroTests.
  - intros [called d]. apply reads_only_ret.
Qed.

(** ** What a matching detector returns *)

Ltac fills_auto :=
  intros lsb os w d w' Hrun;
  unfold bind, ret, noMatch, lift in Hrun;
  repeat (case_match; simplify_eq);
  simpl; try done; eauto.

Lemma fills_IsOracleLinux : fills IsOracleLinux.
Proof. unfold IsOracleLinux. fills_auto. Qed.

Lemma fills_IsMXLinux : fills IsMXLinux.
Proof. unfold IsMXLinux. fills_auto. Qed.

Lemma fills_DistroTests : Forall fills DistroTests.
Proof.
  pose proof fills_IsOracleLinux as HO. pose proof fills_IsMXLinux as HM.
  unfold DistroTests.
  repeat (apply List.Forall_cons; [|]); try apply List.Forall_nil;
    try assumption.
  all: unfold IsCentOS, IsRHEL, IsUbuntu, IsDebian, IsAmazonLinux, IsFedora,
         IsOpenSuSE, IsSLES, IsPhoton, IsAlpine, IsArchLinux, IsGentoo, IsKali,
         IsScientificLinux, IsSlackware, IsMageia, IsClearLinux, IsMint,
         IsNovellOES, IsPuppy, IsRancherOS, IsAlt, IsCrux, IsSourceMage,
         IsAndroid, IsYellowDog, IsBusyBox.
  all: fills_auto.
Qed.

(** ** The scan of the classifier *)

Lemma reads_only_returned {A} (m : M A) w0 w :
  reads_only m -> files w0 = files w -> returned (m w0) = returned (m w).
Proof.
  intros Hm Hw. destruct (Hm w0 w Hw) as [Hag _].
  destruct (m w0), (m w); simpl in *; try done; congruence.
Qed.

Lemma reads_only_files {A} (m : M A) w a w' :
  reads_only m -> m w = Returned a w' -> files w' = files w.
Proof.
  intros Hm Hrun. destruct (Hm w w eq_refl) as [_ Hk].
  by rewrite Hrun in Hk.
Qed.

Lemma returned_Some {A} (o : Outcome A) a :
  returned o = Some a -> exists w', o = Returned a w'.
Proof. destruct o; simpl; intros; simplify_eq; eauto. Qed.

Section RunTests.
Variables lsb os : ReleaseDetails.

Lemma refuses_run t w :
  refuses lsb os t w -> exists r w', t lsb os w = Returned (false, r) w'.
Proof.
  unfold refuses. destruct (t lsb os w) as [p|[b r] w'] eqn:E; simpl; [done|].
  intros; simplify_eq. eauto.
Qed.

Lemma runTests_all_refuse tests :
  Forall (fun t : DistroTest => forall lsb os, reads_only (t lsb os)) tests ->
  forall i w0 w, files w0 = files w ->
    (forall j t, tests !! j = Some t -> refuses lsb os t w0) ->
    exists r w', runTests tests i lsb os w
                 = Returned (seq i (length tests), (false, r)) w'
                 /\ files w' = files w.
Proof.
  induction 1 as [|t ts Ht Hts IH]; intros i w0 w Hw Hall; simpl.
  - eexists _, _. split; reflexivity.
  - assert (Hr : refuses lsb os t w).
    { unfold refuses. rewrite <- (reads_only_returned _ w0 w (Ht lsb os) Hw).
      apply (Hall 0 t eq_refl). }
    destruct (refuses_run _ _ Hr) as (r & w1 & E1).
    pose proof (reads_only_files _ _ _ _ (Ht lsb os) E1) as Hw1.
    destruct (IH (S i) w0 w1) as (r' & w' & E' & Hw').
    { congruence. }
    { intros j t' Hj. apply (Hall (S j) t' Hj). }
    unfold bind. rewrite E1. simpl. rewrite E'. simpl.
    exists r', w'. split; [reflexivity|congruence].
Qed.

Lemma runTests_first_match tests :
  Forall (fun t : DistroTest => forall lsb os, reads_only (t lsb os)) tests ->
  forall k i w0 w t d, files w0 = files w ->
    tests !! k = Some t ->
    (forall j t', j < k -> tests !! j = Some t' -> refuses lsb os t' w0) ->
    accepts lsb os t w0 d ->
    exists w', runTests tests i lsb os w
               = Returned (seq i (S k), (true, d)) w'
               /\ files w' = files w.
Proof.
  induction 1 as [|t0 ts Ht Hts IH]; intros k i w0 w t d Hw Hk Hbefore Hacc.
  - done.
  - destruct k as [|k]; simpl in Hk.
    + simplify_eq.
      unfold accepts in Hacc.
      rewrite (reads_only_returned _ w0 w (Ht lsb os) Hw) in Hacc.
      destruct (returned_Some _ _ Hacc) as [w' E].
      exists w'. simpl. unfold bind. rewrite E. simpl.
      split; [reflexivity|]. by eapply reads_only_files; [apply Ht|].
    + assert (Hr : refuses lsb os t0 w).
      { unfold refuses.
        rewrite <- (reads_only_returned _ w0 w (Ht lsb os) Hw).
        apply (Hbefore 0 t0); [lia|done]. }
      destruct (refuses_run _ _ Hr) as (r & w1 & E1).
      pose proof (reads_only_files _ _ _ _ (Ht lsb os) E1) as Hw1.
      destruct (IH k (S i) w0 w1 t d) as (w' & E' & Hw'); try done.
      { congruence. }
      { intros j t' Hj Hl. apply (Hbefore (S j) t'); [lia|done]. }
      exists w'. simpl. unfold bind. rewrite E1. simpl. rewrite E'. simpl.
      split; [reflexivity|congruence].
Qed.
End RunTests.

Lemma discoverWith_first_match tests lsb os w k t d :
  Forall (fun t : DistroTest => forall lsb os, reads_only (t lsb os)) tests ->
  tests !! k = Some t ->
  (forall j t', j < k -> tests !! j = Some t' -> refuses lsb os t' w) ->
  accepts lsb os t w d ->
  returned (discoverWith tests lsb os w) = Some (seq 0 (S k), d).
Proof.
  intros Hro Hk Hbefore Hacc.
  destruct (runTests_first_match lsb os tests Hro k 0 w w t d)
    as (w' & E & _); try done.
  unfold discoverWith, bind. rewrite E. reflexivity.
Qed.

Lemma discoverWith_fallback tests lsb os w :
  Forall (fun t : DistroTest => forall lsb os, reads_only (t lsb os)) tests ->
  (forall j t, tests !! j = Some t -> refuses lsb os t w) ->
  exists g, returned (BestGuess lsb os w) = Some g
    /\ returned (discoverWith tests lsb os w) = Some (seq 0 (length tests), g).
Proof.
  intros Hro Hall.
  destruct (runTests_all_refuse lsb os tests Hro 0 w w)
    as (r & w' & E & Hw'); try done.
  unfold discoverWith, bind. rewrite E. cbn -[BestGuess seq length].
  rewrite <- (reads_only_returned _ w' w (reads_only_BestGuess lsb os) Hw').
  destruct (BestGuess lsb os w') as [p|g w2] eqn:EB.
  - exfalso. unfold BestGuess, bind, LogWarnf, logLine, ret in EB. done.
  - exists g. split; reflexivity.
Qed.

Lemma returned_discoverDistroFromProperties lsb os w called d :
  returned (discoverDistroTraced lsb os w) = Some (called, d) ->
  returned (discoverDistroFromProperties lsb os w) = Some d.
Proof.
  intros H. destruct (returned_Some _ _ H) as [w' E].
  unfold discoverDistroFromProperties, bind. by rewrite E.
Qed.

(** C2.  The classifier returns the record of the first test of
    [DistroTests] (IsCentOS first, IsBusyBox last) that reports a match: when
    the tests before position [k] refuse and the test at [k] accepts with
    record [d], the loop has called exactly the positions 0 to [k], each
    once and in order, none after [k], and the result is [d]; when every
    test refuses, the loop has called each position once and the result is
    the record of [BestGuess]. *)
Theorem first_match_wins (lsb os : ReleaseDetails) (w : World) :
  head DistroTests = Some IsCentOS /\ last DistroTests = Some IsBusyBox /\
  (forall k t d, DistroTests !! k = Some t ->
     (forall j t', j < k -> DistroTests !! j = Some t' -> refuses lsb os t' w) ->
     accepts lsb os t w d ->
     returned (discoverDistroTraced lsb os w) = Some (seq 0 (S k), d)
     /\ returned (discoverDistroFromProperties lsb os w) = Some d) /\
  ((forall j t, DistroTests !! j = Some t -> refuses lsb os t w) ->
     exists g, returned (BestGuess lsb os w) = Some g
       /\ returned (discoverDistroTraced lsb os w)
          = Some (seq 0 (length DistroTests), g)
       /\ returned (discoverDistroFromProperties lsb os w) = Some g).
Proof.
  split; [reflexivity|]. split; [reflexivity|]. split.
  - intros k t d Hk Hbefore Hacc.
    pose proof (discoverWith_first_match DistroTests lsb os w k t d
                  reads_only_DistroTests Hk Hbefore Hacc) as H.
    split; [exact H|]. by eapply returned_discoverDistroFromProperties.
  - intros Hall.
    destruct (discoverWith_fallback DistroTests lsb os w
                reads_only_DistroTests Hall) as (g & Hg & H).
    exists g. split; [exact Hg|]. split; [exact H|].
    by eapply returned_discoverDistroFromProperties.
Qed.

Lemma first_match_wins_witness :
  returned (discoverDistroTraced lsbUbuntu ∅ emptyWorld)
  = Some ([0; 1; 2],
          {| Name := "Ubuntu"; ID := "ubuntu"; Version := "5.10";
             LsbRelease := lsbUbuntu; OsRelease := ∅ |}).
Proof.
  refine (proj1 (proj1 (proj2 (proj2 (first_match_wins lsbUbuntu ∅ emptyWorld)))
                   2 IsUbuntu _ eq_refl _ _)).
  - intros j t' Hj Hl. destruct j as [|[|j]]; [| |lia];
      injection Hl as <-; vm_compute; reflexivity.
  - vm_compute. reflexivity.
Defined.

(** ** The maps of a record *)

Lemma runTests_fills tests :
  Forall fills tests ->
  forall i lsb os w called d w',
    runTests tests i lsb os w = Returned (called, (true, d)) w' ->
    Name d <> EmptyString /\ ID d <> EmptyString
    /\ LsbRelease d = lsb /\ OsRelease d = os.
Proof.
  induction 1 as [|t ts Ht Hts IH]; intros i lsb os w called d w' Hrun.
  - simpl in Hrun. unfold ret in Hrun. simplify_eq.
  - simpl in Hrun. unfold bind in Hrun.
    destruct (t lsb os w) as [p|[b d0] w1] eqn:E; [done|].
    destruct b.
    + unfold ret in Hrun. simplify_eq. by eapply Ht.
    + destruct (runTests ts (S i) lsb os w1) as [p|[c [b' d']] w2] eqn:E2;
        [done|].
      unfold ret in Hrun. simplify_eq. by eapply IH.
Qed.

Lemma BestGuess_maps lsb os w d w' :
  BestGuess lsb os w = Returned d w' ->
  LsbRelease d = lsb /\ OsRelease d = os.
Proof.
  unfold BestGuess, bind, LogWarnf, logLine, ret. intros H.
  injection H as <- _. split; reflexivity.
Qed.

Lemma discoverDistroFromProperties_maps lsb os w d w' :
  discoverDistroFromProperties lsb os w = Returned d w' ->
  LsbRelease d = lsb /\ OsRelease d = os.
Proof.
  unfold discoverDistroFromProperties, discoverDistroTraced, discoverWith.
  unfold bind at 1 2. intros Hrun.
  destruct (runTests DistroTests 0 lsb os w) as [p|[c [b d0]] w1] eqn:E;
    [done|].
  destruct b; cbn -[BestGuess] in Hrun.
  - unfold ret in Hrun. simplify_eq.
    by eapply runTests_fills; [apply fills_DistroTests|].
  - unfold bind in Hrun.
    destruct (BestGuess lsb os w1) as [p|g w2] eqn:EB; [done|].
    unfold ret in Hrun. simplify_eq. by eapply BestGuess_maps.
Qed.

(** ** Marker files that do not resolve *)

Lemma readBinaryFileFunc_cons p ps w :
  readBinaryFileFunc (p :: ps) w
  = match files w !! p with
    | None | Some Directory => readBinaryFileFunc ps w
    | Some OpenFails =>
        Returned (inr p)
          (mkWorld (files w)
             (logged w ++ [mkLogLine SevError "unable to open file (%s): %v"]))
    | Some (Regular data fault) => Returned (inl (mkReader data fault, p)) w
    end.
Proof.
  simpl. unfold bind, stat. destruct (files w !! p) as [[| |data fault]|];
    reflexivity.
Qed.

Lemma readBinaryFileFunc_unresolved filePaths w :
  Forall (fun p => ~ resolves w p) filePaths ->
  match readBinaryFileFunc filePaths w with
  | Returned (inl (reader, _)) _ => failing reader = true
  | Returned (inr _) _ => True
  | Panicked _ => False
  end.
Proof.
  induction 1 as [|p ps Hp Hps IH]; [exact I|].
  rewrite readBinaryFileFunc_cons.
  destruct (files w !! p) as [[| |data fault]|] eqn:E; try done.
  destruct fault; [done|]. exfalso. apply Hp. by exists data.
Qed.

Lemma readFileFunc_unresolved filePaths w :
  Forall (fun p => ~ resolves w p) filePaths ->
  returned (readFileFunc filePaths w) = Some (false, EmptyString).
Proof.
  intros H. pose proof (readBinaryFileFunc_unresolved filePaths w H) as Hb.
  unfold readFileFunc, bind at 1.
  destruct (readBinaryFileFunc filePaths w) as [q|[[reader path]|path] w'];
    [done| |reflexivity].
  rewrite Hb. reflexivity.
Qed.

Lemma readFileFunc_resolved path rest w data :
  files w !! path = Some (Regular data false) ->
  readFileFunc (path :: rest) w = Returned (true, data) w.
Proof.
  intros E. unfold readFileFunc, bind at 1.
  rewrite readBinaryFileFunc_cons, E. reflexivity.
Qed.

(** ** C9 and C10: the fast paths on the os-release map *)

(** C9.  With an absent or empty VERSION_ID, the tests for Oracle Linux,
    RHEL, Photon and Slackware report no match on the matching ID when their
    marker files do not resolve, while the tests that compare ID alone
    still report a match. *)
Theorem fast_path_needs_version_id (lsb os : ReleaseDetails) (w : World) :
  at_key os "VERSION_ID" = EmptyString ->
  (at_key os "ID" = "ol" ->
   ~ resolves w "/etc/oracle-release" ->
   returned (IsOracleLinux lsb os w) = Some (false, zeroDistro))
  /\ (at_key os "ID" = "rhel" ->
      ~ resolves w "/etc/oracle-release" ->
      ~ resolves w "/etc/redhat-release" ->
      ~ resolves w "/etc/redhat-version" ->
      returned (IsRHEL lsb os w) = Some (false, zeroDistro))
  /\ (at_key os "ID" = "photon" ->
      ~ resolves w "/etc/photon-release" ->
      returned (IsPhoton lsb os w) = Some (false, zeroDistro))
  /\ (at_key os "ID" = "slackware" ->
      ~ resolves w "/etc/slackware-version" ->
      returned (IsSlackware lsb os w) = Some (false, zeroDistro))
  /\ Forall (fun '(id, t) =>
               at_key os "ID" = id ->
               fst <$> returned ((t : DistroTest) lsb os w) = Some true)
            singleFieldTests.
Proof.
  intros Hv.
  assert (Hfile : forall w0 ps (k : bool * string -> M (bool * LinuxDistro)),
             files w0 = files w ->
             Forall (fun p => ~ resolves w p) ps ->
             (forall w', k (false, EmptyString) w' = Returned (false, zeroDistro) w') ->
             returned (bind (readFileFunc ps) k w0) = Some (false, zeroDistro)).
  { intros w0 ps k Hw0 Hps Hk.
    assert (Hps0 : Forall (fun p => ~ resolves w0 p) ps).
    { unfold resolves. by rewrite Hw0. }
    pose proof (readFileFunc_unresolved ps w0 Hps0) as Hr.
    unfold bind. destruct (readFileFunc ps w0) as [p|r w'] eqn:E; [done|].
    simpl in Hr. simplify_eq. by rewrite Hk. }
  assert (Horacle : at_key os "ID" = "ol" \/ at_key os "ID" = "rhel" ->
                    ~ resolves w "/etc/oracle-release" ->
                    returned (IsOracleLinux lsb os w) = Some (false, zeroDistro)).
  { intros Hid Ho. unfold IsOracleLinux.
    destruct Hid as [Hid|Hid]; rewrite Hid, Hv; simpl;
      (apply Hfile; [done|by repeat constructor|done]). }
  repeat split.
  - intros Hid Ho. apply Horacle; [by left|done].
  - intros Hid Ho Hr1 Hr2. unfold IsRHEL. rewrite Hid, Hv. simpl.
    pose proof (Horacle (or_intror Hid) Ho) as HO.
    unfold bind at 1.
    destruct (IsOracleLinux lsb os w) as [p|r w'] eqn:E; [done|].
    simpl in HO. simplify_eq.
    apply Hfile; [|by repeat constructor|done].
    eapply reads_only_files; [apply reads_only_IsOracleLinux|exact E].
  - intros Hid Hp. unfold IsPhoton. rewrite Hid, Hv. simpl.
    apply Hfile; [done|by repeat constructor|done].
  - intros Hid Hs. unfold IsSlackware. rewrite Hid, Hv. simpl.
    apply Hfile; [done|by repeat constructor|done].
  - unfold singleFieldTests.
    repeat (apply List.Forall_cons; [|]); try apply List.Forall_nil;
      intros Hid;
      unfold IsAlpine, IsAlt, IsAmazonLinux, IsArchLinux, IsClearLinux,
        IsFedora, IsKali, IsOpenSuSE, IsMageia, IsNixOS, IsRancherOS, IsSLES;
      rewrite Hid; reflexivity.
Qed.

Lemma fast_path_needs_version_id_witness :
  returned (IsOracleLinux ∅ osOracleNoVersion emptyWorld)
  = Some (false, zeroDistro).
Proof.
  refine (proj1 (fast_path_needs_version_id ∅ osOracleNoVersion emptyWorld
                   eq_refl) eq_refl _).
  intros [data Hdata]. vm_compute in Hdata. discriminate Hdata.
Defined.

(** C10.  A matched record can carry the empty string as its version: an
    os-release map with ID alpine (or amzn) and no VERSION_ID, without a
    readable /etc/alpine-release, is classified with an empty Version. *)
Theorem matched_version_may_be_empty :
  osAlpineNoVersion !! "VERSION_ID" = None
  /\ ~ resolves emptyWorld "/etc/alpine-release"
  /\ returned (discoverDistroFromProperties ∅ osAlpineNoVersion emptyWorld)
     = Some {| Name := "Alpine Linux"; ID := "alpine"; Version := EmptyString;
               LsbRelease := ∅; OsRelease := osAlpineNoVersion |}
  /\ returned (discoverDistroFromProperties ∅ osAmazonNoVersion emptyWorld)
     = Some {| Name := "Amazon Linux"; ID := "amzn"; Version := EmptyString;
               LsbRelease := ∅; OsRelease := osAmazonNoVersion |}.
Proof.
  split; [reflexivity|]. split.
  - intros [data Hdata]. vm_compute in Hdata. discriminate Hdata.
  - split; vm_compute; reflexivity.
Qed.

(** ** C1: Oracle Linux before the Red Hat text *)

Lemma parseRedhatReleaseContents_matched contents expected m0 rest :
  FindStringSubmatch releaseSplitter contents = Some (m0 :: rest) ->
  HasPrefix m0 expected = true ->
  exists version, parseRedhatReleaseContents contents expected
                  = Value (true, version).
Proof.
  intros Hm Hp. unfold parseRedhatReleaseContents. rewrite Hm. simpl.
  rewrite Hp. simpl.
  destruct rest as [|m1 [|m2 [|m3 rest]]]; simpl; eauto.
Qed.

Lemma IsOracleLinux_marker lsb os w contents m0 rest :
  files w !! "/etc/oracle-release" = Some (Regular contents false) ->
  FindStringSubmatch releaseSplitter contents = Some (m0 :: rest) ->
  HasPrefix m0 "Oracle Linux" = true ->
  exists d w', IsOracleLinux lsb os w = Returned (true, d) w'
               /\ isOracleRecord d.
Proof.
  intros Hfile Hm Hp. unfold IsOracleLinux.
  destruct (_ && _).
  - eexists _, _. split; [reflexivity|]. split; reflexivity.
  - unfold bind at 1. rewrite (readFileFunc_resolved _ _ _ _ Hfile).
    destruct (parseRedhatReleaseContents_matched _ _ _ _ Hm Hp) as [v Hv].
    unfold bind, lift. rewrite Hv.
    eexists _, _. split; [reflexivity|]. split; reflexivity.
Qed.

(** C1.  When /etc/oracle-release resolves to text that the release
    expression matches with a leading text starting with Oracle Linux, the
    classifier returns the Oracle Linux record, whatever /etc/redhat-release
    and the other files hold; and when the os-release map does not itself
    name Fedora or RHEL, each of the CentOS, RHEL, Fedora and Scientific
    Linux tests returns that record, so the result is the same whichever of
    them a list of tests starts with. *)
Theorem oracle_marker_wins (lsb os : ReleaseDetails) (w : World)
    (contents m0 : string) (rest : list string) :
  files w !! "/etc/oracle-release" = Some (Regular contents false) ->
  FindStringSubmatch releaseSplitter contents = Some (m0 :: rest) ->
  HasPrefix m0 "Oracle Linux" = true ->
  (exists d, returned (discoverDistroFromProperties lsb os w) = Some d
             /\ isOracleRecord d)
  /\ (~ osNamesRedHat os ->
      forall t others, t ∈ redHatFamilyTests ->
        exists d, returned (t lsb os w) = Some (true, d)
                  /\ returned (discoverWith (t :: others) lsb os w)
                     = Some ([0], d)
                  /\ isOracleRecord d).
Proof.
  intros Hfile Hm Hp.
  destruct (IsOracleLinux_marker lsb os w _ _ _ Hfile Hm Hp)
    as (d & w' & HO & Hd).
  assert (Hcentos : returned (IsCentOS lsb os w) = Some (true, d)).
  { unfold IsCentOS, bind at 1. rewrite HO. reflexivity. }
  assert (Hfam : ~ osNamesRedHat os -> forall t, t ∈ redHatFamilyTests ->
                 returned (t lsb os w) = Some (true, d)).
  { intros Hos t Ht. unfold redHatFamilyTests in Ht.
    repeat (apply elem_of_cons in Ht as [->|Ht]); [exact Hcentos| | | |].
    - unfold IsRHEL.
      destruct (_ && _) eqn:Eid.
      + exfalso. apply Hos. right.
        apply andb_true_iff in Eid as [E1 E2].
        apply String.eqb_eq in E1. split; [done|].
        unfold nonEmpty in E2. apply negb_true_iff, String.eqb_neq in E2. done.
      + unfold bind at 1. rewrite HO. reflexivity.
    - unfold IsFedora.
      destruct (_ =? _)%string eqn:Eid.
      + exfalso. apply Hos. left. by apply String.eqb_eq.
      + unfold bind at 1. rewrite HO. reflexivity.
    - unfold IsScientificLinux, bind at 1. rewrite HO. reflexivity.
    - by apply elem_of_nil in Ht. }
  split.
  - exists d. split; [|done].
    eapply returned_discoverDistroFromProperties.
    apply (discoverWith_first_match DistroTests lsb os w 0 IsCentOS d
             reads_only_DistroTests); [reflexivity|intros; lia|exact Hcentos].
  - intros Hos t others Ht. exists d. split; [by apply Hfam|]. split; [|done].
    pose proof (Hfam Hos t Ht) as Hacc.
    destruct (returned_Some _ _ Hacc) as [w1 E].
    unfold discoverWith, bind at 1. simpl. unfold bind at 1. rewrite E.
    reflexivity.
Qed.

Lemma oracle_marker_wins_witness :
  exists d, returned (discoverDistroFromProperties ∅ ∅ oracleWorld) = Some d
            /\ isOracleRecord d.
Proof.
  refine (proj1 (oracle_marker_wins ∅ ∅ oracleWorld
                   "Oracle Linux Server release 7.6"
                   "Oracle Linux Server release 7.6"
                   ["Oracle Linux Server"; "release"; "7.6"; EmptyString]
                   _ _ _)).
  - vm_compute. reflexivity.
  - vm_compute. reflexivity.
  - vm_compute. reflexivity.
Defined.

(** ** C3: release text that the expression does not match *)

Lemma parseRedhatReleaseContents_no_match contents expected :
  FindStringSubmatch releaseSplitter contents = None ->
  parseRedhatReleaseContents contents expected = Fault (IndexOutOfRange 0 0).
Proof.
  intros Hm. unfold parseRedhatReleaseContents. rewrite Hm. reflexivity.
Qed.

(** C3.  Classification can fault: with an empty /etc/oracle-release, or a
    /etc/redhat-release holding one word, [parseRedhatReleaseContents]
    indexes the nil slice of submatches and the classifier panics instead of
    returning a record. *)
Theorem malformed_release_file_panics :
  discoverDistroFromProperties ∅ ∅ emptyOracleRelease
  = Panicked (IndexOutOfRange 0 0)
  /\ discoverDistroFromProperties ∅ ∅ oneWordRedhatRelease
     = Panicked (IndexOutOfRange 0 0)
  /\ returned (discoverDistroFromProperties ∅ ∅ emptyOracleRelease) = None.
Proof. repeat split; vm_compute; reflexivity. Qed.

(** ** C4: the scan of /bin/true *)

(** C4.  The scan drops the last byte of every buffer it reads and does not
    restart the signature after a mismatch: a /bin/true that starts with the
    banner and a newline is classified as busybox with version v1.320, and a
    /bin/true in which the signature never occurs is reported as a match. *)
Theorem busybox_scan_misreads :
  (Contains bannerAtStart ("BusyBox v1.32.0" ++ str LF) = true
   /\ IsDigit LF = false
   /\ returned (discoverDistroFromProperties ∅ ∅ (binTrue bannerAtStart))
      = Some {| Name := "BusyBox"; ID := "busybox"; Version := "v1.320";
                LsbRelease := ∅; OsRelease := ∅ |})
  /\ (Contains noSignature searchBytes = false
      /\ fst <$> returned (IsBusyBox ∅ ∅ (binTrue noSignature)) = Some true).
Proof. repeat split; vm_compute; reflexivity. Qed.

(** ** C6 and C7: the fallback *)

(** C6.  The record of the classifier can have an empty name: with no
    NAME and a PRETTY_NAME that starts with a space, no test matches and
    [BestGuess] takes the empty text before that space as the name.  Such a
    map is what the parser makes of an os-release file whose PRETTY_NAME is
    quoted and starts with a space. *)
Theorem fallback_name_can_be_empty :
  returned (discoverDistroFromProperties ∅ osPrettyLeadingSpace emptyWorld)
  = Some {| Name := EmptyString; ID := "unknown"; Version := "unknown";
            LsbRelease := ∅; OsRelease := osPrettyLeadingSpace |}
  /\ returned (DiscoverDistro prettyNameOnly)
     = Some {| Name := EmptyString; ID := "unknown"; Version := "unknown";
               LsbRelease := ∅; OsRelease := osPrettyLeadingSpace |}.
Proof. split; vm_compute; reflexivity. Qed.

Lemma nonEmpty_true s : nonEmpty s = true <-> s <> EmptyString.
Proof.
  unfold nonEmpty. rewrite negb_true_iff. apply String.eqb_neq.
Qed.

Lemma nonEmpty_false s : nonEmpty s = false <-> s = EmptyString.
Proof.
  unfold nonEmpty. rewrite negb_false_iff. apply String.eqb_eq.
Qed.

Lemma EncodeRune_cons r : exists b t, EncodeRune r = String b t.
Proof.
  unfold EncodeRune. repeat case_match; by eexists _, _.
Qed.

(** A rune takes at least one byte, so [Map] does not run out of fuel: any
    fuel from the length of the text on gives the same result. *)
Lemma DecodeRuneInString_rest s0 s :
  String.length (snd (DecodeRuneInString s0 s)) <= String.length s.
Proof.
  unfold DecodeRuneInString. repeat case_match; simplify_eq; simpl; lia.
Qed.

Lemma mapRunes_fuel mapping fuel1 : forall fuel2 s,
  String.length s <= fuel1 -> String.length s <= fuel2 ->
  mapRunes mapping fuel1 s = mapRunes mapping fuel2 s.
Proof.
  induction fuel1 as [|fuel1 IH]; intros fuel2 s H1 H2.
  - destruct s; [by destruct fuel2|simpl in H1; lia].
  - destruct s as [|s0 t]; [by destruct fuel2|].
    destruct fuel2 as [|fuel2]; [simpl in H2; lia|]. simpl in *.
    pose proof (DecodeRuneInString_rest s0 t) as Hrest.
    destruct (DecodeRuneInString s0 t) as [c rest]. simpl in Hrest.
    f_equal. apply IH; lia.
Qed.

Lemma ToLower_nonEmpty s : nonEmpty s = true -> nonEmpty (ToLower s) = true.
Proof.
  destruct s as [|c s]; [done|]. intros _. unfold ToLower.
  destruct (isASCII (String c s)); [by destruct (hasUpper (String c s))|].
  unfold Map. cbn [String.length mapRunes].
  destruct (DecodeRuneInString c s) as [r rest].
  by destruct (EncodeRune_cons (unicode_ToLower r)) as (b & t & ->).
Qed.

(** What does hold of every record of the classifier: the identifier is
    never empty, and the name of a record that a test returned is a
    literal. *)
Lemma classifier_ID_nonEmpty lsb os w d w' :
  discoverDistroFromProperties lsb os w = Returned d w' ->
  ID d <> EmptyString.
Proof.
  unfold discoverDistroFromProperties, discoverDistroTraced, discoverWith.
  unfold bind at 1 2. intros Hrun.
  destruct (runTests DistroTests 0 lsb os w) as [p|[c [b d0]] w1] eqn:E;
    [done|].
  destruct b; cbn -[BestGuess] in Hrun.
  - unfold ret in Hrun. simplify_eq.
    by eapply runTests_fills; [apply fills_DistroTests|].
  - unfold bind in Hrun.
    destruct (BestGuess lsb os w1) as [p|g w2] eqn:EB; [done|].
    unfold ret in Hrun. simplify_eq.
    unfold BestGuess, bind, LogWarnf, logLine, ret in EB.
    injection EB as <- _. simpl.
    destruct (nonEmpty (at_key os "ID")) eqn:E1.
    { by apply nonEmpty_true. }
    destruct (nonEmpty (at_key lsb "DISTRIB_ID")) eqn:E2; [|done].
    by apply nonEmpty_true, ToLower_nonEmpty.
Qed.

(** C7, as stated, fails: a PRETTY_NAME whose words are separated by a tab
    is taken whole by the fallback, while its first whitespace-delimited
    token is the first word. *)
Lemma fallback_name_not_first_token :
  Name <$> returned (discoverDistroFromProperties ∅ osPrettyTab emptyWorld)
  = Some ("Foo" ++ str TAB ++ "Bar")
  /\ spec_fallbackName ∅ osPrettyTab = "Foo"
  /\ Name <$> returned (discoverDistroFromProperties ∅ osPrettyTab emptyWorld)
     <> Some (spec_fallbackName ∅ osPrettyTab).
Proof. repeat split; vm_compute; congruence. Qed.

Lemma beforeFirstSpace_nonEmpty s :
  nonEmpty s = true -> HasPrefix s " " = false ->
  nonEmpty (beforeFirstSpace s) = true.
Proof.
  destruct s as [|c s]; [done|]. intros _.
  unfold HasPrefix, beforeFirstSpace, SplitN2. simpl.
  destruct (ascii_dec " " c) as [<-|Hc].
  - by destruct s.
  - intros _. destruct (Ascii.eqb c SP) eqn:E.
    + apply Ascii.eqb_eq in E. by subst c.
    + by destruct (cutByte SP s).
Qed.

Lemma BestGuess_name lsb os w :
  at_key os "NAME" <> EmptyString \/ HasPrefix (at_key os "PRETTY_NAME") " " = false ->
  Name <$> returned (BestGuess lsb os w) = Some (fallbackName lsb os).
Proof.
  intros Hedge. unfold BestGuess, bind, LogWarnf, logLine, ret. simpl.
  unfold fallbackName. simpl. f_equal.
  destruct (nonEmpty (at_key os "NAME")) eqn:EN; [reflexivity|].
  destruct Hedge as [Hn|Hp]; [by apply nonEmpty_true in Hn; congruence|].
  destruct (nonEmpty (at_key os "PRETTY_NAME")) eqn:EP.
  - fold (beforeFirstSpace (at_key os "PRETTY_NAME")).
    by rewrite (beforeFirstSpace_nonEmpty _ EP Hp).
  - apply nonEmpty_false in EP. rewrite EP. reflexivity.
Qed.

(** C7, amended.  Whenever no test matches, and unless NAME is empty while
    PRETTY_NAME starts with a space, the name of the record is the first
    non-empty of: os-release NAME; the text of os-release PRETTY_NAME before
    its first space character; LSB DISTRIB_ID; os-release ID; the literal
    Unknown. *)
Theorem fallback_name_order (lsb os : ReleaseDetails) (w : World) :
  at_key os "NAME" <> EmptyString \/ HasPrefix (at_key os "PRETTY_NAME") " " = false ->
  Name <$> returned (BestGuess lsb os w) = Some (fallbackName lsb os)
  /\ ((forall j t, DistroTests !! j = Some t -> refuses lsb os t w) ->
      Name <$> returned (discoverDistroFromProperties lsb os w)
      = Some (fallbackName lsb os)).
Proof.
  intros Hedge. split; [by apply BestGuess_name|].
  intros Hall.
  destruct (discoverWith_fallback DistroTests lsb os w
              reads_only_DistroTests Hall) as (g & Hg & Ht).
  rewrite (returned_discoverDistroFromProperties _ _ _ _ _ Ht).
  rewrite <- (BestGuess_name lsb os w Hedge), Hg. reflexivity.
Qed.

Lemma fallback_name_order_witness :
  Name <$> returned (BestGuess ∅ osExotic emptyWorld) = Some "exotic-os".
Proof.
  refine (proj1 (fallback_name_order ∅ osExotic emptyWorld _)).
  right. vm_compute. reflexivity.
Defined.

(** ** C5: the key/value parser *)

Lemma sapp_cons (x : ascii) (a b : string) : String x a ++ b = String x (a ++ b).
Proof. reflexivity. Qed.

Lemma sapp_nil_l (a : string) : EmptyString ++ a = a.
Proof. reflexivity. Qed.

Lemma sapp_assoc (a b c : string) : (a ++ b) ++ c = a ++ (b ++ c).
Proof.
  induction a as [|x a IH]; [reflexivity|]. rewrite !sapp_cons. by rewrite IH.
Qed.

Lemma sapp_nil_r (a : string) : a ++ EmptyString = a.
Proof.
  induction a as [|x a IH]; [reflexivity|]. rewrite sapp_cons. by rewrite IH.
Qed.

Lemma allBytes_app p a b :
  allBytes p (a ++ b) = allBytes p a && allBytes p b.
Proof.
  induction a as [|x a IH]; [reflexivity|]. rewrite sapp_cons. simpl.
  by rewrite IH, andb_assoc.
Qed.

Lemma starLoop_set {R} p (k : Cont R) fuel acc s caps :
  String.length s <= fuel ->
  starLoop (rmatch (RSet p)) k fuel acc s caps = greedy p k acc s caps.
Proof.
  revert acc s. induction fuel as [|fuel IH]; intros acc s Hlen.
  - destruct s; simpl in *; [reflexivity|lia].
  - destruct s as [|c s]; simpl in *; [reflexivity|].
    destruct (p c); [|reflexivity].
    rewrite IH by lia. reflexivity.
Qed.

Lemma rmatch_star_set {R} p s caps (k : Cont R) :
  rmatch (RStar (RSet p)) s caps k = greedy p k EmptyString s caps.
Proof. simpl. by apply starLoop_set. Qed.

Lemma greedy_fallthrough {R} p (k : Cont R) acc t caps :
  (forall v1 t2, t = v1 ++ t2 -> v1 <> EmptyString -> allBytes p v1 = true ->
                 k (acc ++ v1) t2 caps = None) ->
  greedy p k acc t caps = k acc t caps.
Proof.
  revert acc. induction t as [|c t IH]; intros acc Hnone; simpl; [reflexivity|].
  destruct (p c) eqn:Hc; [|reflexivity].
  rewrite IH.
  - rewrite (Hnone (str c) t); [reflexivity|reflexivity|done|].
    simpl. by rewrite Hc.
  - intros v1 t2 -> Hv1 Hp. rewrite sapp_assoc.
    apply Hnone; [reflexivity|done|]. unfold str. rewrite sapp_cons. simpl.
    by rewrite Hc.
Qed.

Lemma greedy_commit_at {R} p (k : Cont R) acc u t caps x :
  allBytes p u = true ->
  (forall v1 t2, t = v1 ++ t2 -> v1 <> EmptyString -> allBytes p v1 = true ->
                 k (acc ++ u ++ v1) t2 caps = None) ->
  k (acc ++ u) t caps = Some x ->
  greedy p k acc (u ++ t) caps = Some x.
Proof.
  revert acc. induction u as [|c u IH]; intros acc Hu Hnone Hk.
  - rewrite sapp_nil_r in Hk. rewrite sapp_nil_l.
    rewrite greedy_fallthrough; [done|].
    intros v1 t2 E Hv1 Hp. by apply (Hnone v1 t2 E Hv1 Hp).
  - simpl in Hu. apply andb_true_iff in Hu as [Hc Hu].
    rewrite sapp_cons. simpl. rewrite Hc.
    rewrite (IH (acc ++ str c)); [reflexivity|done| |].
    + intros v1 t2 E Hv1 Hp. rewrite sapp_assoc. by apply Hnone.
    + rewrite sapp_assoc. exact Hk.
Qed.

Lemma greedy_commit {R} p (k : Cont R) acc u t caps x :
  allBytes p u = true -> stopsAt p t ->
  k (acc ++ u) t caps = Some x ->
  greedy p k acc (u ++ t) caps = Some x.
Proof.
  intros Hu Ht Hk. apply greedy_commit_at; [done| |done].
  intros v1 t2 -> Hv1 Hp. destruct v1 as [|c v1]; [done|].
  rewrite sapp_cons in Ht. simpl in *. rewrite Ht in Hp. done.
Qed.

(** A continuation that accepts whatever is left. *)
Lemma greedy_accepting {R} p (f : string -> Caps -> R) acc s caps :
  exists w, greedy p (fun w _ c => Some (f w c)) acc s caps = Some (f w caps).
Proof.
  revert acc. induction s as [|c s IH]; intros acc; simpl; [by eexists|].
  destruct (p c); [|by eexists].
  destruct (IH (acc ++ str c)) as [w ->]. by eexists.
Qed.

Lemma greedy_refuses {R} p (k : Cont R) (good : string -> Prop) acc s caps :
  (forall c t, good (String c t) -> good t) ->
  (forall a t, good t -> k a t caps = None) ->
  good s -> greedy p k acc s caps = None.
Proof.
  intros Hsuf Hk. revert acc. induction s as [|c s IH]; intros acc Hs; simpl.
  - by apply Hk.
  - destruct (p c).
    + rewrite IH by (by eapply Hsuf). by apply Hk.
    + by apply Hk.
Qed.

Lemma greedy_sound {R} p (k : Cont R) acc s caps x :
  greedy p k acc s caps = Some x ->
  exists u t, s = u ++ t /\ allBytes p u = true
              /\ k (acc ++ u) t caps = Some x.
Proof.
  revert acc. induction s as [|c s IH]; intros acc Hrun; simpl in Hrun.
  - exists EmptyString, EmptyString. by rewrite !sapp_nil_r.
  - destruct (p c) eqn:Hc.
    + destruct (greedy p k (acc ++ str c) s caps) as [y|] eqn:E.
      * injection Hrun as ->. apply IH in E as (u & t & -> & Hu & Hk).
        exists (String c u), t. split; [done|]. split.
        { simpl. by rewrite Hc. }
        by rewrite sapp_assoc in Hk.
      * exists EmptyString, (String c s). by rewrite sapp_nil_r.
    + exists EmptyString, (String c s). by rewrite sapp_nil_r.
Qed.

Lemma yields_commit_at {R} p (k : Cont R) acc u t caps P :
  allBytes p u = true ->
  (forall v1 t2, t = v1 ++ t2 -> v1 <> EmptyString -> allBytes p v1 = true ->
                 k (acc ++ u ++ v1) t2 caps = None) ->
  yields (k (acc ++ u) t caps) P ->
  yields (greedy p k acc (u ++ t) caps) P.
Proof.
  intros Hu Hnone (x & Hk & HP). exists x. split; [|done].
  by apply greedy_commit_at.
Qed.

Lemma yields_commit {R} p (k : Cont R) acc u t caps P :
  allBytes p u = true -> stopsAt p t ->
  yields (k (acc ++ u) t caps) P ->
  yields (greedy p k acc (u ++ t) caps) P.
Proof.
  intros Hu Ht (x & Hk & HP). exists x. split; [|done].
  by apply greedy_commit.
Qed.

Lemma yields_accepting {R} p (f : string -> Caps -> R) acc s caps P :
  (forall w, P (f w caps)) ->
  yields (greedy p (fun w _ c => Some (f w c)) acc s caps) P.
Proof.
  intros HP. destruct (greedy_accepting p f acc s caps) as [w Hw].
  exists (f w caps). split; [exact Hw|apply HP].
Qed.

Lemma rmatch_cat {R} r1 r2 s caps (k : Cont R) :
  rmatch (RCat r1 r2) s caps k
  = rmatch r1 s caps (fun w1 s1 c1 =>
      rmatch r2 s1 c1 (fun w2 s2 c2 => k (w1 ++ w2) s2 c2)).
Proof. reflexivity. Qed.

Lemma rmatch_set_cons {R} p c s caps (k : Cont R) :
  rmatch (RSet p) (String c s) caps k = if p c then k (str c) s caps else None.
Proof. reflexivity. Qed.

Lemma rmatch_group_plus_set {R} i p c s caps (k : Cont R) :
  rmatch (RGroup i (RPlus (RSet p))) (String c s) caps k
  = if p c then
      greedy p (fun w2 s2 c2 => k (String c w2) s2 (<[i := String c w2]> c2))
        EmptyString s caps
    else None.
Proof.
  change (rmatch (RGroup i (RPlus (RSet p))) (String c s) caps k)
    with (if p c then
            rmatch (RStar (RSet p)) s caps
              (fun w2 s2 c2 => k (String c w2) s2 (<[i := String c w2]> c2))
          else None).
  destruct (p c); [|reflexivity]. apply rmatch_star_set.
Qed.

(** A text without the byte [c] is refused by an expression that asks for
    [c] after a run of a class. *)
Lemma rmatch_needs_byte {R} p c r s caps (k : Cont R) :
  allBytes (notEq c) s = true ->
  rmatch (RCat (RStar (RSet p)) (RCat (RByte c) r)) s caps k = None.
Proof.
  intros Hs. rewrite rmatch_cat, rmatch_star_set.
  apply (greedy_refuses p _ (fun t => allBytes (notEq c) t = true)); [| |done].
  - intros b t Hb. simpl in Hb. by apply andb_true_iff in Hb as [_ Hb].
  - intros a t Ht. rewrite rmatch_cat. destruct t as [|b t]; [reflexivity|].
    unfold RByte. rewrite rmatch_set_cons.
    simpl in Ht. apply andb_true_iff in Ht as [Hb _].
    unfold notEq in Hb. apply negb_true_iff in Hb. by rewrite Hb.
Qed.

Lemma allBytes_impl (p q : ascii -> bool) s :
  (forall c, p c = true -> q c = true) ->
  allBytes p s = true -> allBytes q s = true.
Proof.
  intros Hpq. induction s as [|c s IH]; simpl; [done|].
  intros [Hc Hs]%andb_true_iff. by rewrite (Hpq c Hc), IH.
Qed.

Lemma cls_s_notEq c : cls_s c = true -> notEq "="%char c = true.
Proof.
  unfold cls_s, notEq. intros H.
  repeat (apply orb_true_iff in H as [H|H]);
    apply Ascii.eqb_eq in H; subst c; reflexivity.
Qed.

Lemma cls_s_not_S c : cls_S c = true -> cls_s c = false.
Proof. unfold cls_S. by intros ?%negb_true_iff. Qed.

(** What the expression asks for after a key: whitespace, the equals sign,
    whitespace and the first byte of a value. *)
Lemma separator_inv {R} i r t caps (k : Cont R) x :
  rmatch (RCat (RStar (RSet cls_s))
            (RCat (RByte "="%char)
               (RCat (RStar (RSet cls_s))
                  (RCat (RGroup i (RPlus (RSet cls_S_or_blank))) r))))
         t caps k = Some x ->
  exists w1 w2 c v,
    t = w1 ++ "=" ++ w2 ++ String c v
    /\ allBytes cls_s w1 = true /\ allBytes cls_s w2 = true
    /\ cls_S_or_blank c = true.
Proof.
  intros H. rewrite rmatch_cat, rmatch_star_set in H.
  apply greedy_sound in H as (w1 & t1 & -> & Hw1 & H). cbv beta in H.
  rewrite rmatch_cat in H. unfold RByte at 1 in H.
  destruct t1 as [|e t1]; [done|]. rewrite rmatch_set_cons in H.
  destruct (Ascii.eqb "=" e) eqn:He; [|done].
  apply Ascii.eqb_eq in He. subst e. cbv beta in H.
  rewrite rmatch_cat, rmatch_star_set in H.
  apply greedy_sound in H as (w2 & t2 & -> & Hw2 & H). cbv beta in H.
  rewrite rmatch_cat in H. destruct t2 as [|c v]; [done|].
  rewrite rmatch_group_plus_set in H.
  destruct (cls_S_or_blank c) eqn:Hc; [|done].
  by exists w1, w2, c, v.
Qed.

Lemma valueStarts_intro w2 c v :
  allBytes cls_s w2 = true -> cls_S_or_blank c = true ->
  valueStarts (w2 ++ String c v) = true.
Proof.
  intros Hw2 Hc. induction w2 as [|a w2 IH].
  - rewrite sapp_nil_l. simpl. by rewrite Hc.
  - simpl in Hw2. apply andb_true_iff in Hw2 as [Ha Hw2].
    rewrite sapp_cons. simpl. rewrite Ha, IH by done. apply orb_true_r.
Qed.

Lemma separatorStarts_intro w1 t :
  allBytes cls_s w1 = true -> valueStarts t = true ->
  separatorStarts (w1 ++ "=" ++ t) = true.
Proof.
  intros Hw1 Ht. induction w1 as [|a w1 IH].
  - rewrite sapp_nil_l. change ("=" ++ t) with (String "=" t). simpl.
    by rewrite Ht.
  - simpl in Hw1. apply andb_true_iff in Hw1 as [Ha Hw1].
    rewrite sapp_cons. simpl. rewrite Ha, IH by done. apply orb_true_r.
Qed.

(** The test finds every later place: where it answers no, there is
    none. *)
Lemma laterSeparatorb_complete rest :
  laterSeparator rest -> laterSeparatorb rest = true.
Proof.
  intros (x & w1 & w2 & c & v & -> & Hx & Hw1 & Hw2 & Hc).
  induction x as [|a x IH].
  - rewrite sapp_nil_l.
    assert (H : separatorStarts (w1 ++ "=" ++ w2 ++ String c v) = true).
    { by apply separatorStarts_intro, valueStarts_intro. }
    destruct (w1 ++ "=" ++ w2 ++ String c v); simpl in *; by rewrite H.
  - simpl in Hx. apply andb_true_iff in Hx as [Ha Hx].
    rewrite sapp_cons. simpl. rewrite Ha, IH by done. apply orb_true_r.
Qed.

Lemma equalsSplitter_line ws1 key ws2 ws3 val tail :
  allBytes cls_s ws1 = true -> allBytes cls_s ws2 = true ->
  allBytes cls_s ws3 = true ->
  key <> EmptyString -> allBytes keyByte key = true ->
  val <> EmptyString -> allBytes cls_S_or_blank val = true ->
  HasPrefix val " " = false ->
  stopsAt cls_S_or_blank tail ->
  ws2 <> EmptyString \/ ~ laterSeparator (ws3 ++ val ++ tail) ->
  yields (FindStringSubmatch equalsSplitter
            (ws1 ++ key ++ ws2 ++ "=" ++ ws3 ++ val ++ tail))
         (fun m => exists m0, m = [m0; key; val]).
Proof.
  intros Hws1 Hws2 Hws3 Hkey0 Hkey Hval0 Hval Hsp Htail Hnoeq.
  destruct key as [|k0 key]; [done|]. clear Hkey0.
  destruct val as [|b0 val]; [done|]. clear Hval0.
  simpl in Hkey. apply andb_true_iff in Hkey as [Hk0 Hkey].
  apply andb_true_iff in Hk0 as [Hk0S Hk0eq].
  simpl in Hval. apply andb_true_iff in Hval as [Hb0 Hval].
  assert (Hb0s : cls_s b0 = false).
  { unfold HasPrefix in Hsp. simpl in Hsp.
    unfold cls_S_or_blank in Hb0. apply orb_true_iff in Hb0 as [Hb0|Hb0].
    - by apply cls_s_not_S.
    - apply Ascii.eqb_eq in Hb0. subst b0. exfalso.
      destruct (ascii_dec " " SP); [|done]. by destruct val. }
  unfold FindStringSubmatch, matchHere.
  cbn [equalsSplitter anchored body groups RSeq].
  (* leading whitespace *)
  rewrite rmatch_cat, rmatch_star_set.
  apply yields_commit; [done|by rewrite sapp_cons; apply cls_s_not_S|].
  cbv beta.
  (* the key *)
  rewrite rmatch_cat, sapp_cons, rmatch_group_plus_set, Hk0S.
  apply yields_commit_at.
  { eapply allBytes_impl; [|exact Hkey]. unfold keyByte.
    by intros c [? _]%andb_true_iff. }
  { intros v1 t2 E Hv1 Hp.
    destruct v1 as [|c v1]; [done|]. simpl in Hp.
    apply andb_true_iff in Hp as [Hc Hv1S].
    destruct ws2 as [|c2 ws2].
    - rewrite sapp_nil_l, !sapp_cons, sapp_nil_l in E. injection E as <- E.
      destruct Hnoeq as [Hws2'|Hlater]; [done|].
      match goal with
      | |- ?m = None => destruct m as [x|] eqn:Hm; [exfalso|reflexivity]
      end.
      apply separator_inv in Hm as (w1 & w2 & c & v & -> & Hw1 & Hw2 & Hcv).
      apply Hlater. exists v1, w1, w2, c, v.
      change (String b0 (val ++ tail)) with (String b0 val ++ tail) in E.
      by rewrite E.
    - rewrite !sapp_cons in E. injection E as <- E.
      simpl in Hws2. apply andb_true_iff in Hws2 as [Hc2 _].
      apply cls_s_not_S in Hc. congruence. }
  cbv beta.
  (* whitespace, the equals sign, whitespace *)
  rewrite rmatch_cat, rmatch_star_set.
  apply yields_commit; [done|reflexivity|]. cbv beta.
  rewrite rmatch_cat. unfold RByte at 1. rewrite sapp_cons, rmatch_set_cons.
  change (Ascii.eqb "=" "=") with true. cbv beta iota.
  rewrite sapp_nil_l, rmatch_cat, rmatch_star_set.
  apply yields_commit; [done|by rewrite sapp_cons|]. cbv beta.
  (* the value *)
  rewrite rmatch_cat, sapp_cons, rmatch_group_plus_set, Hb0.
  apply yields_commit; [done|done|]. cbv beta.
  rewrite rmatch_star_set.
  apply yields_accepting. intros w. eexists. reflexivity.
Qed.

Lemma cls_s_not_hash c : cls_s c = true -> Ascii.eqb c "#"%char = false.
Proof.
  unfold cls_s. intros H.
  repeat (apply orb_true_iff in H as [H|H]);
    apply Ascii.eqb_eq in H; subst c; reflexivity.
Qed.

(** C5, as stated, fails: the parser strips both layers of a doubly quoted
    value and an unmatched quote, where one matching pair at most was to
    go; and a key directly followed by its equals sign runs on to a later
    equals sign of the same word. *)
Lemma quotes_are_all_stripped :
  (splitEqualsKeyVal ("K=" ++ doublyQuoted) = inl ("K", "v")
   /\ spec_value doublyQuoted = String DQUOTE ("v" ++ str DQUOTE))
  /\ (splitEqualsKeyVal ("K=" ++ unmatchedQuote) = inl ("K", "v")
      /\ spec_value unmatchedQuote = unmatchedQuote)
  /\ splitEqualsKeyVal "A=b=c" = inl ("A=b", "c")
  /\ splitEqualsKeyVal ("K=" ++ doublyQuoted)
     <> inl ("K", spec_value doublyQuoted).
Proof. repeat split; vm_compute; congruence. Qed.

Lemma rev_onto_app s acc : rev_onto s acc = srev s ++ acc.
Proof.
  unfold srev. revert acc. induction s as [|c s IH]; intros acc; [reflexivity|].
  simpl. rewrite IH, (IH (String c EmptyString)), sapp_assoc. reflexivity.
Qed.

Lemma srev_cons c s : srev (String c s) = srev s ++ str c.
Proof. unfold srev at 1. simpl. apply rev_onto_app. Qed.

Lemma srev_app a b : srev (a ++ b) = srev b ++ srev a.
Proof.
  induction a as [|c a IH].
  - by rewrite sapp_nil_l, sapp_nil_r.
  - by rewrite sapp_cons, !srev_cons, IH, sapp_assoc.
Qed.

Lemma srev_involutive s : srev (srev s) = s.
Proof.
  induction s as [|c s IH]; [reflexivity|].
  by rewrite srev_cons, srev_app, IH.
Qed.

Lemma trimLeftByte_keep c s :
  firstByte s <> Some c -> trimLeftByte c s = s.
Proof.
  destruct s as [|b s]; [done|]. unfold firstByte. simpl. intros Hb.
  destruct (Ascii.eqb b c) eqn:E; [|done].
  apply Ascii.eqb_eq in E. by subst b.
Qed.

Lemma TrimSpace_quoted inner :
  TrimSpace (String DQUOTE (inner ++ str DQUOTE))
  = String DQUOTE (inner ++ str DQUOTE).
Proof.
  unfold TrimSpace.
  assert (Hl : trimLeftSpace (String DQUOTE (inner ++ str DQUOTE))
               = String DQUOTE (inner ++ str DQUOTE)).
  { by destruct (inner ++ str DQUOTE) as [|b2 [|b3 s3]]. }
  rewrite Hl. unfold trimRightSpace.
  rewrite srev_cons, srev_app.
  change (srev (str DQUOTE)) with (str DQUOTE).
  unfold str at 1. rewrite sapp_cons, sapp_nil_l.
  assert (Hr : forall s, trimLeftSpaceRev (String DQUOTE s) = String DQUOTE s).
  { intros s. destruct s as [|b2 [|b3 s3]]; simpl; try reflexivity.
    - unfold space2. change (Ascii.eqb DQUOTE (byte_of 133)) with false.
      change (Ascii.eqb DQUOTE (byte_of 160)) with false.
      by rewrite andb_false_r.
    - unfold space2, space3.
      change (Ascii.eqb DQUOTE (byte_of 133)) with false.
      change (Ascii.eqb DQUOTE (byte_of 160)) with false.
      change (Ascii.eqb DQUOTE (byte_of 128)) with false.
      change (Ascii.eqb DQUOTE (byte_of 168)) with false.
      change (Ascii.eqb DQUOTE (byte_of 169)) with false.
      change (Ascii.eqb DQUOTE (byte_of 175)) with false.
      change (Ascii.eqb DQUOTE (byte_of 159)) with false.
      change (inRange 128 138 DQUOTE) with false.
      by rewrite !andb_false_r. }
  rewrite sapp_cons, Hr, srev_cons, srev_app, srev_involutive.
  reflexivity.
Qed.

Lemma Trim_one_pair inner :
  firstByte inner <> Some DQUOTE -> lastByte inner <> Some DQUOTE ->
  Trim (String DQUOTE (inner ++ str DQUOTE)) DQUOTE = inner.
Proof.
  intros Hf Hl. unfold Trim.
  change (trimLeftByte DQUOTE (String DQUOTE (inner ++ str DQUOTE)))
    with (trimLeftByte DQUOTE (inner ++ str DQUOTE)).
  destruct inner as [|c inner]; [reflexivity|].
  rewrite (trimLeftByte_keep DQUOTE (String c inner ++ str DQUOTE))
    by exact Hf.
  rewrite srev_app. change (srev (str DQUOTE)) with (str DQUOTE).
  change (trimLeftByte DQUOTE (str DQUOTE ++ srev (String c inner)))
    with (trimLeftByte DQUOTE (srev (String c inner))).
  rewrite (trimLeftByte_keep DQUOTE (srev (String c inner))) by exact Hl.
  apply srev_involutive.
Qed.

Lemma splitEqualsKeyVal_value (ws1 key ws2 ws3 val tail : string) :
  allBytes cls_s ws1 = true -> allBytes cls_s ws2 = true ->
  allBytes cls_s ws3 = true ->
  key <> EmptyString -> allBytes keyByte key = true ->
  (ws1 = EmptyString -> HasPrefix key "#" = false) ->
  val <> EmptyString -> allBytes cls_S_or_blank val = true ->
  HasPrefix val " " = false ->
  stopsAt cls_S_or_blank tail ->
  ws2 <> EmptyString \/ ~ laterSeparator (ws3 ++ val ++ tail) ->
  splitEqualsKeyVal (ws1 ++ key ++ ws2 ++ "=" ++ ws3 ++ val ++ tail)
  = inl (key, Trim (TrimSpace val) DQUOTE).
Proof.
  intros Hws1 Hws2 Hws3 Hkey0 Hkey Hhash Hval0 Hval Hsp Htail Hnoeq.
  destruct (equalsSplitter_line ws1 key ws2 ws3 val tail)
    as (m & Hm & m0 & ->); try done.
  remember (ws1 ++ key ++ ws2 ++ "=" ++ ws3 ++ val ++ tail) as line eqn:El.
  assert (Hfirst : exists c rest, line = String c rest
                                  /\ Ascii.eqb c "#"%char = false).
  { destruct ws1 as [|c1 ws1].
    - destruct key as [|k0 key]; [done|].
      rewrite sapp_nil_l, sapp_cons in El. exists k0. eexists.
      split; [exact El|].
      specialize (Hhash eq_refl). unfold HasPrefix in Hhash. simpl in Hhash.
      destruct (ascii_dec "#" k0) as [<-|Hne].
      + by destruct key.
      + apply Ascii.eqb_neq. congruence.
    - rewrite sapp_cons in El. exists c1. eexists. split; [exact El|].
      simpl in Hws1. apply andb_true_iff in Hws1 as [Hc1 _].
      by apply cls_s_not_hash. }
  destruct Hfirst as (c & rest & -> & Hc).
  unfold splitEqualsKeyVal. rewrite Hc, Hm. reflexivity.
Qed.

(** C5, amended.  For every line made of whitespace, a key, whitespace, an
    equals sign, whitespace, a value and a tail, where the key is not empty,
    has no whitespace and no equals sign and does not open the line with a
    hash, the value is not empty, is made of non-whitespace bytes and
    spaces, does not start with a space, and the tail is empty or starts
    with a tab, newline, form feed or carriage return: when whitespace
    separates the key from its equals sign, or the text after that equals
    sign holds no later place where the key could end (non-whitespace
    bytes, whitespace, one more equals sign, whitespace and the first byte
    of a value), the parser returns the exact key, and the value trimmed of
    the whitespace around it and then of all the double quotes at its two
    ends.  Equals signs in the value or the tail are no obstacle otherwise.
    A value enclosed in one pair of quotes loses exactly that pair. *)
Theorem splitEqualsKeyVal_line (ws1 key ws2 ws3 val tail : string) :
  allBytes cls_s ws1 = true -> allBytes cls_s ws2 = true ->
  allBytes cls_s ws3 = true ->
  key <> EmptyString -> allBytes keyByte key = true ->
  (ws1 = EmptyString -> HasPrefix key "#" = false) ->
  val <> EmptyString -> allBytes cls_S_or_blank val = true ->
  HasPrefix val " " = false ->
  stopsAt cls_S_or_blank tail ->
  ws2 <> EmptyString \/ ~ laterSeparator (ws3 ++ val ++ tail) ->
  splitEqualsKeyVal (ws1 ++ key ++ ws2 ++ "=" ++ ws3 ++ val ++ tail)
  = inl (key, Trim (TrimSpace val) DQUOTE)
  /\ (forall inner,
        val = String DQUOTE (inner ++ str DQUOTE) ->
        firstByte inner <> Some DQUOTE -> lastByte inner <> Some DQUOTE ->
        splitEqualsKeyVal (ws1 ++ key ++ ws2 ++ "=" ++ ws3 ++ val ++ tail)
        = inl (key, inner)).
Proof.
  intros Hws1 Hws2 Hws3 Hkey0 Hkey Hhash Hval0 Hval Hsp Htail Hnoeq.
  pose proof (splitEqualsKeyVal_value ws1 key ws2 ws3 val tail Hws1 Hws2 Hws3
                Hkey0 Hkey Hhash Hval0 Hval Hsp Htail Hnoeq) as Hrun.
  split; [exact Hrun|].
  intros inner Hq Hf Hl. rewrite Hrun, Hq, TrimSpace_quoted.
  by rewrite Trim_one_pair.
Qed.

Lemma splitEqualsKeyVal_line_witness :
  splitEqualsKeyVal (EmptyString ++ "K" ++ EmptyString ++ "=" ++ EmptyString
                     ++ "a b=c" ++ EmptyString)
  = inl ("K", Trim (TrimSpace "a b=c") DQUOTE).
Proof.
  refine (proj1 (splitEqualsKeyVal_line EmptyString "K" EmptyString
                   EmptyString "a b=c" EmptyString
                   eq_refl eq_refl eq_refl _ eq_refl _ _ eq_refl eq_refl
                   I _)).
  - discriminate.
  - reflexivity.
  - discriminate.
  - right. intros H. apply laterSeparatorb_complete in H.
    vm_compute in H. discriminate H.
Defined.

(** * Further properties of the code *)

Lemma starLoop_passes {R} (step : string -> Caps -> Cont R -> option R)
    (k : Cont R) :
  (forall s caps k' x, step s caps k' = Some x -> passes k' s caps x) ->
  forall fuel acc s caps x,
    starLoop step k fuel acc s caps = Some x ->
    exists w s' caps', s = w ++ s' /\ length caps' = length caps
                       /\ k (acc ++ w) s' caps' = Some x.
Proof.
  intros Hstep. induction fuel as [|fuel IH]; intros acc s caps x Hrun;
    simpl in Hrun.
  - exists EmptyString, s, caps. by rewrite sapp_nil_r.
  - destruct (step s caps _) as [y|] eqn:E.
    + injection Hrun as ->.
      apply Hstep in E as (w & s' & caps' & -> & Hlen & Hk).
      destruct w as [|c w]; [done|].
      apply IH in Hk as (w2 & s2 & caps2 & -> & Hlen2 & Hk).
      exists (String c w ++ w2), s2, caps2.
      rewrite sapp_assoc. split; [done|]. split; [congruence|].
      by rewrite <- sapp_assoc.
    + exists EmptyString, s, caps. by rewrite sapp_nil_r.
Qed.

Lemma rmatch_passes {R} r : forall s caps (k : Cont R) x,
  rmatch r s caps k = Some x -> passes k s caps x.
Proof.
  induction r as [|p|r1 IH1 r2 IH2|r1 IH1 r2 IH2|r IH|i r IH];
    intros s caps k x Hrun; simpl in Hrun.
  - exists EmptyString, s, caps. done.
  - destruct s as [|c s]; [done|]. destruct (p c); [|done].
    exists (str c), s, caps. done.
  - apply IH1 in Hrun as (w1 & s1 & c1 & -> & Hl1 & Hrun).
    apply IH2 in Hrun as (w2 & s2 & c2 & -> & Hl2 & Hrun).
    exists (w1 ++ w2), s2, c2. rewrite sapp_assoc.
    split; [done|]. split; [congruence|done].
  - destruct (rmatch r1 s caps k) as [y|] eqn:E.
    + injection Hrun as ->. by apply IH1.
    + by apply IH2.
  - apply (starLoop_passes _ _ IH) in Hrun as (w & s' & caps' & -> & Hl & Hk).
    exists w, s', caps'. done.
  - apply IH in Hrun as (w & s' & caps' & -> & Hl & Hk).
    exists w, s', (<[i := w]> caps'). split; [done|]. split; [|done].
    by rewrite length_insert.
Qed.

Lemma matchHere_shape re s m :
  matchHere re s = Some m ->
  length m = S (groups re) /\ exists m0 rest, m !! 0 = Some m0 /\ s = m0 ++ rest.
Proof.
  unfold matchHere. intros H.
  apply rmatch_passes in H as (w & s' & caps' & -> & Hl & Hk).
  injection Hk as <-. rewrite length_replicate in Hl.
  destruct caps' as [|c0 caps']; [done|].
  split; [exact Hl|]. exists w, s'. done.
Qed.

Lemma FindStringSubmatch_length re s m :
  FindStringSubmatch re s = Some m -> length m = S (groups re).
Proof.
  unfold FindStringSubmatch. destruct (anchored re).
  - by intros [? _]%matchHere_shape.
  - induction s as [|c s IH]; simpl.
    + destruct (matchHere re _) eqn:E; [|done].
      intros; simplify_eq. by apply matchHere_shape in E as [? _].
    + destruct (matchHere re _) eqn:E; [|exact IH].
      intros; simplify_eq. by apply matchHere_shape in E as [? _].
Qed.

(** The shape of a line that [equalsSplitter] matches. *)
Lemma equalsSplitter_inv line m :
  FindStringSubmatch equalsSplitter line = Some m ->
  exists m0 ws1 key ws2 ws3 val rest,
    m = [m0; key; val]
    /\ line = ws1 ++ key ++ ws2 ++ "=" ++ ws3 ++ val ++ rest
    /\ allBytes cls_s ws1 = true /\ allBytes cls_s ws2 = true
    /\ allBytes cls_s ws3 = true
    /\ key <> EmptyString /\ allBytes cls_S key = true
    /\ val <> EmptyString /\ allBytes cls_S_or_blank val = true.
Proof.
  unfold FindStringSubmatch, matchHere.
  cbn [equalsSplitter anchored body groups RSeq]. intros H.
  rewrite rmatch_cat, rmatch_star_set in H.
  apply greedy_sound in H as (ws1 & t1 & -> & Hws1 & H). cbv beta in H.
  rewrite rmatch_cat in H.
  destruct t1 as [|k0 t1]; [done|].
  rewrite rmatch_group_plus_set in H. destruct (cls_S k0) eqn:Hk0; [|done].
  apply greedy_sound in H as (key & t2 & -> & Hkey & H). cbv beta in H.
  rewrite rmatch_cat, rmatch_star_set in H.
  apply greedy_sound in H as (ws2 & t3 & -> & Hws2 & H). cbv beta in H.
  rewrite rmatch_cat in H. unfold RByte at 1 in H.
  destruct t3 as [|e t3]; [done|]. rewrite rmatch_set_cons in H.
  destruct (Ascii.eqb "=" e) eqn:He; [|done].
  apply Ascii.eqb_eq in He. subst e. cbv beta in H.
  rewrite rmatch_cat, rmatch_star_set in H.
  apply greedy_sound in H as (ws3 & t4 & -> & Hws3 & H). cbv beta in H.
  rewrite rmatch_cat in H.
  destruct t4 as [|v0 t4]; [done|].
  rewrite rmatch_group_plus_set in H.
  destruct (cls_S_or_blank v0) eqn:Hv0; [|done].
  apply greedy_sound in H as (val & t5 & -> & Hval & H). cbv beta in H.
  rewrite rmatch_star_set in H.
  apply greedy_sound in H as (ws4 & t6 & -> & Hws4 & H). cbv beta in H.
  injection H as <-.
  eexists _, ws1, (String k0 key), ws2, ws3, (String v0 val), (ws4 ++ t6).
  split; [reflexivity|]. split; [reflexivity|].
  repeat split; try done; simpl; by rewrite ?Hk0, ?Hv0.
Qed.

(** ** Trimming *)

Lemma trimLeftByte_first c s : firstByte (trimLeftByte c s) <> Some c.
Proof.
  induction s as [|b s IH]; [done|]. simpl.
  destruct (Ascii.eqb b c) eqn:E; [exact IH|].
  apply Ascii.eqb_neq in E. unfold firstByte. simpl. congruence.
Qed.

Lemma trimLeftByte_suffix c s : exists pre, s = pre ++ trimLeftByte c s.
Proof.
  induction s as [|b s [pre IH]]; [by exists EmptyString|]. simpl.
  destruct (Ascii.eqb b c).
  - exists (String b pre). rewrite sapp_cons. by rewrite <- IH.
  - by exists EmptyString.
Qed.

Lemma firstByte_app a b :
  a <> EmptyString -> firstByte (a ++ b) = firstByte a.
Proof. by destruct a. Qed.

Lemma Trim_ends s c :
  firstByte (Trim s c) <> Some c /\ lastByte (Trim s c) <> Some c.
Proof.
  unfold Trim.
  set (y := trimLeftByte c s). set (z := trimLeftByte c (srev y)).
  split.
  - destruct (trimLeftByte_suffix c (srev y)) as [pre Hpre]. fold z in Hpre.
    assert (Hy : y = srev z ++ srev pre).
    { by rewrite <- srev_app, <- Hpre, srev_involutive. }
    destruct (srev z) as [|b r] eqn:Ez; [by unfold firstByte|].
    rewrite <- (firstByte_app (String b r) (srev pre)) by done.
    rewrite <- Hy. apply trimLeftByte_first.
  - unfold lastByte. rewrite srev_involutive. apply trimLeftByte_first.
Qed.

Lemma HasPrefix_app s rest p :
  HasPrefix s p = true -> HasPrefix (s ++ rest) p = true.
Proof.
  unfold HasPrefix. revert s. induction p as [|c p IH]; intros s.
  { intros _. by destruct (s ++ rest). }
  destruct s as [|b s]; [done|]. rewrite sapp_cons. simpl.
  destruct (ascii_dec c b); [apply IH|done].
Qed.

Lemma allBytes_false_at p a c b :
  p c = false -> allBytes p (a ++ String c b) = false.
Proof.
  intros Hc. rewrite allBytes_app. simpl. rewrite Hc. apply andb_false_r.
Qed.

Lemma splitEqualsKeyVal_inv line key val :
  splitEqualsKeyVal line = inl (key, val) ->
  firstByte line <> Some "#"%char
  /\ exists m0 ws1 ws2 ws3 raw rest,
       FindStringSubmatch equalsSplitter line = Some [m0; key; raw]
       /\ val = Trim (TrimSpace raw) DQUOTE
       /\ line = ws1 ++ key ++ ws2 ++ "=" ++ ws3 ++ raw ++ rest
       /\ allBytes cls_s ws1 = true /\ allBytes cls_s ws2 = true
       /\ allBytes cls_s ws3 = true
       /\ key <> EmptyString /\ allBytes cls_S key = true
       /\ raw <> EmptyString /\ allBytes cls_S_or_blank raw = true.
Proof.
  unfold splitEqualsKeyVal. destruct line as [|c line]; [done|].
  destruct (Ascii.eqb c "#") eqn:Ec; [done|].
  destruct (FindStringSubmatch equalsSplitter (String c line)) as [m|] eqn:Em;
    [|done].
  destruct (equalsSplitter_inv _ _ Em)
    as (m0 & ws1 & k & ws2 & ws3 & raw & rest & -> & El & H1 & H2 & H3 & H4 & H5 & H6 & H7).
  intros H. injection H as <- <-. split.
  - unfold firstByte. simpl. apply Ascii.eqb_neq in Ec. congruence.
  - exists m0, ws1, ws2, ws3, raw, rest. done.
Qed.

(** X1.  What [splitEqualsKeyVal] returns without error: the key is not empty
    and holds no whitespace, the value neither starts nor ends with a double
    quote, the line does not start with a number sign, and the line reads
    whitespace, the key, whitespace, an equals sign and the rest. *)
Theorem splitEqualsKeyVal_returns (line key val : string) :
  splitEqualsKeyVal line = inl (key, val) ->
  key <> EmptyString /\ allBytes cls_S key = true
  /\ firstByte val <> Some DQUOTE /\ lastByte val <> Some DQUOTE
  /\ firstByte line <> Some "#"%char
  /\ exists ws1 ws2 rest,
       line = ws1 ++ key ++ ws2 ++ "=" ++ rest
       /\ allBytes cls_s ws1 = true /\ allBytes cls_s ws2 = true.
Proof.
  intros (Hhash & m0 & ws1 & ws2 & ws3 & raw & rest & _ & -> & -> & H)
    %splitEqualsKeyVal_inv.
  destruct H as (H1 & H2 & H3 & H4 & H5 & _).
  destruct (Trim_ends (TrimSpace raw) DQUOTE) as [Hf Hl].
  repeat split; try done.
  exists ws1, ws2, (ws3 ++ raw ++ rest). done.
Qed.

Lemma splitEqualsKeyVal_returns_witness :
  "a_single_key" <> EmptyString /\ allBytes cls_S "a_single_key" = true
  /\ firstByte "a_single_value" <> Some DQUOTE
  /\ lastByte "a_single_value" <> Some DQUOTE
  /\ firstByte "a_single_key=a_single_value" <> Some "#"%char
  /\ exists ws1 ws2 rest,
       "a_single_key=a_single_value" = ws1 ++ "a_single_key" ++ ws2 ++ "=" ++ rest
       /\ allBytes cls_s ws1 = true /\ allBytes cls_s ws2 = true.
Proof.
  apply (splitEqualsKeyVal_returns "a_single_key=a_single_value").
  vm_compute. reflexivity.
Defined.

Lemma splitEqualsKeyVal_needs_equals line :
  allBytes (notEq "="%char) line = true ->
  exists e, splitEqualsKeyVal line = inr e.
Proof.
  intros Hne. destruct (splitEqualsKeyVal line) as [[key val]|e] eqn:E;
    [|by exists e].
  apply splitEqualsKeyVal_inv in E
    as (_ & m0 & ws1 & ws2 & ws3 & raw & rest & _ & _ & -> & _).
  replace (ws1 ++ key ++ ws2 ++ "=" ++ ws3 ++ raw ++ rest)
    with ((ws1 ++ key ++ ws2) ++ String "=" (ws3 ++ raw ++ rest)) in Hne
    by (by rewrite !sapp_assoc).
  by rewrite (allBytes_false_at (notEq "=") _ "="%char) in Hne.
Qed.

(** X2.  [splitEqualsKeyVal] never returns its error on the number of matches:
    a match of [equalsSplitter] always has three entries. *)
Theorem splitEqualsKeyVal_matches_count (line : string) (n : nat) :
  splitEqualsKeyVal line <> inr (UnexpectedMatches n).
Proof.
  unfold splitEqualsKeyVal. destruct line as [|c line]; [done|].
  destruct (Ascii.eqb c "#"); [done|].
  destruct (FindStringSubmatch equalsSplitter (String c line)) as [m|] eqn:E;
    [|done].
  apply FindStringSubmatch_length in E.
  destruct m as [|m0 [|m1 [|m2 [|m3 m]]]]; done.
Qed.

(** ** A key that runs on *)

Lemma length_sapp a b :
  String.length (a ++ b) = String.length a + String.length b.
Proof.
  induction a as [|c a IH]; [done|]. rewrite sapp_cons. simpl. by rewrite IH.
Qed.

(** The star tries the longest run first: when the continuation accepts
    after a run [u], the star returns what the continuation returns after
    a run at least as long. *)
Lemma greedy_longest {R} p (k : Cont R) u : forall acc t caps y,
  allBytes p u = true -> k (acc ++ u) t caps = Some y ->
  exists u' t' x,
    u ++ t = u' ++ t' /\ allBytes p u' = true
    /\ String.length u <= String.length u'
    /\ greedy p k acc (u ++ t) caps = Some x
    /\ k (acc ++ u') t' caps = Some x.
Proof.
  induction u as [|c u IH]; intros acc t caps y Hu Hk.
  - rewrite sapp_nil_r in Hk. rewrite sapp_nil_l.
    destruct (greedy p k acc t caps) as [x|] eqn:E.
    + destruct (greedy_sound _ _ _ _ _ _ E) as (u' & t' & -> & Hu' & Hx).
      exists u', t', x. simpl. repeat split; try done. lia.
    + exfalso. destruct t as [|c t]; simpl in E; [congruence|].
      destruct (p c); [|congruence].
      destruct (greedy p k (acc ++ str c) t caps); congruence.
  - simpl in Hu. apply andb_true_iff in Hu as [Hc Hu].
    change (acc ++ String c u) with (acc ++ (str c ++ u)) in Hk.
    rewrite <- sapp_assoc in Hk.
    destruct (IH (acc ++ str c) t caps y Hu Hk)
      as (u' & t' & x & E & Hu' & Hlen & Hg & Hx).
    exists (String c u'), t', x. rewrite !sapp_cons, E.
    split; [done|]. split; [by simpl; rewrite Hc|]. split; [simpl; lia|].
    split.
    + simpl. rewrite Hc. rewrite <- E, Hg. done.
    + by rewrite sapp_assoc in Hx.
Qed.

Lemma greedy_some {R} p (k : Cont R) u acc t caps :
  allBytes p u = true -> is_Some (k (acc ++ u) t caps) ->
  is_Some (greedy p k acc (u ++ t) caps).
Proof.
  intros Hu [y Hy].
  destruct (greedy_longest p k u acc t caps y Hu Hy)
    as (u' & t' & x & _ & _ & _ & Hg & _).
  by exists x.
Qed.

Lemma greedy_accepts {R} p (k : Cont R) acc s caps :
  (forall w t c, is_Some (k w t c)) -> is_Some (greedy p k acc s caps).
Proof.
  intros Hk. revert acc. induction s as [|c s IH]; intros acc; simpl; [done|].
  destruct (p c); [|done].
  by destruct (IH (acc ++ str c)) as [x ->].
Qed.

(** The rest of the expression accepts a text that starts with whitespace,
    an equals sign, whitespace and the first byte of a value. *)
Lemma separator_accepts {R} i w1 w2 c v caps (k : Cont R) :
  (forall w t c, is_Some (k w t c)) ->
  allBytes cls_s w1 = true -> allBytes cls_s w2 = true ->
  cls_S_or_blank c = true ->
  is_Some
    (rmatch (RCat (RStar (RSet cls_s))
               (RCat (RByte "="%char)
                  (RCat (RStar (RSet cls_s))
                     (RCat (RGroup i (RPlus (RSet cls_S_or_blank)))
                        (RStar (RSet cls_s))))))
       (w1 ++ "=" ++ w2 ++ String c v) caps k).
Proof.
  intros Hk Hw1 Hw2 Hc. rewrite rmatch_cat, rmatch_star_set.
  apply greedy_some; [done|]. cbv beta.
  rewrite rmatch_cat. unfold RByte at 1. rewrite sapp_cons, rmatch_set_cons.
  change (Ascii.eqb "=" "=") with true. cbv beta iota.
  rewrite sapp_nil_l, rmatch_cat, rmatch_star_set.
  apply greedy_some; [done|]. cbv beta.
  rewrite rmatch_cat, rmatch_group_plus_set, Hc.
  apply greedy_accepts. intros w t c0. cbv beta.
  rewrite rmatch_star_set. apply greedy_accepts. intros; apply Hk.
Qed.

Lemma equalsSplitter_later_separator ws1 k0 key rest :
  allBytes cls_s ws1 = true -> cls_S k0 = true -> allBytes cls_S key = true ->
  laterSeparator rest ->
  yields (FindStringSubmatch equalsSplitter
            (ws1 ++ String k0 key ++ "=" ++ rest))
         (fun m => exists m0 u raw,
            m = [m0; String k0 u; raw]
            /\ String.length key < String.length u).
Proof.
  intros Hws1 Hk0 Hkey (x & w1 & w2 & c & v & -> & Hx & Hw1 & Hw2 & Hc).
  unfold FindStringSubmatch, matchHere.
  cbn [equalsSplitter anchored body groups RSeq].
  rewrite rmatch_cat, rmatch_star_set.
  apply yields_commit; [done|by rewrite sapp_cons; apply cls_s_not_S|].
  cbv beta.
  rewrite rmatch_cat, sapp_cons, rmatch_group_plus_set, Hk0.
  replace (key ++ "=" ++ x ++ w1 ++ "=" ++ w2 ++ String c v)
    with ((key ++ "=" ++ x) ++ (w1 ++ "=" ++ w2 ++ String c v))
    by (by rewrite !sapp_assoc).
  assert (Hu : allBytes cls_S (key ++ "=" ++ x) = true).
  { by rewrite !allBytes_app, Hkey, Hx. }
  match goal with
  | |- yields (greedy _ ?K _ _ ?C) _ =>
      assert (Hy : is_Some (K (EmptyString ++ (key ++ "=" ++ x))
                              (w1 ++ "=" ++ w2 ++ String c v) C))
  end.
  { cbv beta. apply separator_accepts; [|done..]. intros; cbv beta; done. }
  destruct Hy as [y Hy].
  match goal with
  | |- yields (greedy ?p ?K ?acc _ ?C) _ =>
      destruct (greedy_longest p K (key ++ "=" ++ x) acc
                  (w1 ++ "=" ++ w2 ++ String c v) C y Hu Hy)
        as (u' & t' & m & _ & _ & Hlen & Hg & Hm)
  end.
  exists m. split; [exact Hg|]. cbv beta in Hm.
  rewrite rmatch_cat, rmatch_star_set in Hm.
  apply greedy_sound in Hm as (a1 & t1 & -> & _ & Hm). cbv beta in Hm.
  rewrite rmatch_cat in Hm. unfold RByte at 1 in Hm.
  destruct t1 as [|e t1]; [done|]. rewrite rmatch_set_cons in Hm.
  destruct (Ascii.eqb "=" e); [|done]. cbv beta in Hm.
  rewrite rmatch_cat, rmatch_star_set in Hm.
  apply greedy_sound in Hm as (a2 & t2 & -> & _ & Hm). cbv beta in Hm.
  rewrite rmatch_cat in Hm. destruct t2 as [|v0 t2]; [done|].
  rewrite rmatch_group_plus_set in Hm.
  destruct (cls_S_or_blank v0); [|done].
  apply greedy_sound in Hm as (a3 & t3 & -> & _ & Hm). cbv beta in Hm.
  rewrite rmatch_star_set in Hm.
  apply greedy_sound in Hm as (a4 & t4 & -> & _ & Hm). cbv beta in Hm.
  injection Hm as <-.
  eexists _, u', _. split; [reflexivity|].
  rewrite !length_sapp in Hlen. simpl in Hlen. lia.
Qed.

(** X19.  When the key is directly followed by its equals sign and the text
    after it holds a later place where the key could end (non-whitespace
    bytes, whitespace, one more equals sign, whitespace and the first byte
    of a value), [splitEqualsKeyVal] returns a key longer than the key of
    the line: the group of the key takes the longest text it can. *)
Theorem splitEqualsKeyVal_later_separator (ws1 key rest : string) :
  allBytes cls_s ws1 = true ->
  key <> EmptyString -> allBytes cls_S key = true ->
  (ws1 = EmptyString -> HasPrefix key "#" = false) ->
  laterSeparator rest ->
  exists k v,
    splitEqualsKeyVal (ws1 ++ key ++ "=" ++ rest) = inl (k, v)
    /\ String.length key < String.length k.
Proof.
  intros Hws1 Hkey0 Hkey Hhash Hlater.
  destruct key as [|k0 key]; [done|].
  simpl in Hkey. apply andb_true_iff in Hkey as [Hk0 Hkey].
  destruct (equalsSplitter_later_separator ws1 k0 key rest)
    as (m & Hm & m0 & u & raw & -> & Hlen); try done.
  remember (ws1 ++ String k0 key ++ "=" ++ rest) as line eqn:El.
  assert (Hfirst : exists c t, line = String c t
                               /\ Ascii.eqb c "#"%char = false).
  { destruct ws1 as [|c1 ws1].
    - rewrite sapp_nil_l, sapp_cons in El. exists k0. eexists.
      split; [exact El|].
      specialize (Hhash eq_refl). unfold HasPrefix in Hhash. simpl in Hhash.
      destruct (ascii_dec "#" k0) as [<-|Hne].
      + by destruct key.
      + apply Ascii.eqb_neq. congruence.
    - rewrite sapp_cons in El. exists c1. eexists. split; [exact El|].
      simpl in Hws1. apply andb_true_iff in Hws1 as [Hc1 _].
      by apply cls_s_not_hash. }
  destruct Hfirst as (c & t & -> & Hc).
  exists (String k0 u), (Trim (TrimSpace raw) DQUOTE).
  unfold splitEqualsKeyVal. rewrite Hc, Hm. split; [reflexivity|].
  simpl. lia.
Qed.

Lemma splitEqualsKeyVal_later_separator_witness :
  exists k v,
    splitEqualsKeyVal (EmptyString ++ "A" ++ "=" ++ "b=c") = inl (k, v)
    /\ String.length "A" < String.length k.
Proof.
  apply (splitEqualsKeyVal_later_separator EmptyString "A" "b=c").
  - reflexivity.
  - discriminate.
  - reflexivity.
  - reflexivity.
  - exists "b", EmptyString, EmptyString, "c"%char, EmptyString.
    repeat split; reflexivity.
Defined.

(** ** Lines *)

Lemma allBytes_rev_onto p s acc :
  allBytes p (rev_onto s acc) = allBytes p s && allBytes p acc.
Proof.
  revert acc. induction s as [|c s IH]; intros acc; [reflexivity|].
  simpl. rewrite IH. simpl. by rewrite andb_assoc, (andb_comm (allBytes p s)).
Qed.

Lemma allBytes_srev p s : allBytes p (srev s) = allBytes p s.
Proof. unfold srev. by rewrite allBytes_rev_onto, andb_true_r. Qed.

Lemma length_rev_onto s acc :
  String.length (rev_onto s acc) = String.length s + String.length acc.
Proof.
  revert acc. induction s as [|c s IH]; intros acc; [reflexivity|].
  simpl. rewrite IH. simpl. lia.
Qed.

Lemma length_srev s : String.length (srev s) = String.length s.
Proof. unfold srev. rewrite length_rev_onto. simpl. lia. Qed.

Lemma rawLines_allBytes p s cur :
  allBytes p s = true -> allBytes p cur = true ->
  Forall (fun l => allBytes p l = true) (rawLines s cur).
Proof.
  revert cur. induction s as [|c s IH]; intros cur Hs Hcur; simpl.
  - destruct cur; constructor; [|constructor]. by rewrite allBytes_srev.
  - simpl in Hs. apply andb_true_iff in Hs as [Hc Hs].
    destruct (Ascii.eqb c LF).
    + constructor; [by rewrite allBytes_srev|]. by apply IH.
    + apply IH; [done|]. simpl. by rewrite Hc.
Qed.

Lemma rawLines_length s cur :
  Forall (fun l => String.length l <= String.length s + String.length cur)
         (rawLines s cur).
Proof.
  revert cur. induction s as [|c s IH]; intros cur; simpl.
  - destruct cur; constructor; [|constructor]. rewrite length_srev. lia.
  - destruct (Ascii.eqb c LF).
    + constructor; [rewrite length_srev; lia|].
      eapply Forall_impl; [apply IH|]. simpl. intros; lia.
    + eapply Forall_impl; [apply IH|]. simpl. intros; lia.
Qed.

Lemma dropCR_allBytes p l : allBytes p l = true -> allBytes p (dropCR l) = true.
Proof.
  intros Hl. unfold dropCR. destruct (srev l) as [|c r] eqn:E; [done|].
  destruct (Ascii.eqb c CR); [|done].
  rewrite allBytes_srev. rewrite <- allBytes_srev, E in Hl. simpl in Hl.
  by apply andb_true_iff in Hl as [_ ?].
Qed.

Lemma parseLines_without_equals ls props :
  Forall (fun l => allBytes (notEq "="%char) l = true) ls ->
  fst (parseLines ls props) = props.
Proof.
  induction 1 as [|l ls Hl Hls IH]; simpl; [done|].
  destruct (tooLong l); [done|].
  destruct (splitEqualsKeyVal_needs_equals (dropCR l)) as [e ->]; [|done].
  by apply dropCR_allBytes.
Qed.

Lemma parseLines_short ls props :
  Forall (fun l => tooLong l = false) ls -> snd (parseLines ls props) = false.
Proof.
  intros H. revert props. induction H as [|l ls Hl Hls IH]; intros props;
    simpl; [done|].
  rewrite Hl. destruct (splitEqualsKeyVal (dropCR l)) as [[k v]|e]; apply IH.
Qed.

Lemma parseOSRelease_short contents :
  (strlen contents < MaxScanTokenSize)%N -> snd (parseOSRelease contents) = false.
Proof.
  intros Hlen. unfold parseOSRelease. apply parseLines_short.
  eapply Forall_impl; [apply rawLines_length|]. simpl. intros l Hl.
  unfold tooLong. apply N.leb_gt. unfold strlen in *. lia.
Qed.

(** X3.  [parseOSRelease] on a text without an equals sign returns the empty
    map, whatever the number of lines, and no error when the text is shorter
    than the scanner's buffer. *)
Theorem parseOSRelease_without_equals (contents : string) :
  allBytes (notEq "="%char) contents = true ->
  fst (parseOSRelease contents) = ∅
  /\ ((strlen contents < MaxScanTokenSize)%N ->
      parseOSRelease contents = (∅, false)).
Proof.
  intros Hne.
  assert (Hmap : fst (parseOSRelease contents) = ∅).
  { unfold parseOSRelease. apply parseLines_without_equals.
    by apply rawLines_allBytes. }
  split; [exact Hmap|]. intros Hlen.
  pose proof (parseOSRelease_short contents Hlen) as Herr.
  destruct (parseOSRelease contents). simpl in *. congruence.
Qed.

Lemma parseOSRelease_without_equals_witness :
  fst (parseOSRelease "SOMETHING-NO-SEPARATOR") = ∅
  /\ ((strlen "SOMETHING-NO-SEPARATOR" < MaxScanTokenSize)%N ->
      parseOSRelease "SOMETHING-NO-SEPARATOR" = (∅, false)).
Proof. apply parseOSRelease_without_equals. reflexivity. Defined.

Lemma parseLines_snoc ls l props :
  snd (parseLines ls props) = false ->
  parseLines (ls ++ [l])%list props
  = parseLines [l] (fst (parseLines ls props)).
Proof.
  revert props. induction ls as [|l0 ls IH]; intros props Herr; [done|].
  simpl in *. destruct (tooLong l0); [done|].
  destruct (splitEqualsKeyVal (dropCR l0)) as [[k v]|e]; by apply IH.
Qed.

Lemma rawLines_after_newline a b cur :
  rawLines (a ++ String LF b) cur
  = (rawLines (a ++ str LF) cur ++ rawLines b EmptyString)%list.
Proof.
  revert cur. induction a as [|c a IH]; intros cur.
  - rewrite !sapp_nil_l. reflexivity.
  - rewrite !sapp_cons. simpl. destruct (Ascii.eqb c LF).
    + by rewrite IH.
    + apply IH.
Qed.

Lemma rawLines_one_line l cur :
  allBytes (notEq LF) l = true ->
  rawLines (l ++ str LF) cur = [srev cur ++ l].
Proof.
  revert cur. induction l as [|c l IH]; intros cur Hl.
  - rewrite sapp_nil_l, sapp_nil_r. reflexivity.
  - simpl in Hl. apply andb_true_iff in Hl as [Hc Hl].
    rewrite sapp_cons. simpl.
    assert (Ec : Ascii.eqb c LF = false).
    { unfold notEq in Hc. apply negb_true_iff in Hc.
      by rewrite Ascii.eqb_sym. }
    rewrite Ec, IH by done. rewrite srev_cons, sapp_assoc. reflexivity.
Qed.

Lemma lastByte_newline t :
  lastByte t = Some LF -> exists a, t = a ++ str LF.
Proof.
  unfold lastByte. destruct (srev t) as [|c r] eqn:E; [done|]. simpl.
  intros [= ->]. exists (srev r).
  by rewrite <- (srev_involutive t), E, srev_cons.
Qed.

Lemma rawLines_append_line text line :
  endsLine text -> allBytes (notEq LF) line = true ->
  rawLines (text ++ line ++ str LF) EmptyString
  = (rawLines text EmptyString ++ [line])%list.
Proof.
  intros [->|Hlast] Hline.
  - rewrite sapp_nil_l. by rewrite rawLines_one_line.
  - destruct (lastByte_newline _ Hlast) as [a ->].
    rewrite sapp_assoc. change (str LF ++ line ++ str LF)
      with (String LF (line ++ str LF)).
    rewrite rawLines_after_newline. by rewrite (rawLines_one_line line).
Qed.

(** X4.  [parseOSRelease] reads line after line, and a later line overwrites
    an earlier one: after a text that ends a line and is read without error,
    one more line that [splitEqualsKeyVal] accepts gives the map of the text
    with the key set to the value of that line. *)
Theorem parseOSRelease_later_line_wins (text line key val : string) :
  endsLine text -> snd (parseOSRelease text) = false ->
  allBytes (notEq LF) line = true -> tooLong line = false ->
  splitEqualsKeyVal (dropCR line) = inl (key, val) ->
  parseOSRelease (text ++ line ++ str LF)
  = (<[key := val]> (fst (parseOSRelease text)), false)
  /\ fst (parseOSRelease (text ++ line ++ str LF)) !! key = Some val.
Proof.
  intros Hends Herr Hline Hlong Hsplit.
  assert (Hrun : parseOSRelease (text ++ line ++ str LF)
                 = (<[key := val]> (fst (parseOSRelease text)), false)).
  { unfold parseOSRelease in *. rewrite rawLines_append_line by done.
    rewrite parseLines_snoc by done. simpl. by rewrite Hlong, Hsplit. }
  split; [exact Hrun|]. rewrite Hrun. simpl. apply lookup_insert_eq.
Qed.

Lemma parseOSRelease_later_line_wins_witness :
  parseOSRelease (("ID=a" ++ str LF) ++ "ID=b" ++ str LF)
  = (<["ID" := "b"]> (fst (parseOSRelease ("ID=a" ++ str LF))), false)
  /\ fst (parseOSRelease (("ID=a" ++ str LF) ++ "ID=b" ++ str LF)) !! "ID"
     = Some "b".
Proof.
  apply parseOSRelease_later_line_wins.
  - right. reflexivity.
  - reflexivity.
  - reflexivity.
  - reflexivity.
  - vm_compute. reflexivity.
Defined.

(** X5.  [parseOSRelease] passes over a line that is blank, starts with a
    number sign or holds no equals sign: the map and the error flag are
    those of the text before the line. *)
Theorem parseOSRelease_skips_line (text line : string) :
  endsLine text -> snd (parseOSRelease text) = false ->
  allBytes (notEq LF) line = true -> tooLong line = false ->
  dropCR line = EmptyString \/ firstByte (dropCR line) = Some "#"%char
  \/ allBytes (notEq "="%char) (dropCR line) = true ->
  parseOSRelease (text ++ line ++ str LF) = parseOSRelease text.
Proof.
  intros Hends Herr Hline Hlong Hskip.
  assert (Hsplit : exists e, splitEqualsKeyVal (dropCR line) = inr e).
  { destruct Hskip as [-> |[Hhash|Hne]].
    - by eexists.
    - unfold splitEqualsKeyVal. destruct (dropCR line) as [|c l]; [by eexists|].
      unfold firstByte in Hhash. simpl in Hhash. injection Hhash as ->.
      by eexists.
    - by apply splitEqualsKeyVal_needs_equals. }
  destruct Hsplit as [e Hsplit].
  unfold parseOSRelease in *. rewrite rawLines_append_line by done.
  rewrite parseLines_snoc by done. simpl. rewrite Hlong, Hsplit.
  destruct (parseLines (rawLines text EmptyString) ∅) as [m b].
  simpl in *. by subst b.
Qed.

Lemma parseOSRelease_skips_line_witness :
  parseOSRelease (("ID=a" ++ str LF) ++ "# a comment" ++ str LF)
  = parseOSRelease ("ID=a" ++ str LF).
Proof.
  apply parseOSRelease_skips_line.
  - right. reflexivity.
  - reflexivity.
  - reflexivity.
  - reflexivity.
  - right. left. reflexivity.
Defined.

(** ** Release lines *)

Lemma releaseSplitter_needs_space contents :
  allBytes (notEq SP) contents = true ->
  FindStringSubmatch releaseSplitter contents = None.
Proof.
  intros Hne.
  destruct (FindStringSubmatch releaseSplitter contents) as [m|] eqn:E; [|done].
  exfalso. revert E. unfold FindStringSubmatch, matchHere.
  cbn [releaseSplitter anchored body groups RSeq]. intros H.
  rewrite rmatch_cat in H. destruct contents as [|c t]; [done|].
  rewrite rmatch_group_plus_set in H. destruct (cls_dot c); [|done].
  apply greedy_sound in H as (u & t2 & -> & _ & H). cbv beta in H.
  rewrite rmatch_cat in H. unfold RByte at 1 in H.
  destruct t2 as [|e t3]; [done|]. rewrite rmatch_set_cons in H.
  destruct (Ascii.eqb SP e) eqn:He; [|done].
  apply Ascii.eqb_eq in He. subst e.
  change (String c (u ++ String SP t3)) with (String c u ++ String SP t3) in Hne.
  by rewrite (allBytes_false_at (notEq SP) _ SP) in Hne.
Qed.

Lemma parseRedhatReleaseContents_value contents expectedDistro :
  FindStringSubmatch releaseSplitter contents <> None ->
  exists r, parseRedhatReleaseContents contents expectedDistro = Value r.
Proof.
  unfold parseRedhatReleaseContents.
  destruct (FindStringSubmatch releaseSplitter contents) as [m|] eqn:E;
    [intros _|done].
  apply FindStringSubmatch_length in E.
  destruct m as [|m0 [|m1 [|m2 [|m3 [|m4 [|m5 m]]]]]]; try done.
  simpl. destruct (HasPrefix m0 expectedDistro); simpl; by eexists.
Qed.

(** X6.  The three outcomes of [parseRedhatReleaseContents]: it panics on index
    0 of an empty slice exactly when [releaseSplitter] does not match; when
    it reports a match the contents start with the expected name, the
    expression has matched with five entries and the version is the fourth,
    trimmed; when it reports no match the version is empty. *)
Theorem parseRedhatReleaseContents_outcome (contents expectedDistro : string) :
  match parseRedhatReleaseContents contents expectedDistro with
  | Fault p =>
      p = IndexOutOfRange 0 0
      /\ FindStringSubmatch releaseSplitter contents = None
  | Value (true, version) =>
      HasPrefix contents expectedDistro = true
      /\ exists m0 m1 m2 m3 m4,
           FindStringSubmatch releaseSplitter contents
           = Some [m0; m1; m2; m3; m4]
           /\ version = TrimSpace m3
  | Value (false, version) =>
      version = EmptyString
      /\ FindStringSubmatch releaseSplitter contents <> None
  end.
Proof.
  unfold parseRedhatReleaseContents.
  destruct (FindStringSubmatch releaseSplitter contents) as [m|] eqn:E;
    [|done].
  pose proof (FindStringSubmatch_length _ _ _ E) as Hlen.
  assert (Hpre : exists m0 rest, m !! 0 = Some m0 /\ contents = m0 ++ rest).
  { unfold FindStringSubmatch in E. simpl in E.
    by apply matchHere_shape in E as [_ ?]. }
  destruct m as [|m0 [|m1 [|m2 [|m3 [|m4 [|m5 m]]]]]]; try done.
  simpl. destruct (HasPrefix m0 expectedDistro) eqn:Hp; simpl; [|done].
  split; [|by eexists _, _, _, _, _].
  destruct Hpre as (m0' & rest & [= <-] & ->). by apply HasPrefix_app.
Qed.

(** X7.  [parseRedhatReleaseContents] panics on every text that holds no
    space. *)
Theorem parseRedhatReleaseContents_without_space (contents expectedDistro : string) :
  allBytes (notEq SP) contents = true ->
  parseRedhatReleaseContents contents expectedDistro
  = Fault (IndexOutOfRange 0 0).
Proof.
  intros H. by apply parseRedhatReleaseContents_no_match,
    releaseSplitter_needs_space.
Qed.

Lemma parseRedhatReleaseContents_without_space_witness :
  parseRedhatReleaseContents "CentOS" "CentOS" = Fault (IndexOutOfRange 0 0).
Proof. apply parseRedhatReleaseContents_without_space. reflexivity. Defined.

(** ** Candidate files *)

Lemma readBinaryFileFunc_skip pre rest w :
  Forall (skipped w) pre ->
  readBinaryFileFunc (pre ++ rest)%list w = readBinaryFileFunc rest w.
Proof.
  induction 1 as [|p pre Hp Hpre IH]; [done|].
  rewrite <- app_comm_cons, readBinaryFileFunc_cons.
  by destruct Hp as [-> | ->].
Qed.

Lemma readFileFunc_true filePaths w data w' :
  readFileFunc filePaths w = Returned (true, data) w' ->
  w' = w /\ exists pre p post,
    filePaths = (pre ++ p :: post)%list /\ Forall (skipped w) pre
    /\ files w !! p = Some (Regular data false).
Proof.
  unfold readFileFunc, bind at 1.
  induction filePaths as [|p ps IH]; [done|].
  rewrite readBinaryFileFunc_cons.
  destruct (files w !! p) as [[| |d fault]|] eqn:E.
  - intros (-> & pre & q & post & -> & Hpre & Hq)%IH. split; [done|].
    exists (p :: pre), q, post. split; [done|]. split; [|done].
    constructor; [by right|done].
  - done.
  - destruct fault; [done|]. intros [= -> ->]. split; [done|].
    exists [], p, ps. done.
  - intros (-> & pre & q & post & -> & Hpre & Hq)%IH. split; [done|].
    exists (p :: pre), q, post. split; [done|]. split; [|done].
    constructor; [by left|done].
Qed.

Lemma readFileFunc_false filePaths w data w' :
  readFileFunc filePaths w = Returned (false, data) w' -> data = EmptyString.
Proof.
  unfold readFileFunc, bind at 1.
  destruct (readBinaryFileFunc filePaths w) as [q|[[reader path]|path] w1];
    [done| |by intros [= <- _]].
  destruct (failing reader); [by intros [= <- _]|done].
Qed.

Lemma readFileFunc_returns filePaths w :
  exists r w', readFileFunc filePaths w = Returned r w'.
Proof.
  unfold readFileFunc, bind at 1.
  induction filePaths as [|p ps IH]; [by eexists _, _|].
  rewrite readBinaryFileFunc_cons.
  destruct (files w !! p) as [[| |d fault]|]; try done;
    [by eexists _, _|destruct fault; by eexists _, _].
Qed.

Lemma readFileFunc_after_skipped pre p post w data :
  Forall (skipped w) pre -> files w !! p = Some (Regular data false) ->
  readFileFunc (pre ++ p :: post) w = Returned (true, data) w.
Proof.
  intros Hpre Hp. unfold readFileFunc, bind at 1.
  rewrite readBinaryFileFunc_skip, readBinaryFileFunc_cons, Hp by done.
  reflexivity.
Qed.

Lemma readFileFunc_unreadable pre p post w :
  Forall (skipped w) pre -> unreadable w p ->
  returned (readFileFunc (pre ++ p :: post) w) = Some (false, EmptyString).
Proof.
  intros Hpre Hp. unfold readFileFunc, bind at 1.
  rewrite readBinaryFileFunc_skip, readBinaryFileFunc_cons by done.
  destruct Hp as [-> | [data ->]]; reflexivity.
Qed.

Lemma readBinaryFileFunc_opened filePaths w reader path w' :
  readBinaryFileFunc filePaths w = Returned (inl (reader, path)) w' ->
  w' = w /\ path ∈ filePaths
  /\ files w !! path = Some (Regular (pending reader) (failing reader)).
Proof.
  induction filePaths as [|p ps IH]; [done|].
  rewrite readBinaryFileFunc_cons. rewrite elem_of_cons.
  destruct (files w !! p) as [[| |d fault]|] eqn:E.
  - intros (-> & Hin & Hp)%IH. auto.
  - done.
  - intros [= <- <- ->]. auto.
  - intros (-> & Hin & Hp)%IH. auto.
Qed.

(** X8.  [readFileFunc] reads the first candidate that exists and is not a
    directory: after candidates that are missing or directories, a file that
    can be read is returned with its contents and the world unchanged, and a
    file that cannot be opened or read gives not found with empty contents,
    the later candidates being left alone; conversely contents returned are
    those of such a first candidate, and the call never panics. *)
Theorem readFileFunc_first_candidate (w : World) :
  (forall pre p post, Forall (skipped w) pre ->
     (forall data, files w !! p = Some (Regular data false) ->
        readFileFunc (pre ++ p :: post) w = Returned (true, data) w)
     /\ (unreadable w p ->
         returned (readFileFunc (pre ++ p :: post) w)
         = Some (false, EmptyString)))
  /\ (forall filePaths,
        match readFileFunc filePaths w with
        | Returned (true, data) w' =>
            w' = w /\ exists pre p post,
              filePaths = (pre ++ p :: post)%list /\ Forall (skipped w) pre
              /\ files w !! p = Some (Regular data false)
        | Returned (false, data) w' => data = EmptyString
        | Panicked _ => False
        end).
Proof.
  split.
  - intros pre p post Hpre. split.
    + intros data Hp. by apply readFileFunc_after_skipped.
    + by apply readFileFunc_unreadable.
  - intros filePaths.
    destruct (readFileFunc_returns filePaths w) as ([[|] data] & w' & E);
      rewrite E.
    + by apply readFileFunc_true.
    + by eapply readFileFunc_false.
Qed.

Lemma readFileFunc_first_candidate_witness :
  readFileFunc (["/etc/centos-release"] ++ "/etc/redhat-release" :: [])
    oracleWorld
  = Returned (true, "Red Hat Enterprise Linux Server release 7.6 (Maipo)")
      oracleWorld.
Proof.
  refine (proj1 (proj1 (readFileFunc_first_candidate oracleWorld)
                   ["/etc/centos-release"] "/etc/redhat-release" [] _) _ _).
  - constructor; [left; reflexivity|constructor].
  - reflexivity.
Defined.

(** ** What each test can return *)

Ltac answers_auto :=
  intros lsb os w b d w' Hrun;
  unfold noMatch, bind, ret, lift in Hrun;
  repeat (case_match; simplify_eq);
  simpl; try done;
  try (split; [|done]; rewrite ?elem_of_cons; by auto);
  eauto.

Lemma answers_IsOracleLinux : answers IsOracleLinux [oracleId].
Proof. unfold IsOracleLinux. answers_auto. Qed.

Lemma answers_IsMXLinux : answers IsMXLinux [mxId].
Proof. unfold IsMXLinux. answers_auto. Qed.

Lemma answers_more t ids extra :
  answers t ids -> answers t (extra :: ids).
Proof.
  intros H lsb os w b d w' Hrun. specialize (H lsb os w b d w' Hrun).
  destruct b; [|done]. destruct H as (Hin & ?). split; [|done].
  rewrite elem_of_cons. by right.
Qed.

Lemma answers_identities :
  Forall (fun '(t, ids) => answers t ids) identities.
Proof.
  pose proof answers_IsOracleLinux as HO. pose proof answers_IsMXLinux as HM.
  unfold identities.
  repeat (apply List.Forall_cons; [|]); try apply List.Forall_nil;
    try assumption.
  all: unfold IsCentOS, IsRHEL, IsUbuntu, IsDebian, IsAmazonLinux, IsFedora,
         IsOpenSuSE, IsSLES, IsPhoton, IsAlpine, IsArchLinux, IsGentoo, IsKali,
         IsScientificLinux, IsSlackware, IsMageia, IsClearLinux, IsMint,
         IsNovellOES, IsPuppy, IsRancherOS, IsAlt, IsCrux, IsSourceMage,
         IsAndroid, IsYellowDog, IsBusyBox, IsNixOS.
  all: intros lsb os w b d w' Hrun;
    unfold noMatch, bind, ret, lift in Hrun;
    repeat (case_match; simplify_eq); simpl.
  all: first
         [ done
         | split; [|done]; rewrite ?elem_of_cons; by auto
         | match goal with
           | H : IsOracleLinux _ _ _ = _ |- _ =>
               exact (answers_more _ _ _ HO _ _ _ _ _ _ H)
           | H : IsMXLinux _ _ _ = _ |- _ =>
               exact (answers_more _ _ _ HM _ _ _ _ _ _ H)
           end ].
Qed.

(** X9.  The identity of the records: each test of [DistroTests], and
    [IsNixOS], returns on a match a record with the identifier and name
    listed for it (the Oracle Linux pair for the four tests of the Red Hat
    family, the MX Linux pair for the Debian test) and the two maps it was
    given, and on no match the zero record. *)
Theorem tests_answer :
  Forall (fun '(t, ids) => answers t ids) identities
  /\ (take (length DistroTests) identities).*1 = DistroTests.
Proof. split; [apply answers_identities|reflexivity]. Qed.

(** ** The record of the classifier *)

Lemma beforeFirstSpace_empty s :
  nonEmpty s = true -> beforeFirstSpace s = EmptyString ->
  HasPrefix s " " = true.
Proof.
  intros Hs Hb. destruct (HasPrefix s " ") eqn:E; [done|].
  pose proof (beforeFirstSpace_nonEmpty s Hs E) as Hn.
  rewrite Hb in Hn. done.
Qed.

Lemma runTests_refused tests :
  Forall (fun t : DistroTest => forall lsb os, reads_only (t lsb os)) tests ->
  forall i lsb os w0 w called r w',
    files w = files w0 ->
    runTests tests i lsb os w = Returned (called, (false, r)) w' ->
    forall j t, tests !! j = Some t -> refuses lsb os t w0.
Proof.
  induction 1 as [|t0 ts Ht Hts IH]; intros i lsb os w0 w called r w' Hw Hrun;
    [done|].
  simpl in Hrun. unfold bind in Hrun.
  destruct (t0 lsb os w) as [p|[b d0] w1] eqn:E; [done|].
  destruct b; [unfold ret in Hrun; by simplify_eq|].
  destruct (runTests ts (S i) lsb os w1) as [p|[c [b' d']] w2] eqn:E2; [done|].
  unfold ret in Hrun. simplify_eq.
  intros [|j] t Hj; simpl in Hj.
  - simplify_eq. unfold refuses.
    rewrite (reads_only_returned _ w0 w (Ht lsb os)) by done. by rewrite E.
  - eapply (IH (S i) lsb os w0 w1); [|exact E2|exact Hj].
    rewrite <- Hw. by eapply reads_only_files; [apply Ht|].
Qed.

(** X10.  The record of [discoverDistroFromProperties] has an identifier that is
    not empty; its name is empty only when every test refused, the os-release
    map holds no NAME and its PRETTY_NAME starts with a space. *)
Theorem classifier_name_and_id (lsb os : ReleaseDetails) (w : World)
    (d : LinuxDistro) :
  returned (discoverDistroFromProperties lsb os w) = Some d ->
  ID d <> EmptyString
  /\ (Name d = EmptyString ->
      at_key os "NAME" = EmptyString
      /\ HasPrefix (at_key os "PRETTY_NAME") " " = true
      /\ (forall j t, DistroTests !! j = Some t -> refuses lsb os t w)).
Proof.
  intros Hret. destruct (returned_Some _ _ Hret) as [w' Hrun].
  split; [by eapply classifier_ID_nonEmpty|].
  intros Hname. revert Hrun.
  unfold discoverDistroFromProperties, discoverDistroTraced, discoverWith.
  unfold bind at 1 2. intros Hrun.
  destruct (runTests DistroTests 0 lsb os w) as [p|[c [b d0]] w1] eqn:E;
    [done|].
  destruct b; cbn -[BestGuess] in Hrun.
  - unfold ret in Hrun. simplify_eq.
    by destruct (runTests_fills _ fills_DistroTests _ _ _ _ _ _ _ E) as [Hn _].
  - unfold bind in Hrun.
    destruct (BestGuess lsb os w1) as [p|g w2] eqn:EB; [done|].
    unfold ret in Hrun. simplify_eq.
    unfold BestGuess, bind, LogWarnf, logLine, ret in EB.
    injection EB as <- _. simpl in Hname.
    assert (Hall : forall j t, DistroTests !! j = Some t -> refuses lsb os t w).
    { by eapply (runTests_refused _ reads_only_DistroTests 0 lsb os w w). }
    destruct (nonEmpty (at_key os "NAME")) eqn:E1.
    { apply nonEmpty_true in E1. done. }
    apply nonEmpty_false in E1. split; [done|]. split; [|done].
    destruct (nonEmpty (at_key os "PRETTY_NAME")) eqn:E2.
    { by apply beforeFirstSpace_empty. }
    destruct (nonEmpty (at_key lsb "DISTRIB_ID")) eqn:E3.
    { apply nonEmpty_true in E3. done. }
    destruct (nonEmpty (at_key os "ID")) eqn:E4; [|done].
    apply nonEmpty_true in E4. done.
Qed.

Lemma classifier_name_and_id_witness :
  "unknown" <> EmptyString
  /\ (EmptyString = EmptyString ->
      at_key osPrettyLeadingSpace "NAME" = EmptyString
      /\ HasPrefix (at_key osPrettyLeadingSpace "PRETTY_NAME") " " = true
      /\ (forall j t, DistroTests !! j = Some t ->
                      refuses ∅ osPrettyLeadingSpace t emptyWorld)).
Proof.
  apply (classifier_name_and_id ∅ osPrettyLeadingSpace emptyWorld
           {| Name := EmptyString; ID := "unknown"; Version := "unknown";
              LsbRelease := ∅; OsRelease := osPrettyLeadingSpace |}).
  vm_compute. reflexivity.
Defined.

(** ** Classification without a fault *)

Section Returns.
Variable F : gmap string FileNode.
Hypothesis HF : releaseFilesMatch F.

Lemma returns_ret {A} (a : A) : returns_in F (ret a).
Proof. intros w Hw. by exists a, w. Qed.

Lemma returns_bind {A B} (m : M A) (f : A -> M B) :
  returns_in F m -> (forall a, returns_in F (f a)) -> returns_in F (bind m f).
Proof.
  intros Hm Hf w Hw. destruct (Hm w Hw) as (a & w1 & E & Hw1).
  destruct (Hf a w1 Hw1) as (b & w2 & E2 & Hw2).
  exists b, w2. unfold bind. by rewrite E.
Qed.

Lemma returns_logLine sev fmt : returns_in F (logLine sev fmt).
Proof. intros w Hw. by eexists _, _. Qed.

Lemma returns_readBinaryFileFunc filePaths :
  returns_in F (readBinaryFileFunc filePaths).
Proof.
  intros w Hw. induction filePaths as [|p ps IH]; [by eexists _, _|].
  rewrite readBinaryFileFunc_cons.
  destruct (files w !! p) as [[| |d fault]|]; try done; by eexists _, _.
Qed.

(** What follows a read of candidate files returns, when it returns on the
    contents of each candidate that resolves and on the answer not found. *)
Lemma returns_readFileFunc {B} filePaths (k : bool * string -> M B) :
  (forall p data, p ∈ filePaths -> F !! p = Some (Regular data false) ->
                  returns_in F (k (true, data))) ->
  returns_in F (k (false, EmptyString)) ->
  returns_in F (bind (readFileFunc filePaths) k).
Proof.
  intros Htrue Hfalse w Hw.
  destruct (readFileFunc_returns filePaths w) as ([[|] data] & w1 & E).
  - apply readFileFunc_true in E as Hshape.
    destruct Hshape as (-> & pre & p & post & -> & _ & Hp).
    unfold bind. rewrite E. apply Htrue with (p := p); [|congruence|done].
    rewrite elem_of_app, elem_of_cons. auto.
  - assert (Hw1 : files w1 = F).
    { rewrite <- Hw. eapply reads_only_files; [apply reads_only_readFileFunc|].
      exact E. }
    rewrite (readFileFunc_false _ _ _ _ E) in E.
    unfold bind. rewrite E. by apply Hfalse.
Qed.

Lemma returns_parse {B} p data expected (k : bool * string -> M B) :
  p ∈ releaseFiles -> F !! p = Some (Regular data false) ->
  (forall r, returns_in F (k r)) ->
  returns_in F (bind (lift (parseRedhatReleaseContents data expected)) k).
Proof.
  intros Hin Hp Hk w Hw. unfold bind, lift.
  destruct (parseRedhatReleaseContents_value data expected) as [r ->];
    [by eapply HF|].
  by apply Hk.
Qed.

Ltac returns_step :=
  first
    [ apply returns_ret
    | apply returns_logLine
    | assumption
    | apply returns_readFileFunc; [intros ?p ?data ?Hin ?Hp|]
    | eapply returns_parse;
        [|eassumption|intros];
        [match goal with
         | H : _ ∈ _ |- _ =>
             repeat (apply elem_of_cons in H as [->|H]);
             [unfold releaseFiles; rewrite !elem_of_cons; tauto ..
             |by apply elem_of_nil in H]
         end|]
    | apply returns_bind; [|intros]
    | match goal with
      | |- returns_in _ (if ?b then _ else _) => destruct b
      | |- returns_in _ (match ?x with _ => _ end) => destruct x
      | |- returns_in _ (let '(_, _) := ?x in _) => destruct x
      end ].

Ltac returns_auto :=
  unfold noMatch, LogErrorf, LogWarnf;
  repeat first [apply returns_readBinaryFileFunc | returns_step].

Lemma returns_IsOracleLinux lsb os : returns_in F (IsOracleLinux lsb os).
Proof. unfold IsOracleLinux. returns_auto. Qed.

Lemma returns_IsMXLinux lsb os : returns_in F (IsMXLinux lsb os).
Proof. unfold IsMXLinux. returns_auto. Qed.

Lemma returns_DistroTests :
  Forall (fun t : DistroTest => forall lsb os, returns_in F (t lsb os))
         DistroTests.
Proof.
  unfold DistroTests.
  repeat (apply List.Forall_cons; [|]); try apply List.Forall_nil;
    intros lsb os;
    pose proof (returns_IsOracleLinux lsb os);
    pose proof (returns_IsMXLinux lsb os).
  all: unfold IsCentOS, IsRHEL, IsUbuntu, IsDebian, IsAmazonLinux, IsFedora,
         IsOpenSuSE, IsSLES, IsPhoton, IsAlpine, IsArchLinux, IsGentoo, IsKali,
         IsScientificLinux, IsSlackware, IsMageia, IsClearLinux, IsMint,
         IsNovellOES, IsPuppy, IsRancherOS, IsAlt, IsCrux, IsSourceMage,
         IsAndroid, IsYellowDog, IsBusyBox.
  all: returns_auto.
Qed.

Lemma returns_BestGuess lsb os : returns_in F (BestGuess lsb os).
Proof. unfold BestGuess. returns_auto. Qed.

Lemma returns_runTests tests :
  Forall (fun t : DistroTest => forall lsb os, returns_in F (t lsb os)) tests ->
  forall i lsb os, returns_in F (runTests tests i lsb os).
Proof.
  induction 1 as [|t ts Ht Hts IH]; intros i lsb os; simpl.
  - apply returns_ret.
  - apply returns_bind; [apply Ht|]. intros [b d].
    destruct b; [apply returns_ret|].
    apply returns_bind; [apply IH|]. intros [called r]. apply returns_ret.
Qed.

Lemma returns_discoverDistroFromProperties lsb os :
  returns_in F (discoverDistroFromProperties lsb os).
Proof.
  unfold discoverDistroFromProperties, discoverDistroTraced, discoverWith.
  apply returns_bind.
  - apply returns_bind; [apply returns_runTests, returns_DistroTests|].
    intros [called [b d]]. destruct b; simpl; [apply returns_ret|].
    apply returns_bind; [apply returns_BestGuess|]. intros; apply returns_ret.
  - intros [called d]. apply returns_ret.
Qed.

Lemma returns_readReleaseFile filePath : returns_in F (readReleaseFile filePath).
Proof. unfold readReleaseFile. returns_auto. Qed.

Lemma returns_DiscoverDistro : returns_in F DiscoverDistro.
Proof.
  unfold DiscoverDistro.
  apply returns_bind; [apply returns_readReleaseFile|]. intros [lsb e1].
  apply returns_bind; [apply returns_readReleaseFile|]. intros [os e2].
  apply returns_discoverDistroFromProperties.
Qed.
End Returns.

(** X11.  When every release file in the format of /etc/redhat-release that
    resolves holds text that [releaseSplitter] matches, [DiscoverDistro] and
    [discoverDistroFromProperties] return a record, for all maps, and leave
    the files as they are. *)
Theorem classification_returns (w : World) :
  releaseFilesMatch (files w) ->
  (exists d w', DiscoverDistro w = Returned d w' /\ files w' = files w)
  /\ (forall lsb os, exists d w',
        discoverDistroFromProperties lsb os w = Returned d w'
        /\ files w' = files w).
Proof.
  intros H. split.
  - by apply (returns_DiscoverDistro _ H).
  - intros lsb os. by apply (returns_discoverDistroFromProperties _ H).
Qed.

Lemma classification_returns_witness :
  (exists d w', DiscoverDistro oracleWorld = Returned d w'
                /\ files w' = files oracleWorld)
  /\ (forall lsb os, exists d w',
        discoverDistroFromProperties lsb os oracleWorld = Returned d w'
        /\ files w' = files oracleWorld).
Proof.
  apply (classification_returns oracleWorld).
  intros p data Hin Hp. unfold releaseFiles in Hin.
  repeat (apply elem_of_cons in Hin as [->|Hin]);
    try (by apply elem_of_nil in Hin);
    vm_compute in Hp; simplify_eq; vm_compute; done.
Defined.

Lemma splitOn_first sep u post cur :
  allBytes (notEq sep) u = true ->
  post = EmptyString \/ firstByte post = Some sep ->
  srev cur ++ u ∈ splitOn sep (u ++ post) cur.
Proof.
  revert cur. induction u as [|c u IH]; intros cur Hu Hpost.
  - rewrite sapp_nil_l, sapp_nil_r. destruct Hpost as [->|Hpost].
    + simpl. rewrite elem_of_cons; by left.
    + destruct post as [|e post]; [done|]. unfold firstByte in Hpost.
      simpl in Hpost. injection Hpost as ->. simpl.
      rewrite Ascii.eqb_refl. rewrite elem_of_cons; by left.
  - simpl in Hu. apply andb_true_iff in Hu as [Hc Hu].
    rewrite sapp_cons. simpl. unfold notEq in Hc. rewrite Ascii.eqb_sym in Hc.
    destruct (Ascii.eqb c sep); [done|].
    specialize (IH (String c cur) Hu Hpost).
    by rewrite srev_cons, sapp_assoc in IH.
Qed.

Lemma splitOn_later sep pre u post cur :
  allBytes (notEq sep) u = true ->
  post = EmptyString \/ firstByte post = Some sep ->
  u ∈ splitOn sep (pre ++ String sep (u ++ post)) cur.
Proof.
  intros Hu Hpost. revert cur. induction pre as [|c pre IH]; intros cur.
  - rewrite sapp_nil_l. simpl. rewrite Ascii.eqb_refl.
    rewrite elem_of_cons. right.
    exact (splitOn_first sep u post EmptyString Hu Hpost).
  - rewrite sapp_cons. simpl. destruct (Ascii.eqb c sep); [|apply IH].
    rewrite elem_of_cons. right. apply IH.
Qed.

Lemma splitOn_inv sep s cur t :
  t ∈ splitOn sep s cur ->
  (exists u post, s = u ++ post /\ t = srev cur ++ u
     /\ allBytes (notEq sep) u = true
     /\ (post = EmptyString \/ firstByte post = Some sep))
  \/ (exists pre post, s = pre ++ String sep (t ++ post)
        /\ allBytes (notEq sep) t = true
        /\ (post = EmptyString \/ firstByte post = Some sep)).
Proof.
  revert cur. induction s as [|c s IH]; intros cur Ht; simpl in Ht.
  - apply list_elem_of_singleton in Ht as ->. left.
    exists EmptyString, EmptyString. rewrite !sapp_nil_r.
    repeat split; auto.
  - destruct (Ascii.eqb c sep) eqn:Ec.
    + apply Ascii.eqb_eq in Ec as ->. apply elem_of_cons in Ht as [->|Ht].
      * left. exists EmptyString, (String sep s). rewrite !sapp_nil_r.
        split; [done|]. split; [done|]. split; [done|]. by right.
      * right. apply IH in Ht as [(u & post & -> & -> & Hu & Hp)
                                 |(pre & post & -> & Hu & Hp)].
        -- exists EmptyString, post. by rewrite sapp_nil_l.
        -- exists (String sep pre), post. by rewrite sapp_cons.
    + apply IH in Ht as [(u & post & -> & -> & Hu & Hp)
                        |(pre & post & -> & Hu & Hp)].
      * left. exists (String c u), post. rewrite sapp_cons. split; [done|].
        rewrite srev_cons, sapp_assoc. split; [done|]. split; [|done].
        simpl. unfold notEq. rewrite Ascii.eqb_sym, Ec. done.
      * right. exists (String c pre), post. by rewrite sapp_cons.
Qed.

Lemma lastByte_snoc pre c : lastByte (pre ++ str c) = Some c.
Proof. unfold lastByte. by rewrite srev_app. Qed.

Lemma lastByte_inv pre c :
  lastByte pre = Some c -> exists p, pre = p ++ str c.
Proof.
  unfold lastByte. intros H. destruct (srev pre) as [|e r] eqn:E; [done|].
  simpl in H. injection H as ->. exists (srev r).
  by rewrite <- (srev_involutive pre), E, srev_cons.
Qed.

Lemma elem_of_Split sep t s : t ∈ Split s sep <-> token sep t s.
Proof.
  unfold Split, token. split.
  - intros [(u & post & -> & -> & Hu & Hp)|(pre & post & -> & Hu & Hp)]
      %splitOn_inv.
    + rewrite sapp_nil_l. split; [done|]. exists EmptyString, post.
      rewrite sapp_nil_l. auto.
    + split; [done|]. exists (pre ++ str sep), post.
      rewrite sapp_assoc. split; [done|]. split; [|done].
      right. apply lastByte_snoc.
  - intros (Ht & pre & post & -> & [->|Hpre] & Hpost).
    + rewrite sapp_nil_l.
      exact (splitOn_first sep t post EmptyString Ht Hpost).
    + apply lastByte_inv in Hpre as [p ->]. rewrite sapp_assoc.
      exact (splitOn_later sep p t post EmptyString Ht Hpost).
Qed.

Lemma existsb_eqb (x : string) (l : list string) :
  existsb (fun id => (x =? id)%string) l = true <-> x ∈ l.
Proof.
  rewrite existsb_exists. split.
  - intros (y & Hy & ->%String.eqb_eq). by apply list_elem_of_In.
  - intros H. exists x. split; [by apply list_elem_of_In|apply String.eqb_refl].
Qed.

Lemma token_nonEmpty sep t s :
  t <> EmptyString -> token sep t s -> (0 <? String.length s)%nat = true.
Proof.
  intros Ht (_ & pre & post & -> & _). destruct pre; [|done].
  rewrite sapp_nil_l. by destruct t.
Qed.

(** X12.  [IsRHELCompatible] holds exactly when the identifier is one of centos,
    ol, rhel and scientific, or rhel is one of the words of ID_LIKE
    separated by single spaces. *)
Theorem IsRHELCompatible_iff (l : LinuxDistro) :
  IsRHELCompatible l = true
  <-> ID l ∈ rhelCompatibleIds
      \/ token SP "rhel" (at_key (OsRelease l) "ID_LIKE").
Proof.
  unfold IsRHELCompatible.
  destruct (existsb _ rhelCompatibleIds) eqn:E1.
  { apply existsb_eqb in E1. tauto. }
  assert (Hid : ~ ID l ∈ rhelCompatibleIds).
  { intros H. apply existsb_eqb in H. congruence. }
  destruct (_ && _) eqn:E2.
  - apply andb_true_iff in E2 as [_ E2]. apply existsb_exists in E2.
    destruct E2 as (y & Hy & ->%String.eqb_eq).
    apply list_elem_of_In, elem_of_Split in Hy. tauto.
  - split; [done|]. intros [H|H]; [done|]. exfalso.
    apply andb_false_iff in E2 as [E2|E2].
    + by rewrite (token_nonEmpty SP "rhel") in E2.
    + apply elem_of_Split, list_elem_of_In in H.
      assert (existsb (fun id => (id =? "rhel")%string)
                      (Split (at_key (OsRelease l) "ID_LIKE") SP) = true);
        [|congruence].
      apply existsb_exists. by exists "rhel".
Qed.

(** X13.  [IsRedhatCompatible] holds exactly when the identifier is one of
    centos, fedora, ol, rhel and scientific, or one of the words of ID_LIKE
    separated by single spaces is rhel or fedora. *)
Theorem IsRedhatCompatible_iff (l : LinuxDistro) :
  IsRedhatCompatible l = true
  <-> ID l ∈ redhatCompatibleIds
      \/ token SP "rhel" (at_key (OsRelease l) "ID_LIKE")
      \/ token SP "fedora" (at_key (OsRelease l) "ID_LIKE").
Proof.
  unfold IsRedhatCompatible.
  destruct (existsb _ redhatCompatibleIds) eqn:E1.
  { apply existsb_eqb in E1. tauto. }
  assert (Hid : ~ ID l ∈ redhatCompatibleIds).
  { intros H. apply existsb_eqb in H. congruence. }
  destruct (_ && _) eqn:E2.
  - apply andb_true_iff in E2 as [_ E2]. apply existsb_exists in E2.
    destruct E2 as (y & Hy & [->%String.eqb_eq| ->%String.eqb_eq]%orb_true_iff);
      apply list_elem_of_In, elem_of_Split in Hy; tauto.
  - split; [done|]. intros [H|H]; [done|]. exfalso.
    apply andb_false_iff in E2 as [E2|E2].
    + destruct H as [H|H];
        [by rewrite (token_nonEmpty SP "rhel") in E2
        |by rewrite (token_nonEmpty SP "fedora") in E2].
    + assert (existsb (fun id => (id =? "rhel")%string || (id =? "fedora")%string)
                      (Split (at_key (OsRelease l) "ID_LIKE") SP) = true);
        [|congruence].
      apply existsb_exists.
      destruct H as [H|H]; apply elem_of_Split, list_elem_of_In in H;
        [by exists "rhel"|by exists "fedora"].
Qed.

Lemma existsb_weaken {A} (f g : A -> bool) (l : list A) :
  (forall x, f x = true -> g x = true) ->
  existsb f l = true -> existsb g l = true.
Proof.
  intros Hfg. rewrite !existsb_exists. intros (x & Hx & Hf). eauto.
Qed.

(** X14.  A record that is RHEL compatible is Red Hat compatible and uses
    RPM. *)
Theorem rhel_compatible_uses_rpm (l : LinuxDistro) :
  IsRHELCompatible l = true ->
  IsRedhatCompatible l = true /\ UsesRPM l = true.
Proof.
  intros H.
  assert (Hr : IsRedhatCompatible l = true);
    [|split; [done|unfold UsesRPM; by rewrite Hr]].
  revert H. unfold IsRHELCompatible, IsRedhatCompatible.
  cbn [existsb rhelCompatibleIds redhatCompatibleIds].
  destruct (ID l =? "centos")%string; [done|].
  destruct (ID l =? "fedora")%string; [done|].
  destruct (ID l =? "ol")%string; [done|].
  destruct (ID l =? "rhel")%string; [done|].
  destruct (ID l =? "scientific")%string; [done|].
  cbn [orb]. destruct (0 <? _)%nat; [|done]. cbn [andb].
  destruct (existsb _ _) eqn:E; [intros _|done].
  erewrite existsb_weaken; [done| |exact E].
  intros x Hx. cbv beta in Hx. by rewrite Hx.
Qed.

Lemma rhel_compatible_uses_rpm_witness :
  IsRedhatCompatible
    {| Name := "Rocky Linux"; ID := "rocky"; Version := "8.4";
       LsbRelease := ∅; OsRelease := {[ "ID_LIKE" := "rhel centos fedora" ]} |}
  = true
  /\ UsesRPM
       {| Name := "Rocky Linux"; ID := "rocky"; Version := "8.4";
          LsbRelease := ∅;
          OsRelease := {[ "ID_LIKE" := "rhel centos fedora" ]} |}
     = true.
Proof.
  apply rhel_compatible_uses_rpm. vm_compute. reflexivity.
Defined.

Lemma answers_at i t ids lsb os w d :
  identities !! i = Some (t, ids) -> accepts lsb os t w d ->
  (ID d, Name d) ∈ ids.
Proof.
  intros Hi Hacc. apply returned_Some in Hacc as [w' Hrun].
  pose proof (Forall_lookup_1 _ _ _ _ answers_identities Hi) as Ht.
  by destruct (Ht lsb os w true d w' Hrun).
Qed.

Ltac by_identity i :=
  match goal with
  | H : accepts _ _ _ _ _ |- _ =>
      apply (answers_at i _ _ _ _ _ _ eq_refl) in H;
      repeat (apply elem_of_cons in H as [H|H]);
      [injection H as -> _ ..|by apply elem_of_nil in H]
  end.

Lemma IsRHELCompatible_id l :
  ID l ∈ rhelCompatibleIds -> IsRHELCompatible l = true.
Proof.
  intros H%existsb_eqb. unfold IsRHELCompatible. by rewrite H.
Qed.

Lemma IsRedhatCompatible_id l :
  ID l ∈ redhatCompatibleIds -> IsRedhatCompatible l = true.
Proof.
  intros H%existsb_eqb. unfold IsRedhatCompatible. by rewrite H.
Qed.

Lemma rhelFamilyTests_id lsb os w t d :
  t ∈ rhelFamilyTests -> accepts lsb os t w d -> ID d ∈ rhelCompatibleIds.
Proof.
  intros Ht Hacc. unfold rhelFamilyTests in Ht.
  repeat (apply elem_of_cons in Ht as [->|Ht]);
    [by_identity 0%nat|by_identity 1%nat|by_identity 8%nat
    |by_identity 14%nat|by apply elem_of_nil in Ht].
  all: unfold rhelCompatibleIds; rewrite !elem_of_cons; auto 8.
Qed.

(** X15.  The identifiers of the tests agree with the compatibility queries: a
    record returned by the CentOS, RHEL, Oracle Linux or Scientific Linux
    test is RHEL compatible, one returned by the Fedora test is Red Hat
    compatible, and one returned by any of these or by the openSUSE or SLES
    test uses RPM. *)
Theorem rpm_family_records (lsb os : ReleaseDetails) (w : World)
    (t : DistroTest) (d : LinuxDistro) :
  accepts lsb os t w d ->
  (t ∈ rhelFamilyTests -> IsRHELCompatible d = true)
  /\ (t = IsFedora -> IsRedhatCompatible d = true)
  /\ (t ∈ rpmFamilyTests -> UsesRPM d = true).
Proof.
  intros Hacc.
  assert (Hfed : t = IsFedora -> IsRedhatCompatible d = true).
  { intros ->. apply IsRedhatCompatible_id. by_identity 5%nat.
    all: unfold redhatCompatibleIds; rewrite !elem_of_cons; auto 8. }
  split; [|split; [done|]].
  - intros Ht. by eapply IsRHELCompatible_id, rhelFamilyTests_id.
  - unfold rpmFamilyTests. rewrite elem_of_app. intros [Ht|Ht].
    + unfold UsesRPM. rewrite IsRedhatCompatible_id; [done|].
      pose proof (rhelFamilyTests_id _ _ _ _ _ Ht Hacc) as Hid.
      unfold rhelCompatibleIds in Hid. unfold redhatCompatibleIds.
      rewrite !elem_of_cons in *. tauto.
    + apply elem_of_cons in Ht as [->|Ht].
      { unfold UsesRPM. by rewrite Hfed. }
      unfold UsesRPM. destruct (IsRedhatCompatible d); [done|].
      repeat (apply elem_of_cons in Ht as [->|Ht]);
        [by_identity 6%nat|by_identity 7%nat|by apply elem_of_nil in Ht].
      all: reflexivity.
Qed.

Lemma rpm_family_records_witness :
  (IsCentOS ∈ rhelFamilyTests ->
   IsRHELCompatible
     {| Name := "Oracle Linux"; ID := "ol"; Version := "7.6";
        LsbRelease := ∅; OsRelease := ∅ |} = true)
  /\ (IsCentOS = IsFedora ->
      IsRedhatCompatible
        {| Name := "Oracle Linux"; ID := "ol"; Version := "7.6";
           LsbRelease := ∅; OsRelease := ∅ |} = true)
  /\ (IsCentOS ∈ rpmFamilyTests ->
      UsesRPM
        {| Name := "Oracle Linux"; ID := "ol"; Version := "7.6";
           LsbRelease := ∅; OsRelease := ∅ |} = true).
Proof.
  apply (rpm_family_records ∅ ∅ oracleWorld IsCentOS).
  vm_compute. reflexivity.
Defined.

(** ** The release files of a machine *)

Lemma readReleaseFile_properties filePath w :
  exists e w', readReleaseFile filePath w
               = Returned (releaseProperties w filePath, e) w'
               /\ files w' = files w.
Proof.
  unfold readReleaseFile, releaseProperties, bind at 1.
  rewrite readBinaryFileFunc_cons.
  destruct (files w !! filePath) as [[| |data fault]|]; simpl.
  - by eexists _, _.
  - unfold bind, LogErrorf, logLine, ret. simpl.
    destruct (nonEmpty filePath); by eexists _, _.
  - unfold bind, ret. simpl. destruct (parseOSRelease data) as [m b].
    by eexists _, _.
  - by eexists _, _.
Qed.

(** X16.  [DiscoverDistro] is [discoverDistroFromProperties] on the properties
    of /etc/lsb-release and /etc/os-release: those of the lines read, also
    when the read ends in an error, and no properties for a file that is
    missing, a directory or cannot be opened.  The errors of the two reads and
    what they log have no effect on the record. *)
Theorem DiscoverDistro_reads_release_files (w : World) :
  returned (DiscoverDistro w)
  = returned (discoverDistroFromProperties
                (releaseProperties w "/etc/lsb-release")
                (releaseProperties w "/etc/os-release") w).
Proof.
  unfold DiscoverDistro. unfold bind at 1.
  destruct (readReleaseFile_properties "/etc/lsb-release" w)
    as (e1 & w1 & -> & Hw1).
  unfold bind at 1.
  destruct (readReleaseFile_properties "/etc/os-release" w1)
    as (e2 & w2 & -> & Hw2).
  unfold releaseProperties at 2. rewrite Hw1.
  fold (releaseProperties w "/etc/os-release").
  apply reads_only_returned;
    [apply reads_only_discoverDistroFromProperties|congruence].
Qed.

(** ** A match of IsBusyBox *)

Lemma scanBytes_version bytes : forall st,
  allBytes cls_digit_dot (version st) = true ->
  allBytes cls_digit_dot (version (scanBytes bytes st)) = true.
Proof.
  induction bytes as [|b rest IH]; intros st Hst; [done|].
  cbn [scanBytes]. destruct (negb _); [done|].
  destruct (foundBusyBox st).
  - destruct (IsDigit b || Ascii.eqb b ".") eqn:Eb.
    + apply IH. cbn [version]. rewrite allBytes_app, Hst.
      cbn [str allBytes andb]. unfold cls_digit_dot. fold (IsDigit b).
      by rewrite Eb.
    + destruct (_ <? 6)%nat; [by apply IH|done].
  - destruct (String.get (matchedPos st) searchBytes); [|done].
    destruct (Ascii.eqb b a); [|done].
    destruct (_ =? searchBytesSize)%nat; by apply IH.
Qed.

Lemma scanChunks_version chunks fault : forall st st',
  allBytes cls_digit_dot (version st) = true ->
  scanChunks chunks fault st = Some st' ->
  allBytes cls_digit_dot (version st') = true.
Proof.
  induction chunks as [|chunk rest IH]; intros st st' Hst; simpl.
  - destruct fault; [done|]. by intros [= <-].
  - pose proof (scanBytes_version (butLast chunk) st Hst) as Hst1.
    destruct (_ && _); [by intros [= <-]|]. by apply IH.
Qed.

(** X17.  A match of [IsBusyBox]: /etc/os-release does not resolve, nor
    /etc/lsb-release when /etc/os-release is missing or a directory;
    /bin/true is a regular file; and the record is the BusyBox record with
    the two maps and a version made of the letter v followed by digits and
    dots only. *)
Theorem IsBusyBox_match (lsb os : ReleaseDetails) (w : World)
    (d : LinuxDistro) :
  accepts lsb os IsBusyBox w d ->
  ~ resolves w "/etc/os-release"
  /\ (skipped w "/etc/os-release" -> ~ resolves w "/etc/lsb-release")
  /\ (exists data fault, files w !! "/bin/true" = Some (Regular data fault))
  /\ exists digits,
       allBytes cls_digit_dot digits = true
       /\ d = {| Name := "BusyBox"; ID := "busybox"; Version := "v" ++ digits;
                 LsbRelease := lsb; OsRelease := os |}.
Proof.
  intros [w' Hrun]%returned_Some. revert Hrun.
  unfold IsBusyBox. unfold bind at 1.
  destruct (readFileFunc_returns ["/etc/os-release"; "/etc/lsb-release"] w)
    as ([b s] & w1 & E). rewrite E.
  destruct b; [done|].
  assert (Hw1 : files w1 = files w).
  { by eapply reads_only_files; [apply reads_only_readFileFunc|]. }
  unfold bind at 1.
  destruct (readBinaryFileFunc ["/bin/true"] w1)
    as [p|[[reader path]|path] w2] eqn:E2; [done| |done].
  apply readBinaryFileFunc_opened in E2 as (-> & Hin & Hfile).
  apply list_elem_of_singleton in Hin as ->. rewrite Hw1 in Hfile.
  destruct (scanChunks _ _ scanStart) as [st|] eqn:Escan; [|done].
  apply scanChunks_version in Escan; [|done].
  destruct (negb (foundBusyBox st)); [done|]. intros [= <- _].
  split; [|split; [|split]].
  - intros [data Hd].
    by rewrite (readFileFunc_resolved _ _ _ _ Hd) in E.
  - intros Hskip [data Hd].
    pose proof (readFileFunc_after_skipped ["/etc/os-release"]
                  "/etc/lsb-release" [] w data) as Hread.
    simpl in Hread. rewrite Hread in E; [done| |done].
    by constructor.
  - by eexists _, _.
  - by exists (version st).
Qed.

Lemma IsBusyBox_match_witness :
  ~ resolves (binTrue bannerAtStart) "/etc/os-release"
  /\ (skipped (binTrue bannerAtStart) "/etc/os-release" ->
      ~ resolves (binTrue bannerAtStart) "/etc/lsb-release")
  /\ (exists data fault,
        files (binTrue bannerAtStart) !! "/bin/true"
        = Some (Regular data fault))
  /\ exists digits,
       allBytes cls_digit_dot digits = true
       /\ {| Name := "BusyBox"; ID := "busybox"; Version := "v1.320";
             LsbRelease := ∅; OsRelease := ∅ |}
          = {| Name := "BusyBox"; ID := "busybox"; Version := "v" ++ digits;
               LsbRelease := ∅; OsRelease := ∅ |}.
Proof.
  apply (IsBusyBox_match ∅ ∅ (binTrue bannerAtStart)).
  vm_compute. reflexivity.
Defined.

(** ** A match of IsDebian *)

(** X18.  A match of [IsDebian] is a match of [IsMXLinux] with its record, or
    else [IsMXLinux] refuses, /etc/debian_version resolves, the record is the
    Debian record with the trimmed contents of that file as version, the
    os-release ID is empty or debian, and /etc/issue, when it resolves,
    starts with Debian. *)
Theorem IsDebian_match (lsb os : ReleaseDetails) (w : World)
    (d : LinuxDistro) :
  accepts lsb os IsDebian w d ->
  accepts lsb os IsMXLinux w d
  \/ (refuses lsb os IsMXLinux w
      /\ (exists data,
            files w !! "/etc/debian_version" = Some (Regular data false)
            /\ d = {| Name := "Debian GNU/Linux"; ID := "debian";
                      Version := TrimSpace data;
                      LsbRelease := lsb; OsRelease := os |})
      /\ (at_key os "ID" = EmptyString \/ at_key os "ID" = "debian")
      /\ (forall issue,
            files w !! "/etc/issue" = Some (Regular issue false) ->
            HasPrefix issue "Debian" = true)).
Proof.
  intros [w' Hrun]%returned_Some. revert Hrun.
  unfold IsDebian, accepts, refuses. unfold bind at 1.
  destruct (IsMXLinux lsb os w) as [p|[iamMx distro] w1] eqn:Emx; [done|].
  destruct iamMx; [intros [= <- _]; by left|]. right. split; [done|].
  assert (Hw1 : files w1 = files w).
  { by eapply reads_only_files; [apply reads_only_IsMXLinux|]. }
  revert Hrun. unfold bind at 1.
  destruct (readFileFunc_returns ["/etc/debian_version"] w1)
    as ([b1 data] & w2 & E1). rewrite E1.
  destruct b1; [|done]. cbn [negb].
  apply readFileFunc_true in E1
    as (-> & pre & p & post & Hl & _ & Hdata).
  assert (p = "/etc/debian_version") as ->.
  { assert (Hin : p ∈ ["/etc/debian_version"]).
    { rewrite Hl, elem_of_app, elem_of_cons. auto. }
    by apply list_elem_of_singleton in Hin. }
  rewrite Hw1 in Hdata. unfold bind at 1.
  destruct (readFileFunc_returns ["/etc/issue"] w1)
    as ([b2 issue] & w3 & E2). rewrite E2.
  destruct (b2 && negb (HasPrefix issue "Debian")) eqn:Eissue; [done|].
  destruct (negb (at_key os "ID" =? "debian")%string
            && nonEmpty (at_key os "ID")) eqn:Eid; [done|].
  intros [= <- _]. split; [by exists data|]. split.
  - apply andb_false_iff in Eid as [Eid|Eid].
    + right. apply negb_false_iff in Eid. by apply String.eqb_eq.
    + left. by apply nonEmpty_false.
  - intros issue' Hissue. rewrite <- Hw1 in Hissue.
    rewrite (readFileFunc_resolved _ _ _ _ Hissue) in E2.
    injection E2 as <- <- _. simpl in Eissue.
    by apply negb_false_iff in Eissue.
Qed.

Lemma IsDebian_match_witness :
  accepts ∅ ∅ IsMXLinux
    (mkWorld {[ "/etc/debian_version" := Regular "10.6" false ]} [])
    {| Name := "Debian GNU/Linux"; ID := "debian"; Version := "10.6";
       LsbRelease := ∅; OsRelease := ∅ |}
  \/ (refuses ∅ ∅ IsMXLinux
        (mkWorld {[ "/etc/debian_version" := Regular "10.6" false ]} [])
      /\ (exists data,
            files (mkWorld {[ "/etc/debian_version" := Regular "10.6" false ]} [])
              !! "/etc/debian_version" = Some (Regular data false)
            /\ {| Name := "Debian GNU/Linux"; ID := "debian"; Version := "10.6";
                  LsbRelease := ∅; OsRelease := ∅ |}
               = {| Name := "Debian GNU/Linux"; ID := "debian";
                    Version := TrimSpace data;
                    LsbRelease := ∅; OsRelease := ∅ |})
      /\ (at_key ∅ "ID" = EmptyString \/ at_key ∅ "ID" = "debian")
      /\ (forall issue,
            files (mkWorld {[ "/etc/debian_version" := Regular "10.6" false ]} [])
              !! "/etc/issue" = Some (Regular issue false) ->
            HasPrefix issue "Debian" = true)).
Proof.
  apply (IsDebian_match ∅ ∅
           (mkWorld {[ "/etc/debian_version" := Regular "10.6" false ]} [])).
  vm_compute. reflexivity.
Defined.
